(** * Premarket screener with news correlation: a shallow embedding of
    [src/main.py] and the properties of its filter-and-match pipeline.

    Conventions of the embedding.
    - A cell of a numeric column of the scanner's DataFrame is an
      [option Q]: [None] is the missing value (NaN / None / pd.NA) and
      [Some q] is the exact value of the binary64 number in the frame.
      Comparisons and the formatting of a number are exact on that value;
      the one arithmetic operation of the program, the quotient of the
      relative-volume stage, is rounded to binary64 as IEEE 754 has it
      ([binary64]), infinity included.
    - Instants are integers counting microseconds since the Unix epoch.
    - Exceptions are explicit: a computation that may raise returns a [res].
    - The outside world (clock, environment variables, the two providers,
      the table renderers) is a record of inputs [env]; what the program
      does to the world (log records, provider queries, files, console) is
      accumulated in a [world] threaded through a state-and-error monad. *)

From Stdlib Require Import ZArith QArith Qabs Qpower String Ascii List Lia.
From stdpp Require Import base gmap strings list sorting.

Local Open Scope string_scope.
Local Open Scope Z_scope.

(** ** Exceptions and results *)

Inductive exn : Type :=
| TypeError
| AttributeError
| ValueError
| ExternalError (msg : string).

Inductive res (A : Type) : Type :=
| Ok (a : A)
| Raise (e : exn).
Arguments Ok {A} a.
Arguments Raise {A} e.

(** ** Numbers and their display

    [round_half_even] is the rounding of Python's fixed-point formatting
    (the exact value is rounded, ties go to the even neighbour); it is
    applied to a non-negative magnitude. *)

Definition round_half_even (q : Q) : Z :=
  let n := Qnum q in
  let d := Z.pos (Qden q) in
  let fl := n / d in
  match (2 * (n mod d)) ?= d with
  | Lt => fl
  | Gt => fl + 1
  | Eq => if Z.even fl then fl else fl + 1
  end.

(** Decimal digits of a natural number, most significant first; [fuel]
    bounds the number of digits. *)
Definition digit_char (d : Z) : ascii := ascii_of_N (48 + Z.to_N d).

Fixpoint dec_digits (fuel : nat) (n : Z) : list ascii :=
  match fuel with
  | O => []
  | S fuel' =>
      if n <? 10 then [digit_char n]
      else (dec_digits fuel' (n / 10) ++ [digit_char (n mod 10)])%list
  end.

Definition dec (z : Z) : string :=
  string_of_list_ascii (dec_digits (S (Z.to_nat (Z.log2 z))) z).

(** Thousands grouping: a comma follows a digit when the digits left are a
    positive multiple of three. *)
Fixpoint group_digits (l : list ascii) : list ascii :=
  match l with
  | [] => []
  | c :: l' =>
      if Nat.eqb (length l' mod 3) 0 && negb (Nat.eqb (length l') 0)
      then c :: ","%char :: group_digits l'
      else c :: group_digits l'
  end.

Definition group3 (s : string) : string :=
  string_of_list_ascii (group_digits (list_ascii_of_string s)).

Definition pad_zeros (n : nat) (s : string) : string :=
  string_of_list_ascii (repeat "0"%char (n - String.length s)) ++ s.

(** [format_fixed grouping dp neg mag] is ["{:,.<dp>f}"] (with [grouping]) or
    ["{:.<dp>f}"] (without) applied to the float of sign [neg] and magnitude
    [mag]; the sign is kept apart so that a negative zero prints as Python
    prints it. *)
Definition format_fixed (grouping : bool) (dp : nat) (neg : bool) (mag : Q) : string :=
  let scale := 10 ^ Z.of_nat dp in
  let n := round_half_even (mag * inject_Z scale) in
  let ip := dec (n / scale) in
  (if neg then "-" else "")
    ++ (if grouping then group3 ip else ip)
    ++ match dp with
       | O => ""
       | _ => "." ++ pad_zeros dp (dec (n mod scale))
       end.

Definition Qnegative (q : Q) : bool := negb (Qle_bool 0 q).

Definition format_float (grouping : bool) (dp : nat) (q : Q) : string :=
  format_fixed grouping dp (Qnegative q) (Qabs q).

(** ** Cells and binary64 arithmetic

    An element of a Series: a missing value ([NaN], [None] or [pd.NA]), a
    finite float, given by its exact value, an infinity, or some other
    object. *)
Inductive cell : Type :=
| CNaN
| CNum (q : Q)
| CInf (negative : bool)
| CObj (s : string).

Definition to_cell (x : option Q) : cell :=
  match x with Some q => CNum q | None => CNaN end.

Definition isna (x : cell) : bool :=
  match x with CNaN => true | _ => false end.

(** [floor (log2 q)] for a positive rational [q]. *)
Definition ilog2 (q : Q) : Z :=
  let k := Z.log2 (Qnum q) - Z.log2 (Z.pos (Qden q)) in
  if Qle_bool (2 ^ k) q then k else k - 1.

(** The binary64 number nearest to the real number [q], ties going to the
    even significand: 53 significant bits, the exponent of the last place
    at least -1074 (below that the numbers are subnormal), and an infinity
    once the rounded magnitude reaches 2^1024.  This is the result of an
    arithmetic operation of IEEE 754 whose exact result is [q]; the sign of
    a zero is not kept. *)
Definition binary64 (q : Q) : cell :=
  if Qeq_bool q 0 then CNum 0
  else
    let mag := Qabs q in
    let e := Z.max (ilog2 mag - 52) (-1074) in
    let m := round_half_even (mag / 2 ^ e) in
    let r := (inject_Z m * 2 ^ e)%Q in
    if Qle_bool (2 ^ 1024) r then CInf (Qnegative q)
    else CNum (if Qnegative q then - r else r)%Q.

(** ** Strings *)

(** [str.split(sep)] for a one-character separator: never empty. *)
Fixpoint py_split (sep : ascii) (s : string) : list string :=
  match s with
  | EmptyString => [""]
  | String c s' =>
      if Ascii.eqb c sep then "" :: py_split sep s'
      else match py_split sep s' with
           | h :: t => String c h :: t
           | [] => [String c ""]
           end
  end.

(** White space as [str.strip()] understands it.  A character of a string
    is a code point below 256; among these Python counts as white space the
    code points 9 to 13 and 28 to 32, U+0085 (next line) and U+00A0
    (no-break space). *)
Definition is_space (c : ascii) : bool :=
  let n := N_of_ascii c in
  ((9 <=? n) && (n <=? 13) || (28 <=? n) && (n <=? 32)
   || (n =? 133) || (n =? 160))%N.

Fixpoint lstrip (s : string) : string :=
  match s with
  | String c s' => if is_space c then lstrip s' else s
  | EmptyString => ""
  end.

Definition string_rev (s : string) : string :=
  string_of_list_ascii (rev (list_ascii_of_string s)).

Definition py_strip (s : string) : string :=
  string_rev (lstrip (string_rev (lstrip s))).

Definition str_nonempty (s : string) : bool :=
  match s with EmptyString => false | _ => true end.

(** ** JSON scalars as Python sees them

    The values of the fields of an article.  Numbers are integers, as Unix
    timestamps are; nested arrays and objects are left out. *)

Inductive jval : Type :=
| JNull
| JBool (b : bool)
| JNum (z : Z)
| JStr (s : string).

Definition truthy (v : jval) : bool :=
  match v with
  | JNull => false
  | JBool b => b
  | JNum z => negb (z =? 0)
  | JStr s => str_nonempty s
  end.

(** [a or b] *)
Definition py_or (a b : jval) : jval := if truthy a then a else b.

Definition dec_signed (z : Z) : string :=
  if z <? 0 then "-" ++ dec (- z) else dec z.

(** [str(v)], as an f-string interpolates it. *)
Definition py_str (v : jval) : string :=
  match v with
  | JNull => "None"
  | JBool true => "True"
  | JBool false => "False"
  | JNum z => dec_signed z
  | JStr s => s
  end.

(** [v > n] for an integer [n]: numbers and booleans compare, anything else
    raises [TypeError]. *)
Definition py_gt (v : jval) (n : Z) : res bool :=
  match v with
  | JNum z => Ok (n <? z)
  | JBool b => Ok (n <? (if b then 1 else 0))
  | JNull | JStr _ => Raise TypeError
  end.

(** One element of the sequence the news provider answers with: a JSON
    object, or anything without a [get] method. *)
Inductive article : Type :=
| ArtDict (d : gmap string jval)
| ArtOther.

(** [art.get(k)] *)
Definition art_get (a : article) (k : string) : res jval :=
  match a with
  | ArtDict d => Ok (default JNull (d !! k))
  | ArtOther => Raise AttributeError
  end.

(** ** Dates and times

    An aware [datetime] is its wall-clock reading and the UTC offset of its
    [tzinfo], both in microseconds.  With [pytz] the [tzinfo] of a value
    obtained from [datetime.now(tz)] is a fixed-offset instance, and
    subtracting a [timedelta] keeps it. *)

Record datetime : Type := { wall : Z; utcoffset : Z }.

Definition us_per_second : Z := 1000000.
Definition us_per_day : Z := 86400 * us_per_second.

Definition timedelta_hours (h : Z) : Z := h * 3600 * us_per_second.
Definition timedelta_minutes (m : Z) : Z := m * 60 * us_per_second.

Definition dt_sub (d : datetime) (delta : Z) : datetime :=
  {| wall := wall d - delta; utcoffset := utcoffset d |}.

Definition astimezone_utc (d : datetime) : datetime :=
  {| wall := wall d - utcoffset d; utcoffset := 0 |}.

(** The instant a [datetime] denotes, microseconds since the epoch. *)
Definition instant (d : datetime) : Z := wall d - utcoffset d.

(** [int(d.timestamp())]: whole seconds, truncated towards zero. *)
Definition int_timestamp (d : datetime) : Z := Z.quot (instant d) us_per_second.

(** Proleptic Gregorian calendar: day number since 1970-01-01 to civil date
    and back. *)
Definition civil_from_days (days : Z) : Z * Z * Z :=
  let z := days + 719468 in
  let era := z / 146097 in
  let doe := z - era * 146097 in
  let yoe := (doe - doe / 1460 + doe / 36524 - doe / 146096) / 365 in
  let doy := doe - (365 * yoe + yoe / 4 - yoe / 100) in
  let mp := (5 * doy + 2) / 153 in
  let d := doy - (153 * mp + 2) / 5 + 1 in
  let m := if mp <? 10 then mp + 3 else mp - 9 in
  let y := yoe + era * 400 + (if m <=? 2 then 1 else 0) in
  (y, m, d).

Definition days_from_civil (y m d : Z) : Z :=
  let y' := if m <=? 2 then y - 1 else y in
  let era := y' / 400 in
  let yoe := y' - era * 400 in
  let doy := (153 * (if 2 <? m then m - 3 else m + 9) + 2) / 5 + d - 1 in
  let doe := yoe * 365 + yoe / 4 - yoe / 100 + doy in
  era * 146097 + doe - 719468.

(** [datetime(y, m, d, hh, mm, ss, tzinfo=timezone.utc)] *)
Definition utc_datetime (y m d hh mm ss : Z) : datetime :=
  {| wall := (days_from_civil y m d * 86400 + hh * 3600 + mm * 60 + ss) * us_per_second;
     utcoffset := 0 |}.

(** [d.date().isoformat()] *)
Definition date_isoformat (d : datetime) : string :=
  let '(y, m, dd) := civil_from_days (wall d / us_per_day) in
  pad_zeros 4 (dec y) ++ "-" ++ pad_zeros 2 (dec m) ++ "-" ++ pad_zeros 2 (dec dd).

(** ** Configuration (module-level constants of [main.py]) *)

Definition AVG_VOL_PERIOD : string := "60d".
Definition MARKET : string := "america".
Definition MIN_CLOSE_PRICE : Q := 2.
Definition MAX_CLOSE_PRICE : Q := 20.
Definition MIN_PREMARKET_CHANGE : Q := 10.
Definition MAX_FLOAT_SHARES : Q := 20000000.
Definition MIN_RELATIVE_VOLUME_MULTIPLIER : Q := 5.0.

Definition MARKET_TIMEZONE : string := "America/New_York".
Definition NEWS_CHECK_HOURS : Z := 24.
Definition TIME_BUFFER_MINUTES : Z := 30.

Definition TICKER_COL : string := "name".
Definition PRICE_COL : string := "close".
Definition CHANGE_COL : string := "premarket_change".
Definition FLOAT_COL : string := "float_shares_outstanding".
Definition VOL_COL : string := "volume".
Definition AVG_VOL_COL_NAME : string := "average_volume_" ++ AVG_VOL_PERIOD ++ "_calc".
Definition PREV_AVG_VOL_COL : string := AVG_VOL_COL_NAME ++ "|1".

(** ** Data model *)

(** One row of the scanner's DataFrame, a field per selected column
    ([average_volume] is the column [AVG_VOL_COL_NAME] and
    [prev_average_volume] the column [PREV_AVG_VOL_COL]).  A numeric field
    holds the exact value of the binary64 number in the frame, or nothing
    where the frame has a missing value. *)
Record row : Type := {
  name : string;
  close : option Q;
  premarket_change : option Q;
  float_shares_outstanding : option Q;
  volume : option Q;
  average_volume : option Q;
  prev_average_volume : option Q
}.

(** The scanner request, as [Query().set_markets(..).select(..).where(..)]
    builds it. *)
Inductive operation : Type :=
| in_range (lo hi : Q)
| greater (bound : Q)
| less (bound : Q).

Record filter_expr : Type := { f_column : string; f_op : operation }.

Record query : Type := {
  q_markets : list string;
  q_columns : list string;
  q_filters : list filter_expr
}.

(** A row of [df] after the ["Volume Ratio"] column is added; [idx] is the
    row's index label, which filtering and sorting carry along. *)
Record cand : Type := {
  idx : nat;
  base : row;
  Volume_Ratio : cell
}.

(** A row of [filtered_df] once the news and the display columns are added. *)
Record frow : Type := {
  f_cand : cand;
  Makes_News : bool;
  News_URL : jval;
  Current_Vol : string;
  Avg_Vol_60d : string;
  Float : string;
  Rel_Vol_60d : string;
  Change_from_Close : string;
  Price : string
}.

(** A row of [display_df]: the [final_columns], with the index label. *)
Record display_row : Type := {
  d_idx : nat;
  d_Ticker : string;
  d_Price : string;
  d_Change_from_Close : string;
  d_Float : string;
  d_Makes_News : bool;
  d_Rel_Vol_60d : string;
  d_Current_Vol : string;
  d_Avg_Vol_60d : string
}.

(** A [finnhub.Client]: its [company_news(symbol, _from, to)] method.  An
    answer that is empty or [None] is the empty list; an answer that cannot
    be iterated is one that raises. *)
Record finnhub_client : Type := {
  company_news : string -> string -> string -> res (list article)
}.

(** ** The outside world *)

Inductive level : Type := DEBUG | INFO | WARNING | ERROR.

Definition level_no (l : level) : Z :=
  match l with DEBUG => 10 | INFO => 20 | WARNING => 30 | ERROR => 40 end.

(** A log record keeps its template and its arguments apart, as
    [logging.LogRecord] does. *)
Inductive message : Type :=
| MsgCookiesFailed (exc : exn)
| MsgNoApiKey
| MsgClientInitFailed (exc : exn)
| MsgNewsCheckFailed (symbol : string) (exc : exn)
| MsgTimezone (tz : string)
| MsgCutoff (news_cutoff_local : datetime) (buffer : Z)
| MsgLoadingCookies
| MsgInitialCount (total_count : Z)
| MsgNoBasicMatch
| MsgRelVolCount (multiplier : Q) (n : nat)
| MsgNoRelVol
| MsgRunningNews (hours : Z)
| MsgFinalResults
| MsgQueryError (exc : exn).

Record log_record : Type := { lvl : level; msg : message }.

(** What a run is given. *)
Record env : Type := {
  (** the UTC instant the [k]-th call of [datetime.now] observes *)
  clock : nat -> Z;
  (** UTC offset of [pytz.timezone(MARKET_TIMEZONE)] at a UTC instant *)
  market_utcoffset : Z -> Z;
  (** [rookiepy.firefox([".tradingview.com"])] *)
  firefox_cookies : res (list (gmap string string));
  (** [os.getenv("FINNHUB_API_KEY")] *)
  FINNHUB_API_KEY : option string;
  (** [finnhub.Client(api_key=..)] *)
  finnhub_Client : string -> res finnhub_client;
  (** [Query...get_scanner_data(cookies=..)]: [(total_count, df)] *)
  get_scanner_data : query -> gmap string (option string) -> res (Z * list row);
  (** [DataFrame.to_markdown(index=False, floatfmt=".2f")] and
      [DataFrame.to_string(index=False)] *)
  to_markdown : list display_row -> res string;
  to_string : list display_row -> res string
}.

(** What a run does. *)
Record world : Type := {
  reads : nat;
  logged : list log_record;
  queries : list (string * string * string);
  files : list (string * string);
  console : list string
}.

Definition world0 : world :=
  {| reads := 0; logged := []; queries := []; files := []; console := [] |}.

(** ** State and exceptions *)

Definition M (A : Type) : Type := world -> res A * world.

Definition ret {A} (a : A) : M A := fun w => (Ok a, w).

Definition bind {A B} (m : M A) (k : A -> M B) : M B :=
  fun w =>
    match m w with
    | (Ok a, w') => k a w'
    | (Raise e, w') => (Raise e, w')
    end.

Definition lift {A} (r : res A) : M A := fun w => (r, w).

(** [try: body except Exception as exc: handler(exc)]; the effects of the part
    of [body] that ran stay. *)
Definition try_except {A} (body : M A) (handler : exn -> M A) : M A :=
  fun w =>
    match body w with
    | (Ok a, w') => (Ok a, w')
    | (Raise e, w') => handler e w'
    end.

Definition res_bind {A B} (r : res A) (k : A -> res B) : res B :=
  match r with
  | Ok a => k a
  | Raise e => Raise e
  end.

Declare Scope m_scope.
Delimit Scope m_scope with M.
Notation "x <- c ;; k" := (bind c (fun x => k))
  (at level 100, c at next level, right associativity) : m_scope.
Notation "c ;; k" := (bind c (fun _ => k))
  (at level 100, right associativity) : m_scope.

Declare Scope res_scope.
Delimit Scope res_scope with R.
Notation "x <- c ;; k" := (res_bind c (fun x => k))
  (at level 100, c at next level, right associativity) : res_scope.

(** [logger.<level>(..)]; [basicConfig(level=logging.INFO)] drops what is below
    [INFO]. *)
Definition log (l : level) (m : message) : M unit :=
  fun w =>
    (Ok tt,
     if level_no INFO <=? level_no l
     then {| reads := reads w; logged := logged w ++ [{| lvl := l; msg := m |}];
             queries := queries w; files := files w; console := console w |}
     else w).

(** [datetime.now(tz)] for a zone whose offset at instant [t] is [off t]. *)
Definition datetime_now (e : env) (off : Z -> Z) : M datetime :=
  fun w =>
    let t := clock e (reads w) in
    (Ok {| wall := t + off t; utcoffset := off t |},
     {| reads := S (reads w); logged := logged w; queries := queries w;
        files := files w; console := console w |}).

Definition utc (_ : Z) : Z := 0.

(** [client.company_news(symbol, _from=.., to=..)] *)
Definition call_company_news (client : finnhub_client) (symbol from_date to_date : string)
  : M (list article) :=
  fun w =>
    (company_news client symbol from_date to_date,
     {| reads := reads w; logged := logged w;
        queries := queries w ++ [(symbol, from_date, to_date)];
        files := files w; console := console w |}).

Definition write_file (filename content : string) : M unit :=
  fun w =>
    (Ok tt,
     {| reads := reads w; logged := logged w; queries := queries w;
        files := files w ++ [(filename, content)]; console := console w |}).

Definition print (s : string) : M unit :=
  fun w =>
    (Ok tt,
     {| reads := reads w; logged := logged w; queries := queries w;
        files := files w; console := console w ++ [s] |}).

Fixpoint mapM {A B} (f : A -> M B) (l : list A) : M (list B) :=
  match l with
  | [] => ret []
  | x :: l' => (y <- f x ;; ys <- mapM f l' ;; ret (y :: ys))%M
  end.

Fixpoint res_mapM {A B} (f : A -> res B) (l : list A) : res (list B) :=
  match l with
  | [] => Ok []
  | x :: l' => (y <- f x ;; ys <- res_mapM f l' ;; Ok (y :: ys))%R
  end.

(** ** Helpers of [main.py] *)

(** The dict comprehension of [get_session_cookies]. *)
Definition session_dict (cookies_list : list (gmap string string))
  : gmap string (option string) :=
  foldl
    (fun (acc : gmap string (option string)) (c : gmap string string) =>
       match c !! "name" with
       | Some n =>
           if negb (bool_decide (c = ∅))
              && (String.eqb n "sessionid" || String.eqb n "tv_auth")
           then <[n := c !! "value"]> acc
           else acc
       | None => acc
       end)
    ∅ cookies_list.

Definition get_session_cookies (e : env) : M (gmap string (option string)) :=
  try_except
    (cookies_list <- lift (firefox_cookies e) ;;
     ret (session_dict cookies_list))%M
    (fun exc => (log DEBUG (MsgCookiesFailed exc) ;; ret ∅)%M).

(** [fmt.format(x)] for a fixed-point format: only floats have one, and an
    infinity is printed by name. *)
Definition py_format (grouping : bool) (dp : nat) (x : cell) : res string :=
  match x with
  | CNum q => Ok (format_float grouping dp q)
  | CInf negative => Ok (if negative then "-inf" else "inf")
  | CNaN => Ok "nan"
  | CObj _ => Raise ValueError
  end.

Definition _fmt (decimal_places : nat) (x : cell) : string :=
  match (if isna x then Ok "" else py_format true decimal_places x) with
  | Ok s => s
  | Raise _ => ""
  end.


(** The first lambda of the ["Price"] column:
    [f"{x:.2f}" if pd.notna(x) else ""]. *)
Definition price_fmt (x : cell) : res string :=
  if isna x then Ok "" else py_format false 2 x.

(** The part of [s] before the first [sep], and what follows it if any. *)
Fixpoint break_at (sep : ascii) (s : string) : string * option string :=
  match s with
  | EmptyString => ("", None)
  | String c s' =>
      if Ascii.eqb c sep then ("", Some s')
      else let '(a, b) := break_at sep s' in (String c a, b)
  end.

(** The number a string of decimal digits denotes, continuing from [acc]. *)
Definition digit_value (c : ascii) : option Z :=
  let n := Z.of_N (N_of_ascii c) in
  if (48 <=? n) && (n <=? 57) then Some (n - 48) else None.

Fixpoint digits_value (acc : Z) (l : list ascii) : option Z :=
  match l with
  | [] => Some acc
  | c :: l' =>
      match digit_value c with
      | Some d => digits_value (10 * acc + d) l'
      | None => None
      end
  end.

(** A leading sign and what follows it. *)
Definition split_sign (s : string) : bool * string :=
  match s with
  | String c s' =>
      if Ascii.eqb c "-" then (true, s')
      else if Ascii.eqb c "+" then (false, s')
      else (false, s)
  | EmptyString => (false, s)
  end.

(** [float(s)] on plain decimal literals ([sign] digits [.] digits), which is
    all the first ["Price"] pass produces; the result is a sign and a
    magnitude.  The magnitude is the exact decimal value of the literal:
    Python goes on to round it to the nearest binary64 number, which is left
    out here, so that this is the number the string denotes and not a bound
    on the float Python holds.  Exponents, white space, [inf] and [nan] are
    outside this grammar and are answered with [ValueError]. *)
Definition py_float (s : string) : res (bool * Q) :=
  let '(neg, body) := split_sign s in
  let '(ip, rest) := break_at "." body in
  let fp := default "" rest in
  match digits_value 0 (list_ascii_of_string ip), digits_value 0 (list_ascii_of_string fp) with
  | Some a, Some b =>
      if str_nonempty ip || str_nonempty fp
      then let scale := 10 ^ Z.of_nat (String.length fp) in
           Ok (neg, (inject_Z (a * scale + b) / inject_Z scale)%Q)
      else Raise ValueError
  | _, _ => Raise ValueError
  end.

(** The second lambda of the ["Price"] column:
    [f"{float(x):.2f}" if x not in ("", None) else ""]. *)
Definition price_refmt (x : string) : res string :=
  if str_nonempty x
  then (f <- py_float x ;; let '(neg, mag) := f in Ok (format_fixed false 2 neg mag))%R
  else Ok "".

Definition _normalize_ticker_for_finnhub (symbol : string) : string :=
  if str_nonempty symbol then py_strip (List.last (py_split ":" symbol) "") else symbol.

Definition get_finnhub_client (e : env) : M (option finnhub_client) :=
  match FINNHUB_API_KEY e with
  | Some (String c k as api_key) =>
      try_except
        (client <- lift (finnhub_Client e api_key) ;; ret (Some client))%M
        (fun exc => (log WARNING (MsgClientInitFailed exc) ;; ret None)%M)
  | _ => (log WARNING MsgNoApiKey ;; ret None)%M
  end.

(** The [for art in articles] loop of [check_for_news_finnhub]. *)
Fixpoint scan_articles (cutoff_unix : Z) (articles : list article) : res (bool * jval) :=
  match articles with
  | [] => Ok (false, JStr "")
  | art :: rest =>
      (art_ts <- art_get art "datetime" ;;
       url <- art_get art "url" ;;
       news_url <- art_get art "news_url" ;;
       let art_url := py_or url (py_or news_url (JStr "")) in
       after <- (if truthy art_ts then py_gt art_ts cutoff_unix else Ok false) ;;
       if after : bool then Ok (true, py_or art_url (JStr ""))
       else scan_articles cutoff_unix rest)%R
  end.

Definition check_for_news_finnhub (e : env) (ticker : string)
    (cutoff_time_utc : datetime) (client : option finnhub_client) : M (bool * jval) :=
  match client with
  | None => ret (false, JStr "")
  | Some client =>
      let symbol := _normalize_ticker_for_finnhub ticker in
      if str_nonempty symbol then
        try_except
          (let from_date := date_isoformat cutoff_time_utc in
           now <- datetime_now e utc ;;
           let to_date := date_isoformat now in
           articles <- call_company_news client symbol from_date to_date ;;
           match articles with
           | [] => ret (false, JStr "")
           | _ =>
               let cutoff_unix := int_timestamp cutoff_time_utc in
               lift (scan_articles cutoff_unix articles)
           end)%M
          (fun exc => (log DEBUG (MsgNewsCheckFailed symbol exc) ;; ret (false, JStr ""))%M)
      else ret (false, JStr "")
  end.

(** ** The pipeline of [main] *)

Definition nl : string := String "010"%char EmptyString.

Definition main_query : query :=
  {| q_markets := [MARKET];
     q_columns := [TICKER_COL; PRICE_COL; CHANGE_COL; FLOAT_COL; VOL_COL;
                   AVG_VOL_COL_NAME; PREV_AVG_VOL_COL];
     q_filters := [ {| f_column := PRICE_COL; f_op := in_range MIN_CLOSE_PRICE MAX_CLOSE_PRICE |};
                    {| f_column := CHANGE_COL; f_op := greater MIN_PREMARKET_CHANGE |};
                    {| f_column := FLOAT_COL; f_op := less MAX_FLOAT_SHARES |} ] |}.

(** The cutoff of the news window, from the reading of the market clock. *)
Definition news_cutoff_local (current_market_time : datetime) : datetime :=
  dt_sub current_market_time (timedelta_hours NEWS_CHECK_HOURS).

Definition news_cutoff_utc (current_market_time : datetime) : datetime :=
  dt_sub (astimezone_utc (news_cutoff_local current_market_time))
         (timedelta_minutes TIME_BUFFER_MINUTES).

(** [series.replace(0, pd.NA)] on one cell. *)
Definition replace_zero (x : option Q) : option Q :=
  match x with
  | Some q => if Qeq_bool q 0 then None else Some q
  | None => None
  end.

(** [df[VOL_COL] / df[PREV_AVG_VOL_COL].replace(0, pd.NA)] on one row: a
    missing operand gives a missing ratio, and two numbers give the binary64
    number nearest to their quotient. *)
Definition volume_ratio (r : row) : cell :=
  match volume r, replace_zero (prev_average_volume r) with
  | Some v, Some a => binary64 (v / a)
  | _, _ => CNaN
  end.

Definition add_volume_ratio (df : list row) : list cand :=
  imap (fun i r => {| idx := i; base := r; Volume_Ratio := volume_ratio r |}) df.

Definition Qgtb (a b : Q) : bool := negb (Qle_bool a b).

(** [df["Volume Ratio"] > MIN_RELATIVE_VOLUME_MULTIPLIER]: a comparison with a
    missing value is false, and the positive infinity is above every
    number. *)
Definition relative_volume_mask (c : cand) : bool :=
  match Volume_Ratio c with
  | CNum r => Qgtb r MIN_RELATIVE_VOLUME_MULTIPLIER
  | CInf negative => negb negative
  | CNaN | CObj _ => false
  end.

Definition relative_volume_filter (df : list cand) : list cand :=
  List.filter relative_volume_mask df.

(** Lines 220-221: the candidates among the rows of [df]. *)
Definition candidates (df : list row) : list cand :=
  relative_volume_filter (add_volume_ratio df).

(** [filtered_df[TICKER_COL].apply(lambda sym: check_for_news_finnhub(..))] *)
Definition news_stage (e : env) (filtered_df : list cand) (cutoff : datetime)
    (fh_client : option finnhub_client) : M (list (bool * jval)) :=
  mapM (fun c => check_for_news_finnhub e (name (base c)) cutoff fh_client) filtered_df.

(** The two news columns joined to [filtered_df] on the shared index. *)
Definition add_news (filtered_df : list cand) (news_list : list (bool * jval))
  : list (cand * (bool * jval)) :=
  match news_list with
  | [] => map (fun c => (c, (false, JStr ""))) filtered_df
  | _ => zip filtered_df news_list
  end.

Definition fillna (v : jval) : jval :=
  match v with JNull => JStr "" | _ => v end.

(** The display columns of one row. *)
Definition format_row (x : cand * (bool * jval)) : res frow :=
  let '(c, (makes_news, url)) := x in
  (price <- price_fmt (to_cell (close (base c))) ;;
   Ok {| f_cand := c;
         Makes_News := makes_news;
         News_URL := fillna url;
         Current_Vol := _fmt 0 (to_cell (volume (base c)));
         Avg_Vol_60d := _fmt 0 (to_cell (average_volume (base c)));
         Float := _fmt 0 (to_cell (float_shares_outstanding (base c)));
         Rel_Vol_60d := _fmt 2 (Volume_Ratio c);
         Change_from_Close := _fmt 2 (to_cell (premarket_change (base c)));
         Price := price |})%R.

(** Lines 239-265: [filtered_df] with its news and display columns. *)
Definition result_rows (filtered_df : list cand) (news_list : list (bool * jval))
  : res (list frow) :=
  res_mapM format_row (add_news filtered_df news_list).

(** [filtered_df[final_columns].rename(columns={TICKER_COL: "Ticker"})] *)
Definition select_final_columns (r : frow) : display_row :=
  {| d_idx := idx (f_cand r);
     d_Ticker := name (base (f_cand r));
     d_Price := Price r;
     d_Change_from_Close := Change_from_Close r;
     d_Float := Float r;
     d_Makes_News := Makes_News r;
     d_Rel_Vol_60d := Rel_Vol_60d r;
     d_Current_Vol := Current_Vol r;
     d_Avg_Vol_60d := Avg_Vol_60d r |}.

(** [sort_values(by=.., ascending=False)] on a column of strings: the keys
    are compared as strings, character by character.  The order the source
    gives to rows with equal keys is that of this insertion sort on columns
    of at most 16 rows only (pandas sorts the reversed column in ascending
    order and reverses the result, and the default sort of numpy is an
    insertion sort on such columns); on longer columns the source does not
    promise an order among equal keys, and no statement below is about
    it. *)
Fixpoint insert_desc {A} (key : A -> string) (x : A) (l : list A) : list A :=
  match l with
  | [] => [x]
  | y :: l' => if String.ltb (key x) (key y) then y :: insert_desc key x l' else x :: l
  end.

Definition sort_values_desc {A} (key : A -> string) (l : list A) : list A :=
  foldr (insert_desc key) [] l.

Definition set_Price (d : display_row) (p : string) : display_row :=
  {| d_idx := d_idx d; d_Ticker := d_Ticker d; d_Price := p;
     d_Change_from_Close := d_Change_from_Close d; d_Float := d_Float d;
     d_Makes_News := d_Makes_News d; d_Rel_Vol_60d := d_Rel_Vol_60d d;
     d_Current_Vol := d_Current_Vol d; d_Avg_Vol_60d := d_Avg_Vol_60d d |}.

(** [display_df], sorted ... *)
Definition sorted_display (filtered_df : list frow) : list display_row :=
  sort_values_desc d_Change_from_Close (map select_final_columns filtered_df).

(** ... and with its ["Price"] column rewritten. *)
Definition display_table (filtered_df : list frow) : res (list display_row) :=
  res_mapM (fun d => (p <- price_refmt (d_Price d) ;; Ok (set_Price d p))%R)
           (sorted_display filtered_df).

(** [links_md]: one line per row of [filtered_df.head(10)] that has a URL. *)
Definition article_link (r : frow) : string :=
  "- [" ++ name (base (f_cand r)) ++ "](" ++ py_str (News_URL r) ++ ")" ++ nl.

Definition links_header : string := nl ++ "--- Article Links ---" ++ nl.

Definition links_md (filtered_df : list frow) : string :=
  foldl (fun acc r => if truthy (News_URL r) then acc ++ article_link r else acc)
        links_header
        (take 10 filtered_df).

Definition render_table (e : env) (display_df : list display_row) : M string :=
  try_except (lift (to_markdown e (take 10 display_df)))
             (fun _ => lift (to_string e (take 10 display_df))).

Definition strftime_date (d : datetime) : string := date_isoformat d.

(** Lines 279-313: the table, the links, the file and the console. *)
Definition report (e : env) (filtered_df : list frow) : M unit :=
  (log INFO MsgFinalResults ;;
   display_df <- lift (display_table filtered_df) ;;
   table_md <- render_table e display_df ;;
   let links := links_md filtered_df in
   now <- datetime_now e utc ;;
   let export_filename := strftime_date now ++ " screener wt.md" in
   write_file export_filename
     ("# Screener Results" ++ nl ++ nl ++ table_md ++ nl ++ nl ++ links) ;;
   print table_md ;;
   print links)%M.

(** Lines 193-313: the body of the [try] of [main]. *)
Definition screen (e : env) (session_cookies : gmap string (option string))
    (cutoff : datetime) (fh_client : option finnhub_client) : M unit :=
  (scan <- lift (get_scanner_data e main_query session_cookies) ;;
   let '(total_count, df) := scan in
   log INFO (MsgInitialCount total_count) ;;
   match df with
   | [] => log INFO MsgNoBasicMatch
   | _ =>
       let filtered_df := candidates df in
       log INFO (MsgRelVolCount MIN_RELATIVE_VOLUME_MULTIPLIER (length filtered_df)) ;;
       match filtered_df with
       | [] => log INFO MsgNoRelVol
       | _ =>
           log INFO (MsgRunningNews NEWS_CHECK_HOURS) ;;
           news_list <- news_stage e filtered_df cutoff fh_client ;;
           filtered_df <- lift (result_rows filtered_df news_list) ;;
           report e filtered_df
       end
   end)%M.

Definition main (e : env) : M unit :=
  (current_market_time <- datetime_now e (market_utcoffset e) ;;
   log INFO (MsgTimezone MARKET_TIMEZONE) ;;
   log INFO (MsgCutoff (news_cutoff_local current_market_time) TIME_BUFFER_MINUTES) ;;
   log INFO MsgLoadingCookies ;;
   session_cookies <- get_session_cookies e ;;
   fh_client <- get_finnhub_client e ;;
   try_except
     (screen e session_cookies (news_cutoff_utc current_market_time) fh_client)
     (fun exc => log ERROR (MsgQueryError exc)))%M.

(** ** Modelled collaborators *)

(** The value a row holds in a numeric column of the request. *)
Definition column_value (r : row) (column : string) : option Q :=
  if String.eqb column PRICE_COL then close r
  else if String.eqb column CHANGE_COL then premarket_change r
  else if String.eqb column FLOAT_COL then float_shares_outstanding r
  else if String.eqb column VOL_COL then volume r
  else if String.eqb column AVG_VOL_COL_NAME then average_volume r
  else if String.eqb column PREV_AVG_VOL_COL then prev_average_volume r
  else None.

Definition Qltb (a b : Q) : bool := negb (Qle_bool b a).

(** Modelled from the spec: the snapshot provider's evaluation of the row
    predicates of a request, which the repository delegates to the
    TradingView scanner.  The provider interface gives the three operations
    their meaning (inclusive numeric range, strict greater-than, strict
    less-than), a request keeps the rows that satisfy all its predicates,
    and a row with no value in a predicate's column fails it. *)
Definition satisfies (r : row) (f : filter_expr) : bool :=
  match column_value r (f_column f) with
  | Some x =>
      match f_op f with
      | in_range lo hi => Qle_bool lo x && Qle_bool x hi
      | greater bound => Qgtb x bound
      | less bound => Qltb x bound
      end
  | None => false
  end.

Definition snapshot_filter (q : query) (snapshot : list row) : list row :=
  List.filter (fun r => forallb (satisfies r) (q_filters q)) snapshot.

(** A cell holds a value strictly above [bound]: a number above it, or the
    positive infinity. *)
Definition exceeds (x : cell) (bound : Q) : Prop :=
  match x with
  | CNum r => (bound < r)%Q
  | CInf negative => negative = false
  | CNaN | CObj _ => False
  end.

(** The three static predicates, in the words of the specification. *)
Definition static_predicates (r : row) : Prop :=
  exists p c f,
    close r = Some p /\ premarket_change r = Some c /\ float_shares_outstanding r = Some f
    /\ (MIN_CLOSE_PRICE <= p)%Q /\ (p <= MAX_CLOSE_PRICE)%Q
    /\ (MIN_PREMARKET_CHANGE < c)%Q
    /\ (f < MAX_FLOAT_SHARES)%Q.

(** ** What a run of [main] starts from

    The values [main] binds before it enters its [try], as functions of the
    environment. *)

Definition cookie_jar (e : env) : gmap string (option string) :=
  match firefox_cookies e with
  | Ok cookies_list => session_dict cookies_list
  | Raise _ => ∅
  end.

Definition client_of (e : env) : option finnhub_client :=
  match FINNHUB_API_KEY e with
  | Some (String _ _ as api_key) =>
      match finnhub_Client e api_key with
      | Ok client => Some client
      | Raise _ => None
      end
  | _ => None
  end.

Definition client_warnings (e : env) : list log_record :=
  match FINNHUB_API_KEY e with
  | Some (String _ _ as api_key) =>
      match finnhub_Client e api_key with
      | Ok _ => []
      | Raise exc => [{| lvl := WARNING; msg := MsgClientInitFailed exc |}]
      end
  | _ => [{| lvl := WARNING; msg := MsgNoApiKey |}]
  end.

(** The market clock as [main] reads it in world [w], and the cutoff of the
    run. *)
Definition market_now (e : env) (w : world) : datetime :=
  let t := clock e (reads w) in
  {| wall := t + market_utcoffset e t; utcoffset := market_utcoffset e t |}.

Definition run_cutoff (e : env) (w : world) : datetime :=
  news_cutoff_utc (market_now e w).

Definition with_logs (w : world) (l : list log_record) : world :=
  {| reads := reads w; logged := logged w ++ l; queries := queries w;
     files := files w; console := console w |}.

Definition tick (w : world) : world :=
  {| reads := S (reads w); logged := logged w; queries := queries w;
     files := files w; console := console w |}.

Definition info (m : message) : log_record := {| lvl := INFO; msg := m |}.

(** The world in which [main] enters its [try]. *)
Definition prelude (e : env) (w : world) : world :=
  with_logs (tick w)
    ([info (MsgTimezone MARKET_TIMEZONE);
      info (MsgCutoff (news_cutoff_local (market_now e w)) TIME_BUFFER_MINUTES);
      info MsgLoadingCookies] ++ client_warnings e).

(** [steps R m]: whatever [m] does to the world, and whether or not it
    raises, the world it leaves is [R]-related to the world it found. *)
Definition steps (R : world -> world -> Prop) {A} (m : M A) : Prop :=
  forall w, R w (snd (m w)).

(** The provider queries of [w'] extend those of [w] by queries that satisfy
    [P]. *)
Definition queries_extend (P : string * string * string -> Prop) (w w' : world) : Prop :=
  exists qs, queries w' = (queries w ++ qs)%list /\ Forall P qs.

(** ** The news check in the words of the specification *)

(** The UTC clock as read in world [w], and the world after a provider
    query. *)
Definition utc_now (e : env) (w : world) : datetime :=
  {| wall := clock e (reads w); utcoffset := 0 |}.

Definition asked (w : world) (q : string * string * string) : world :=
  {| reads := reads w; logged := logged w; queries := queries w ++ [q];
     files := files w; console := console w |}.

(** The URL an article object stands for: its ["url"], else its
    ["news_url"], else the empty string. *)
Definition field (d : gmap string jval) (k : string) : jval := default JNull (d !! k).

Definition article_url (d : gmap string jval) : jval :=
  py_or (field d "url") (py_or (field d "news_url") (JStr "")).

(** The Unix timestamp an article carries, if it carries one. *)
Definition timestamp_of (a : article) : option Z :=
  match a with
  | ArtDict d => match d !! "datetime" with Some (JNum t) => Some t | _ => None end
  | ArtOther => None
  end.

(** The article's timestamp strictly exceeds the cutoff instant. *)
Definition is_after (cutoff : datetime) (a : article) : Prop :=
  exists t, timestamp_of a = Some t /\ instant cutoff < t * us_per_second.

(** An article as the provider interface promises it: an object whose
    ["datetime"], when present, is a number. *)
Definition well_formed (a : article) : Prop :=
  exists d, a = ArtDict d
            /\ (d !! "datetime" = None \/ d !! "datetime" = Some JNull
                \/ exists t, d !! "datetime" = Some (JNum t)).

(** An article object without a timestamp, or with a zero one. *)
Definition undated (a : article) : Prop :=
  exists d, a = ArtDict d
            /\ (d !! "datetime" = None \/ d !! "datetime" = Some JNull
                \/ d !! "datetime" = Some (JNum 0)).


(** What the scan makes of an article sequence: a failure of the scan counts
    as no news. *)
Definition news_of (cutoff : datetime) (articles : list article) : bool * jval :=
  match scan_articles (int_timestamp cutoff) articles with
  | Ok r => r
  | Raise _ => (false, JStr "")
  end.

Definition no_news : bool * jval := (false, JStr "").

(** The scan passes over an article object that is undated or whose
    timestamp does not exceed the cutoff second [c]. *)
Definition passed_over (c : Z) (a : article) : Prop :=
  undated a
  \/ exists d t, a = ArtDict d /\ d !! "datetime" = Some (JNum t) /\ t <= c.

(** The environment has no usable news client. *)
Definition client_unavailable (e : env) : Prop :=
  FINNHUB_API_KEY e = None \/ FINNHUB_API_KEY e = Some ""
  \/ exists api_key exc, FINNHUB_API_KEY e = Some api_key /\ finnhub_Client e api_key = Raise exc.

Definition has_url (r : frow) : bool := truthy (News_URL r).

Definition join (l : list string) : string := foldr String.append "" l.

(** ** The ranking and the link export in the words of the specification *)

(** The premarket change of the row a display row was made from. *)
Definition change_of (df : list row) (d : display_row) : option Q :=
  match df !! d_idx d with
  | Some r => premarket_change r
  | None => None
  end.

(** Every adjacent pair of the table is in descending numeric order of
    premarket change. *)
Definition descending_by_change (df : list row) (table : list display_row) : Prop :=
  forall i d1 d2 x y,
    table !! i = Some d1 -> table !! S i = Some d2 ->
    change_of df d1 = Some x -> change_of df d2 = Some y ->
    (y <= x)%Q.

(** The rows of [filtered_df] in the order in which the table shows them. *)
Definition in_table_order (filtered_df : list frow) (table : list display_row) : list frow :=
  omap (fun d => List.find (fun r => Nat.eqb (idx (f_cand r)) (d_idx d)) filtered_df) table.

(** The link export the specification describes: the candidates that have a
    URL, in the order of the table, at most ten rows of it. *)
Definition links_in_table_order (filtered_df : list frow) (table : list display_row) : string :=
  links_header ++ join (map article_link
                            (List.filter has_url (take 10 (in_table_order filtered_df table)))).

(** ** Display strings in the words of the specification *)

Definition is_digit (c : ascii) : bool :=
  match digit_value c with Some _ => true | None => false end.

Definition all_digits (s : string) : bool :=
  forallb is_digit (list_ascii_of_string s).

(** An integer part without separators: one digit or more. *)
Definition plain_integer (s : string) : bool :=
  all_digits s && (1 <=? String.length s)%nat.

(** Thousands-separated: one to three digits, then groups of exactly three
    digits, with a comma before each group. *)
Definition thousands_separated (s : string) : bool :=
  match py_split "," s with
  | first :: groups =>
      all_digits first
      && (1 <=? String.length first)%nat && (String.length first <=? 3)%nat
      && forallb (fun g => all_digits g && Nat.eqb (String.length g) 3) groups
  | [] => false
  end.



(** The number of hundredths, thousandths, ... a magnitude is displayed as. *)
Definition displayed_units (dp : nat) (mag : Q) : Z :=
  round_half_even (mag * inject_Z (10 ^ Z.of_nat dp)).

(** The length of the leading group of [n] grouped digits. *)
Definition leading (n : nat) : nat :=
  match n with
  | O => O
  | _ => match (n mod 3)%nat with O => 3%nat | r => r end
  end.


(** The display of a price cell. *)
Definition price_display (x : option Q) : string :=
  match x with
  | Some q => format_float false 2 q
  | None => ""
  end.

(** ** The table and the report of a run *)

(** Descending order of the display strings of a key. *)
Definition text_descending {A} (key : A -> string) (a b : A) : Prop :=
  (key b ≤ key a)%string.

(** What the renderers make of the first ten rows of a table. *)
Definition rendered (e : env) (table : list display_row) : res string :=
  match to_markdown e (take 10 table) with
  | Ok md => Ok md
  | Raise _ => to_string e (take 10 table)
  end.

(** The world after a report was written and printed. *)
Definition published (w : world) (filename content table_md links : string) : world :=
  {| reads := S (reads w);
     logged := logged w ++ [info MsgFinalResults];
     queries := queries w;
     files := files w ++ [(filename, content)];
     console := (console w ++ [table_md]) ++ [links] |}.

(** ** Concrete scenarios *)

(** A plain pipe-separated rendering of the table, standing in for the
    Markdown renderer. *)
Definition pipe_row (r : display_row) : string :=
  "| " ++ d_Ticker r ++ " | " ++ d_Price r ++ " | " ++ d_Change_from_Close r
  ++ " | " ++ d_Float r ++ " | " ++ (if d_Makes_News r then "True" else "False")
  ++ " | " ++ d_Rel_Vol_60d r ++ " | " ++ d_Current_Vol r ++ " | " ++ d_Avg_Vol_60d r
  ++ " |" ++ nl.

Definition pipe_table (rows : list display_row) : res string :=
  Ok (foldr (fun r acc => pipe_row r ++ acc) "" rows).

(** A mover at $5.00 with a float of one million shares, trading 600,000
    shares against a prior average of 100,000. *)
Definition mover (ticker : string) (change : Q) : row :=
  {| name := ticker;
     close := Some 5%Q;
     premarket_change := Some change;
     float_shares_outstanding := Some 1000000%Q;
     volume := Some 600000%Q;
     average_volume := Some 95000%Q;
     prev_average_volume := Some 100000%Q |}.

Definition dated_article (ts : datetime) (url : string) : article :=
  ArtDict (<["datetime" := JNum (int_timestamp ts)]> (<["url" := JStr url]> ∅)).

(** A run that starts at 2024-01-11T09:30:00Z, each later clock reading one
    second after the previous one, in a market five hours behind UTC; the
    snapshot provider honours the request on [snapshot], and the news
    provider answers [news symbol]. *)
Definition demo_env (api_key : option string) (snapshot : list row)
    (news : string -> res (list article)) : env :=
  {| clock := fun k => instant (utc_datetime 2024 1 11 9 30 0) + Z.of_nat k * us_per_second;
     market_utcoffset := fun _ => timedelta_hours (-5);
     firefox_cookies := Ok [];
     FINNHUB_API_KEY := api_key;
     finnhub_Client := fun _ => Ok {| company_news := fun symbol _ _ => news symbol |};
     get_scanner_data := fun q _ =>
       let df := snapshot_filter q snapshot in Ok (Z.of_nat (length df), df);
     to_markdown := pipe_table;
     to_string := pipe_table |}.

Definition cutoff_0900 : datetime := utc_datetime 2024 1 10 9 0 0.

(** The scenario of the specification: an article an hour before the cutoff
    with URL [A], then one an hour after it with URL [B]. *)
Definition article_A : article := dated_article (utc_datetime 2024 1 10 8 0 0) "A".
Definition dict_B : gmap string jval :=
  <["datetime" := JNum (int_timestamp (utc_datetime 2024 1 10 10 0 0))]> (<["url" := JStr "B"]> ∅).
Definition scenario_env : env :=
  demo_env (Some "key") [] (fun _ => Ok [article_A; ArtDict dict_B]).

(** Two movers, the second with the larger gain. *)
Definition two_movers : list row := [mover "NASDAQ:AAA" 25; mover "NASDAQ:BBB" 100].

Definition recent_news (url : string) : res (list article) :=
  Ok [dated_article (utc_datetime 2024 1 11 8 0 0) url].

Definition no_key_env : env := demo_env None two_movers (fun _ => recent_news "http://x").

(** A recent article that carries no URL at all. *)
Definition bare_article : article :=
  ArtDict (<["datetime" := JNum (int_timestamp (utc_datetime 2024 1 11 8 0 0))]> ∅).
Definition bare_env : env :=
  demo_env (Some "key") [mover "NASDAQ:AAA" 25] (fun _ => Ok [bare_article]).

(** Two movers whose gains sort alike as numbers and as text, the second
    with the larger gain, and a news provider with an article for each. *)
Definition two_risers : list row := [mover "NASDAQ:AAA" 11; mover "NASDAQ:BBB" 50].

Definition news_by_symbol (symbol : string) : res (list article) :=
  recent_news ("http://news/" ++ symbol).

(** Eleven movers, each gaining more than the one before. *)
Definition eleven_risers : list row :=
  [mover "NASDAQ:T01" 12; mover "NASDAQ:T02" 13; mover "NASDAQ:T03" 14;
   mover "NASDAQ:T04" 15; mover "NASDAQ:T05" 16; mover "NASDAQ:T06" 17;
   mover "NASDAQ:T07" 18; mover "NASDAQ:T08" 19; mover "NASDAQ:T09" 20;
   mover "NASDAQ:T10" 21; mover "NASDAQ:T11" 22].

Definition recent_pair (symbol : string) : bool * jval :=
  (true, JStr ("http://news/" ++ symbol)).

(** A row with the given price, premarket change, float and volume, against
    average volumes of 100,000. *)
Definition listing (ticker : string) (price change float_shares vol : Q) : row :=
  {| name := ticker;
     close := Some price;
     premarket_change := Some change;
     float_shares_outstanding := Some float_shares;
     volume := Some vol;
     average_volume := Some 100000%Q;
     prev_average_volume := Some 100000%Q |}.

(** A snapshot on the bounds of the static predicates: prices at both ends
    of the band, a change at its bound, a float at its bound. *)
Definition at_min_price : row := listing "NYSE:LOW" 2 15 1000000 600000.
Definition at_max_price : row := listing "NYSE:HIGH" 20 15 1000000 600000.
Definition at_min_change : row := listing "NYSE:FLAT" 5 10 1000000 600000.
Definition at_max_float : row := listing "NYSE:WIDE" 5 15 20000000 600000.
Definition boundary_snapshot : list row :=
  [at_min_price; at_max_price; at_min_change; at_max_float].

(** A row that passes the static predicates with a volume of exactly five
    times its prior average, and a run on a snapshot of it alone. *)
Definition at_threshold : row := listing "NYSE:FIVE" 5 15 1000000 500000.
Definition threshold_env : env := demo_env None [at_threshold] (fun _ => Ok []).
Definition empty_env : env := demo_env None [] (fun _ => Ok []).


(** Three cookies of the browser: two session ids and a cookie of no
    interest. *)
Definition old_session : gmap string string :=
  <["name" := "sessionid"]> (<["value" := "old"]> ∅).
Definition new_session : gmap string string :=
  <["name" := "sessionid"]> (<["value" := "new"]> ∅).
Definition tracking_cookie : gmap string string :=
  <["name" := "_ga"]> (<["value" := "GA1"]> ∅).

(** A run during which the snapshot provider cannot be reached. *)
Definition offline_env : env :=
  {| clock := clock empty_env;
     market_utcoffset := market_utcoffset empty_env;
     firefox_cookies := Ok [];
     FINNHUB_API_KEY := Some "key";
     finnhub_Client := finnhub_Client empty_env;
     get_scanner_data := fun _ _ => Raise (ExternalError "connection refused");
     to_markdown := pipe_table;
     to_string := pipe_table |}.

(** An answer of the news provider with a stray element between an old
    article and a recent one. *)
Definition garbled_answer : list article := [article_A; ArtOther; ArtDict dict_B].
Definition garbled_client : finnhub_client :=
  {| company_news := fun _ _ _ => Ok garbled_answer |}.


(** A row trading 500,001 shares against a prior average of 100,000.2, as
    the frame holds it: the binary64 number nearest to 100,000.2 is a little
    below it, so the quotient is a little above 5 and rounds to 5.0. *)
Definition near_threshold : row :=
  {| name := "NYSE:NEAR";
     close := Some 5%Q;
     premarket_change := Some 15%Q;
     float_shares_outstanding := Some 1000000%Q;
     volume := Some 500001%Q;
     average_volume := Some 100000%Q;
     prev_average_volume := Some (6871961417495347 # 68719476736)%Q |}.

(** ** Further properties: their vocabulary *)

(** No character of [s] is the exchange separator. *)
Definition colon_free (s : string) : bool :=
  forallb (fun c => negb (Ascii.eqb c ":")) (list_ascii_of_string s).

Definition starts_with_space (s : string) : bool :=
  match s with
  | String c _ => is_space c
  | EmptyString => false
  end.

(** Neither the first nor the last character of [s] is white space. *)
Definition trimmed (s : string) : bool :=
  negb (starts_with_space s) && negb (starts_with_space (string_rev s)).

(** The two decimal digits of a number below one hundred. *)
Definition two_digits (z : Z) : string :=
  String (digit_char (z / 10)) (String (digit_char (z mod 10)) "").

(** The relative-volume test on a row of the snapshot. *)
Definition heavy_volume (r : row) : bool :=
  match volume_ratio r with
  | CNum q => Qgtb q MIN_RELATIVE_VOLUME_MULTIPLIER
  | CInf negative => negb negative
  | CNaN | CObj _ => false
  end.

(** The symbols the news stage has something to ask about. *)
Definition news_symbols (filtered_df : list cand) : list string :=
  List.filter str_nonempty
    (map (fun c => _normalize_ticker_for_finnhub (name (base c))) filtered_df).

(** The records a run logs once it is in its [try], before the report. *)
Definition stage_records (total : Z) (n : nat) : list log_record :=
  [info (MsgInitialCount total);
   info (MsgRelVolCount MIN_RELATIVE_VOLUME_MULTIPLIER n);
   info (MsgRunningNews NEWS_CHECK_HOURS)].

Definition error (exc : exn) : log_record := {| lvl := ERROR; msg := MsgQueryError exc |}.

(** The file a run exports, from the date of its last reading [k] of the
    clock, its table and its links. *)
Definition export (e : env) (k : nat) (table_md links : string) : string * string :=
  (date_isoformat {| wall := clock e k; utcoffset := 0 |} ++ " screener wt.md",
   "# Screener Results" ++ nl ++ nl ++ table_md ++ nl ++ nl ++ links).

(** An element of the provider's answer the scan cannot read: something
    that is not an object, or an object whose timestamp is a non-empty
    string. *)
Definition malformed (a : article) : Prop :=
  a = ArtOther
  \/ exists d s, a = ArtDict d /\ d !! "datetime" = Some (JStr s) /\ s <> "".


(** * Properties *)

(** ** The model on concrete inputs *)

Example format_float_ex1 : format_float true 2 (1234567.891) = "1,234,567.89".
Proof. vm_compute. reflexivity. Qed.
Example format_float_ex2 : format_float true 0 (2.5) = "2".
Proof. vm_compute. reflexivity. Qed.
Example format_float_ex3 : format_float true 2 (-0.001) = "-0.00".
Proof. vm_compute. reflexivity. Qed.
Example format_float_ex4 : format_float false 2 (1234.5) = "1234.50".
Proof. vm_compute. reflexivity. Qed.
Example format_float_ex5 : format_float true 0 (999.5) = "1,000".
Proof. vm_compute. reflexivity. Qed.
Example format_float_ex6 : format_float true 2 (100) = "100.00".
Proof. vm_compute. reflexivity. Qed.
Example utc_datetime_ex : instant (utc_datetime 2024 1 10 9 0 0) = 1704877200 * 1000000.
Proof. reflexivity. Qed.
Example date_isoformat_ex1 : date_isoformat (utc_datetime 2024 1 10 9 0 0) = "2024-01-10".
Proof. vm_compute. reflexivity. Qed.
Example date_isoformat_ex2 : date_isoformat (utc_datetime 2024 2 29 23 59 59) = "2024-02-29".
Proof. vm_compute. reflexivity. Qed.
Example date_isoformat_ex3 : date_isoformat (utc_datetime 1999 12 31 0 0 0) = "1999-12-31".
Proof. vm_compute. reflexivity. Qed.
Example py_split_ex : py_split ":" "NASDAQ:AAPL" = ["NASDAQ"; "AAPL"].
Proof. reflexivity. Qed.
Example py_strip_ex : py_strip "  AB C  " = "AB C".
Proof. reflexivity. Qed.
Example normalize_ex1 : _normalize_ticker_for_finnhub "NASDAQ:AAPL" = "AAPL".
Proof. reflexivity. Qed.
Example normalize_ex2 : _normalize_ticker_for_finnhub "NYSE: " = "".
Proof. reflexivity. Qed.
Example py_float_ex1 : py_float "12.34" = Ok (false, (inject_Z 1234 / inject_Z 100)%Q).
Proof. reflexivity. Qed.
Example price_refmt_ex1 : price_refmt "-0.00" = Ok "-0.00".
Proof. vm_compute. reflexivity. Qed.
Example price_refmt_ex2 : price_refmt "1234.50" = Ok "1234.50".
Proof. vm_compute. reflexivity. Qed.

(** The end-to-end scenario of the specification: of three rows one passes
    the static predicates, at six times its prior average volume and with a
    recent article; the document and the console show that one row and its
    link. *)
Example end_to_end :
  let e := demo_env (Some "key")
             [listing "NYSE:LOW" 1 15 1000000 600000;
              mover "NASDAQ:AAA" 25;
              listing "NYSE:WIDE" 5 15 30000000 600000]
             news_by_symbol in
  let table := "| NASDAQ:AAA | 5.00 | 25.00 | 1,000,000 | True | 6.00 | 600,000 | 95,000 |"
               ++ nl in
  let links := links_header ++ "- [NASDAQ:AAA](http://news/AAA)" ++ nl in
  main e world0
  = (Ok tt,
     {| reads := 3;
        logged := [info (MsgTimezone MARKET_TIMEZONE);
                   info (MsgCutoff (dt_sub (market_now e world0) (timedelta_hours 24)) 30);
                   info MsgLoadingCookies;
                   info (MsgInitialCount 1);
                   info (MsgRelVolCount MIN_RELATIVE_VOLUME_MULTIPLIER 1);
                   info (MsgRunningNews 24);
                   info MsgFinalResults];
        queries := [("AAA", "2024-01-10", "2024-01-11")];
        files := [("2024-01-11 screener wt.md",
                   "# Screener Results" ++ nl ++ nl ++ table ++ nl ++ nl ++ links)];
        console := [table; links] |}).
Proof. vm_compute. reflexivity. Qed.

(** ** Comparisons on rationals *)

Lemma Qgtb_lt (a b : Q) : Qgtb a b = true <-> (b < a)%Q.
Proof.
  unfold Qgtb. rewrite negb_true_iff, <- not_true_iff_false, Qle_bool_iff.
  split; [apply Qnot_le_lt | apply Qlt_not_le].
Qed.

Lemma Qltb_lt (a b : Q) : Qltb a b = true <-> (a < b)%Q.
Proof. unfold Qltb. apply (Qgtb_lt b a). Qed.

Lemma replace_zero_Some (x : option Q) (a : Q) :
  replace_zero x = Some a <-> x = Some a /\ ~ (a == 0)%Q.
Proof.
  destruct x as [q|]; simpl.
  - destruct (Qeq_bool q 0) eqn:E.
    + apply Qeq_bool_iff in E. split; [discriminate|].
      intros [[= ->] Hn]. contradiction.
    + apply Qeq_bool_neq in E. split.
      * intros [= ->]. auto.
      * intros [[= ->] _]. reflexivity.
  - split; [discriminate | intros [? _]; discriminate].
Qed.

(** ** Rounding to an integer *)

Lemma round_half_even_ge (x : Q) (N : Z) : (inject_Z N <= x)%Q -> N <= round_half_even x.
Proof.
  destruct x as [n d]. unfold Qle, round_half_even. simpl. intros H.
  pose proof (Z.div_mod n (Z.pos d) ltac:(lia)) as Hdm.
  pose proof (Z.mod_pos_bound n (Z.pos d) ltac:(lia)) as Hb.
  assert (N <= n / Z.pos d) by (apply Z.div_le_lower_bound; lia).
  destruct (2 * (n mod Z.pos d) ?= Z.pos d); [destruct (Z.even _)| |]; lia.
Qed.

Lemma round_half_even_le (x : Q) (N : Z) : (x <= inject_Z N)%Q -> round_half_even x <= N.
Proof.
  destruct x as [n d]. unfold Qle, round_half_even. simpl. intros H.
  pose proof (Z.div_mod n (Z.pos d) ltac:(lia)) as Hdm.
  pose proof (Z.mod_pos_bound n (Z.pos d) ltac:(lia)) as Hb.
  set (fl := n / Z.pos d) in *. set (r := n mod Z.pos d) in *.
  destruct (2 * r ?= Z.pos d) eqn:C.
  - apply Z.compare_eq in C. destruct (Z.even fl); nia.
  - rewrite Z.compare_lt_iff in C. nia.
  - rewrite Z.compare_gt_iff in C. nia.
Qed.

(** Above an even integer the rounding goes up only past the half. *)
Lemma round_half_even_above_even (x : Q) (N : Z) :
  Z.even N = true ->
  (N < round_half_even x <-> (inject_Z N + (1 # 2) < x)%Q).
Proof.
  intros Heven. destruct x as [n d]. unfold Qlt, Qplus, round_half_even. simpl.
  pose proof (Z.div_mod n (Z.pos d) ltac:(lia)) as Hdm.
  pose proof (Z.mod_pos_bound n (Z.pos d) ltac:(lia)) as Hb.
  set (fl := n / Z.pos d) in *. set (r := n mod Z.pos d) in *.
  destruct (2 * r ?= Z.pos d) eqn:C.
  - apply Z.compare_eq in C.
    destruct (Z.even fl) eqn:Hfl.
    + split; intros H; nia.
    + assert (fl <> N) as Hne by (intros ->; congruence). split; intros H; nia.
  - rewrite Z.compare_lt_iff in C. split; intros H; nia.
  - rewrite Z.compare_gt_iff in C. split; intros H; nia.
Qed.

(** ** Powers of two *)

Lemma pow2_pos (k : Z) : (0 < 2 ^ k)%Q.
Proof. apply Qpower_0_lt. reflexivity. Qed.

Lemma pow2_add (a b : Z) : (2 ^ (a + b) == 2 ^ a * 2 ^ b)%Q.
Proof. apply Qpower_plus. discriminate. Qed.

Lemma pow2_le (a b : Z) : a <= b -> (2 ^ a <= 2 ^ b)%Q.
Proof. intros H. apply Qpower_le_compat_l; [exact H | discriminate]. Qed.

Lemma pow2_lt_inv (a b : Z) : (2 ^ a < 2 ^ b)%Q -> a < b.
Proof. intros H. apply (Qpower_lt_compat_l_inv 2); [exact H | reflexivity]. Qed.

Lemma pow2_Z (k : Z) : 0 <= k -> (inject_Z (2 ^ k) == 2 ^ k)%Q.
Proof. intros H. apply (Zpower_Qpower 2 k H). Qed.

Lemma pow2_div (a b : Z) : (2 ^ a / 2 ^ b == 2 ^ (a - b))%Q.
Proof.
  unfold Z.sub. rewrite pow2_add, Qpower_opp. reflexivity.
Qed.

Lemma ilog2_spec (q : Q) :
  (0 < q)%Q -> (2 ^ ilog2 q <= q)%Q /\ (q < 2 ^ (ilog2 q + 1))%Q.
Proof.
  intros Hq. unfold ilog2.
  destruct q as [n d]. cbn [Qnum Qden].
  assert (0 < n) as Hn by (unfold Qlt in Hq; simpl in Hq; lia).
  destruct (Z.log2_spec n Hn) as [Hn1 Hn2].
  destruct (Z.log2_spec (Z.pos d) ltac:(lia)) as [Hd1 Hd2].
  pose proof (Z.log2_nonneg n) as Ha. pose proof (Z.log2_nonneg (Z.pos d)) as Hb.
  set (a := Z.log2 n) in *. set (b := Z.log2 (Z.pos d)) in *.
  assert (0 < inject_Z (Z.pos d))%Q as Hdpos by (unfold Qlt; simpl; lia).
  assert (2 ^ a <= inject_Z n)%Q as Qn1
    by (rewrite <- pow2_Z by lia; rewrite <- Zle_Qle; exact Hn1).
  assert (inject_Z n < 2 ^ (a + 1))%Q as Qn2
    by (rewrite <- pow2_Z by lia; rewrite <- Zlt_Qlt; exact Hn2).
  assert (2 ^ b <= inject_Z (Z.pos d))%Q as Qd1
    by (rewrite <- pow2_Z by lia; rewrite <- Zle_Qle; exact Hd1).
  assert (inject_Z (Z.pos d) < 2 ^ (b + 1))%Q as Qd2
    by (rewrite <- pow2_Z by lia; rewrite <- Zlt_Qlt; exact Hd2).
  assert (n # d < 2 ^ (a - b + 1))%Q as Hhi.
  { rewrite (Qmake_Qdiv n d). apply Qlt_shift_div_r; [exact Hdpos|].
    eapply Qlt_le_trans; [exact Qn2|].
    replace (a + 1) with ((a - b + 1) + b) by lia. rewrite pow2_add.
    apply Qmult_le_l; [apply pow2_pos | exact Qd1]. }
  assert (2 ^ (a - b - 1) <= n # d)%Q as Hlo.
  { rewrite (Qmake_Qdiv n d). apply Qle_shift_div_l; [exact Hdpos|].
    eapply Qle_trans; [|exact Qn1].
    replace a with ((a - b - 1) + (b + 1)) at 2 by lia. rewrite pow2_add.
    apply Qmult_le_l; [apply pow2_pos | apply Qlt_le_weak; exact Qd2]. }
  destruct (Qle_bool (2 ^ (a - b)) (n # d)) eqn:E.
  - apply Qle_bool_iff in E. split; assumption.
  - split; [exact Hlo|]. replace (a - b - 1 + 1) with (a - b) by lia.
    apply Qnot_le_lt. intros H. apply Qle_bool_iff in H. congruence.
Qed.

(** ** Rounding to binary64 *)

Lemma Qabs_of_nonneg (x : Q) : (0 <= x)%Q -> Qabs x = x.
Proof.
  destruct x as [n d]. unfold Qle. simpl. intros H.
  unfold Qabs. f_equal. lia.
Qed.

Lemma Qnegative_false (q : Q) : (0 <= q)%Q -> Qnegative q = false.
Proof. intros H. unfold Qnegative. rewrite (proj2 (Qle_bool_iff 0 q) H). reflexivity. Qed.

Lemma Qnegative_true (q : Q) : (q < 0)%Q -> Qnegative q = true.
Proof.
  intros H. unfold Qnegative. destruct (Qle_bool 0 q) eqn:E; [|reflexivity].
  apply Qle_bool_iff in E. exfalso. exact (Qlt_not_le _ _ H E).
Qed.

(** The rounding of a positive number: its significand and the exponent of
    its last place. *)
Lemma binary64_pos (q : Q) :
  (0 < q)%Q ->
  binary64 q
  = let e := Z.max (ilog2 q - 52) (-1074) in
    let m := round_half_even (q / 2 ^ e) in
    if Qle_bool (2 ^ 1024) (inject_Z m * 2 ^ e) then CInf false
    else CNum (inject_Z m * 2 ^ e).
Proof.
  intros Hq. unfold binary64.
  assert (Qeq_bool q 0 = false) as ->.
  { destruct (Qeq_bool q 0) eqn:E; [|reflexivity].
    apply Qeq_bool_iff in E. rewrite E in Hq. discriminate Hq. }
  rewrite (Qabs_of_nonneg q (Qlt_le_weak _ _ Hq)).
  rewrite (Qnegative_false q (Qlt_le_weak _ _ Hq)). reflexivity.
Qed.

(** The rounded magnitude lies in the binade of the number. *)
Lemma significand_le (q : Q) (e k : Z) :
  (q <= 2 ^ k)%Q -> e <= k ->
  (inject_Z (round_half_even (q / 2 ^ e)) * 2 ^ e <= 2 ^ k)%Q.
Proof.
  intros Hq He.
  assert (round_half_even (q / 2 ^ e) <= 2 ^ (k - e)) as Hm.
  { apply round_half_even_le. rewrite pow2_Z by lia. rewrite <- pow2_div.
    apply Qmult_le_compat_r; [exact Hq|].
    apply Qlt_le_weak, Qinv_lt_0_compat, pow2_pos. }
  rewrite Zle_Qle in Hm. rewrite pow2_Z in Hm by lia.
  assert (2 ^ k == 2 ^ (k - e) * 2 ^ e)%Q as ->
    by (rewrite <- pow2_add; replace (k - e + e) with k by lia; reflexivity).
  apply Qmult_le_compat_r; [exact Hm | apply Qlt_le_weak, pow2_pos].
Qed.

Lemma significand_ge (q : Q) (e k : Z) :
  (2 ^ k <= q)%Q -> e <= k ->
  (2 ^ k <= inject_Z (round_half_even (q / 2 ^ e)) * 2 ^ e)%Q.
Proof.
  intros Hq He.
  assert (2 ^ (k - e) <= round_half_even (q / 2 ^ e)) as Hm.
  { apply round_half_even_ge. rewrite pow2_Z by lia. rewrite <- pow2_div.
    apply Qmult_le_compat_r; [exact Hq|].
    apply Qlt_le_weak, Qinv_lt_0_compat, pow2_pos. }
  rewrite Zle_Qle in Hm. rewrite pow2_Z in Hm by lia.
  assert (2 ^ k == 2 ^ (k - e) * 2 ^ e)%Q as ->
    by (rewrite <- pow2_add; replace (k - e + e) with k by lia; reflexivity).
  apply Qmult_le_compat_r; [exact Hm | apply Qlt_le_weak, pow2_pos].
Qed.

Lemma ilog2_lt (q : Q) (k : Z) : (0 < q)%Q -> (q < 2 ^ k)%Q -> ilog2 q < k.
Proof.
  intros Hq H. destruct (ilog2_spec q Hq) as [Hlo _].
  apply pow2_lt_inv. eapply Qle_lt_trans; eassumption.
Qed.

Lemma ilog2_ge (q : Q) (k : Z) : (0 < q)%Q -> (2 ^ k <= q)%Q -> k <= ilog2 q.
Proof.
  intros Hq H. destruct (ilog2_spec q Hq) as [_ Hhi].
  assert (k < ilog2 q + 1); [|lia].
  apply pow2_lt_inv. eapply Qle_lt_trans; eassumption.
Qed.

(** The binary64 quotient is above 5.0 exactly when the quotient is above
    5 + 2^-51, half a unit of the last place above 5.0. *)
Lemma binary64_exceeds_5 (q : Q) :
  exceeds (binary64 q) 5 <-> (5 + 2 ^ (-51) < q)%Q.
Proof.
  change (2 ^ (-51))%Q with (1 # 2251799813685248)%Q.
  destruct (Qlt_le_dec 0 q) as [Hpos|Hneg].
  - rewrite (binary64_pos q Hpos). cbv zeta.
    destruct (Qlt_le_dec q 4) as [H4|H4]; [|destruct (Qlt_le_dec q 8) as [H8|H8]].
    + (* below 4: the rounding is at most 4 *)
      pose proof (ilog2_lt q 2 Hpos H4) as He0.
      set (e := Z.max (ilog2 q - 52) (-1074)).
      assert (e <= 2) as He by lia.
      pose proof (significand_le q e 2 (Qlt_le_weak _ _ H4) He) as Hr.
      set (r := (inject_Z (round_half_even (q / 2 ^ e)) * 2 ^ e)%Q) in *.
      assert (Qle_bool (2 ^ 1024) r = false) as ->.
      { destruct (Qle_bool (2 ^ 1024) r) eqn:E; [|reflexivity].
        apply Qle_bool_iff in E. exfalso.
        apply (Qlt_not_le (2 ^ 2) (2 ^ 1024));
          [apply Qpower_lt_compat_l; [lia | reflexivity] | eapply Qle_trans; eassumption]. }
      cbn [exceeds]. split; intros H; exfalso.
      * apply (Qlt_not_le _ _ H). eapply Qle_trans; [exact Hr|]. discriminate.
      * apply (Qlt_not_le _ _ H4). apply Qlt_le_weak.
        eapply Qlt_trans; [|exact H]. reflexivity.
    + (* between 4 and 8: the last place is 2^-50 *)
      assert (ilog2 q = 2) as He0.
      { pose proof (ilog2_lt q 3 Hpos H8). pose proof (ilog2_ge q 2 Hpos H4). lia. }
      rewrite He0. change (Z.max (2 - 52) (-1074)) with (-50).
      change (2 ^ (-50))%Q with (1 # 1125899906842624)%Q.
      set (m := round_half_even (q / (1 # 1125899906842624))).
      assert (m <= 2 ^ 53) as Hm.
      { apply round_half_even_le. destruct q as [n d].
        unfold Qlt, Qle in *. simpl in *. lia. }
      assert (Qle_bool (2 ^ 1024) (inject_Z m * (1 # 1125899906842624)) = false) as ->.
      { destruct (Qle_bool _ _) eqn:E; [|reflexivity].
        apply Qle_bool_iff in E. exfalso.
        apply (Qlt_not_le (2 ^ 3) (2 ^ 1024));
          [apply Qpower_lt_compat_l; [lia | reflexivity]|].
        eapply Qle_trans; [exact E|]. unfold Qle. simpl. lia. }
      cbn [exceeds].
      assert ((5 < inject_Z m * (1 # 1125899906842624))%Q <-> 5 * 2 ^ 50 < m) as ->
        by (unfold Qlt; simpl; lia).
      unfold m. rewrite (round_half_even_above_even _ (5 * 2 ^ 50) eq_refl).
      destruct q as [n d]. unfold Qlt. simpl. lia.
    + (* from 8 on: the rounding is at least 8 *)
      pose proof (ilog2_ge q 3 Hpos H8) as He0.
      destruct (ilog2_spec q Hpos) as [Hlo _].
      replace (Z.max (ilog2 q - 52) (-1074)) with (ilog2 q - 52) by lia.
      pose proof (significand_ge q (ilog2 q - 52) (ilog2 q) Hlo ltac:(lia)) as Hr.
      set (r := (inject_Z (round_half_even (q / 2 ^ (ilog2 q - 52))) * 2 ^ (ilog2 q - 52))%Q) in *.
      assert (5 < r)%Q as H5.
      { eapply Qlt_le_trans; [|exact Hr].
        eapply Qlt_le_trans; [|apply (pow2_le 3); exact He0]. reflexivity. }
      split.
      * intros _. eapply Qlt_le_trans; [|exact H8]. reflexivity.
      * intros _. destruct (Qle_bool (2 ^ 1024) r); [reflexivity | exact H5].
  - (* zero and below: never above 5 *)
    assert (~ exceeds (binary64 q) 5) as Hno.
    { unfold binary64. destruct (Qeq_bool q 0) eqn:E0; [intros H; discriminate H|].
      assert (q < 0)%Q as Hlt.
      { apply Qle_lteq in Hneg as [H|H]; [exact H|].
        apply Qeq_bool_neq in E0. contradiction. }
      rewrite (Qnegative_true q Hlt). cbv zeta.
      destruct (Qle_bool _ _); cbn [exceeds]; [discriminate|].
      intros H. apply (Qlt_not_le _ _ H).
      apply (Qle_trans _ 0); [|discriminate].
      apply (Qopp_le_compat 0). apply Qmult_le_0_compat.
      - rewrite <- (Zle_Qle 0). apply round_half_even_ge.
        apply Qmult_le_0_compat; [apply Qabs_nonneg|].
        apply Qlt_le_weak, Qinv_lt_0_compat, pow2_pos.
      - apply Qlt_le_weak, pow2_pos. }
    split; [intros H; contradiction|].
    intros H. exfalso. apply (Qlt_not_le _ _ H).
    eapply Qle_trans; [exact Hneg|]. discriminate.
Qed.

(** The rounding of a magnitude is within half a unit of it. *)
Lemma round_half_even_close (q : Q) :
  (Qabs (inject_Z (round_half_even q) - q) <= 1 # 2)%Q.
Proof.
  apply Qabs_Qle_condition. destruct q as [n d]. unfold round_half_even. simpl Qnum. simpl Qden.
  pose proof (Z.div_mod n (Z.pos d) ltac:(lia)) as Hdm.
  pose proof (Z.mod_pos_bound n (Z.pos d) ltac:(lia)) as Hb.
  set (fl := n / Z.pos d) in *. set (r := n mod Z.pos d) in *.
  assert (forall x : Z, (-(1 # 2) <= inject_Z x - (n # d))%Q
                        <-> 2 * n - Z.pos d <= 2 * x * Z.pos d) as Hlo.
  { intros x. unfold Qle, Qminus, Qplus, Qopp, inject_Z. simpl. lia. }
  assert (forall x : Z, (inject_Z x - (n # d) <= 1 # 2)%Q
                        <-> 2 * x * Z.pos d <= 2 * n + Z.pos d) as Hhi.
  { intros x. unfold Qle, Qminus, Qplus, Qopp, inject_Z. simpl. lia. }
  destruct (2 * r ?= Z.pos d) eqn:C.
  - apply Z.compare_eq in C.
    destruct (Z.even fl); (split; [apply Hlo | apply Hhi]); nia.
  - rewrite Z.compare_lt_iff in C. split; [apply Hlo | apply Hhi]; nia.
  - rewrite Z.compare_gt_iff in C. split; [apply Hlo | apply Hhi]; nia.
Qed.

(** In the normal range the binary64 number nearest to [q] is within the
    relative error 2^-53 of it. *)
Lemma binary64_close (q r : Q) :
  (2 ^ (-1022) <= q)%Q -> binary64 q = CNum r ->
  (Qabs (r - q) <= q * 2 ^ (-53))%Q.
Proof.
  intros Hnormal.
  assert (0 < q)%Q as Hpos by (eapply Qlt_le_trans; [apply (pow2_pos (-1022)) | exact Hnormal]).
  rewrite (binary64_pos q Hpos). cbv zeta.
  pose proof (ilog2_ge q (-1022) Hpos Hnormal) as He0.
  destruct (ilog2_spec q Hpos) as [Hlo _].
  replace (Z.max (ilog2 q - 52) (-1074)) with (ilog2 q - 52) by lia.
  set (e := ilog2 q - 52) in *.
  destruct (Qle_bool _ _); [discriminate|]. intros [= <-].
  pose proof (round_half_even_close (q / 2 ^ e)) as Hm.
  set (m := round_half_even (q / 2 ^ e)) in *.
  pose proof (pow2_pos e) as He.
  assert (~ 2 ^ e == 0)%Q as Hnz by (intros H; rewrite H in He; discriminate He).
  assert (inject_Z m * 2 ^ e - q == (inject_Z m - q / 2 ^ e) * 2 ^ e)%Q as ->
    by (field; exact Hnz).
  rewrite Qabs_Qmult, (Qabs_pos (2 ^ e)) by (apply Qlt_le_weak; exact He).
  apply (Qle_trans _ ((1 # 2) * 2 ^ e)).
  - apply Qmult_le_compat_r; [exact Hm | apply Qlt_le_weak; exact He].
  - assert ((1 # 2) * 2 ^ e == 2 ^ ilog2 q * 2 ^ (-53))%Q as ->.
    { rewrite <- pow2_add. change (1 # 2)%Q with (2 ^ (-1))%Q. rewrite <- pow2_add.
      unfold e. replace (-1 + (ilog2 q - 52)) with (ilog2 q + -53) by lia. reflexivity. }
    apply Qmult_le_compat_r; [exact Hlo | apply Qlt_le_weak, pow2_pos].
Qed.

(** ** The relative-volume stage *)

Lemma exceeds_threshold (x : cell) :
  exceeds x MIN_RELATIVE_VOLUME_MULTIPLIER <-> exceeds x 5.
Proof.
  destruct x as [|r|negative|s]; cbn [exceeds]; try reflexivity.
  assert (MIN_RELATIVE_VOLUME_MULTIPLIER == 5)%Q as -> by reflexivity. reflexivity.
Qed.

Lemma mask_exceeds (c : cand) :
  relative_volume_mask c = true
  <-> exceeds (Volume_Ratio c) MIN_RELATIVE_VOLUME_MULTIPLIER.
Proof.
  unfold relative_volume_mask.
  destruct (Volume_Ratio c) as [|r|negative|s]; cbn [exceeds].
  - split; [discriminate | contradiction].
  - apply Qgtb_lt.
  - apply negb_true_iff.
  - split; [discriminate | contradiction].
Qed.

Lemma volume_ratio_quotient (r : row) (v a : Q) :
  volume r = Some v -> prev_average_volume r = Some a -> ~ (a == 0)%Q ->
  volume_ratio r = binary64 (v / a).
Proof.
  intros Hv Ha Hn. unfold volume_ratio. rewrite Hv, Ha.
  assert (replace_zero (Some a) = Some a) as -> by (apply replace_zero_Some; auto).
  reflexivity.
Qed.

(** A ratio that is not missing comes from a volume and a non-zero
    average. *)
Lemma volume_ratio_defined (r : row) :
  volume_ratio r <> CNaN ->
  exists v a, volume r = Some v /\ prev_average_volume r = Some a
              /\ ~ (a == 0)%Q /\ volume_ratio r = binary64 (v / a).
Proof.
  unfold volume_ratio. destruct (volume r) as [v|]; [|contradiction].
  destruct (replace_zero (prev_average_volume r)) as [a|] eqn:E; [|contradiction].
  apply replace_zero_Some in E as [E Hn]. intros _. eauto 6.
Qed.

Lemma add_volume_ratio_elem (df : list row) (c : cand) :
  c ∈ add_volume_ratio df
  <-> df !! idx c = Some (base c) /\ Volume_Ratio c = volume_ratio (base c).
Proof.
  unfold add_volume_ratio. rewrite elem_of_lookup_imap. split.
  - intros (i & r & -> & Hr). split; [exact Hr | reflexivity].
  - intros [Hr Hc]. exists (idx c), (base c). split; [|exact Hr].
    destruct c as [i r x]. simpl in *. rewrite Hc. reflexivity.
Qed.

Lemma add_volume_ratio_bases (g : nat -> nat) (df : list row) :
  map base (imap (fun i r => {| idx := g i; base := r; Volume_Ratio := volume_ratio r |}) df)
  = df.
Proof.
  revert g. induction df as [|r df IH]; intros g; [reflexivity|].
  cbn [imap map base]. f_equal. apply (IH (g ∘ S)).
Qed.

Lemma relative_volume_filter_elem (df : list cand) (c : cand) :
  c ∈ relative_volume_filter df <-> c ∈ df /\ relative_volume_mask c = true.
Proof.
  unfold relative_volume_filter. rewrite !list_elem_of_In. apply filter_In.
Qed.

(** C6. The ratio column holds, for each row of the snapshot, the volume
    divided by the prior-period average as binary64 arithmetic computes it:
    the binary64 number nearest to the quotient, which in the normal range
    is within the relative error 2^-53 of it.  A missing or zero average (or
    a missing volume) leaves the ratio missing, never an infinity or an
    exception.  The candidates are exactly the rows whose ratio is above the
    5.0 multiplier, so every candidate has a ratio that is defined and
    strictly above 5.0, the quotient of a volume by a non-zero average.  In
    terms of the quotient itself a row is kept exactly when the quotient is
    above 5 + 2^-51: a row at the threshold, or below it, is left out. *)
Theorem C6_relative_volume :
  (forall df,
      map base (add_volume_ratio df) = df
      /\ forall c, c ∈ add_volume_ratio df ->
                   df !! idx c = Some (base c) /\ Volume_Ratio c = volume_ratio (base c))
  /\ (forall r v a, volume r = Some v -> prev_average_volume r = Some a ->
                    ~ (a == 0)%Q -> volume_ratio r = binary64 (v / a))
  /\ (forall q x, (2 ^ (-1022) <= q)%Q -> binary64 q = CNum x ->
                  (Qabs (x - q) <= q * 2 ^ (-53))%Q)
  /\ (forall r, prev_average_volume r = None -> volume_ratio r = CNaN)
  /\ (forall r a, prev_average_volume r = Some a -> (a == 0)%Q -> volume_ratio r = CNaN)
  /\ (forall r, volume r = None -> volume_ratio r = CNaN)
  /\ (forall df c,
        c ∈ candidates df
        <-> c ∈ add_volume_ratio df
            /\ exceeds (Volume_Ratio c) MIN_RELATIVE_VOLUME_MULTIPLIER)
  /\ (forall df c, c ∈ candidates df ->
        exists v a, volume (base c) = Some v /\ prev_average_volume (base c) = Some a
                    /\ ~ (a == 0)%Q /\ Volume_Ratio c = binary64 (v / a)
                    /\ (5 + 2 ^ (-51) < v / a)%Q)
  /\ (forall df i r v a,
        df !! i = Some r -> volume r = Some v -> prev_average_volume r = Some a ->
        ~ (a == 0)%Q -> (5 + 2 ^ (-51) < v / a)%Q ->
        {| idx := i; base := r; Volume_Ratio := binary64 (v / a) |} ∈ candidates df)
  /\ (forall df c v a,
        c ∈ add_volume_ratio df ->
        volume (base c) = Some v -> prev_average_volume (base c) = Some a ->
        (v / a <= 5)%Q -> c ∉ candidates df).
Proof.
  assert (forall df c, c ∈ candidates df
            <-> c ∈ add_volume_ratio df
                /\ exceeds (Volume_Ratio c) MIN_RELATIVE_VOLUME_MULTIPLIER) as Hcand.
  { intros df c. unfold candidates. rewrite relative_volume_filter_elem, mask_exceeds.
    reflexivity. }
  split; [|split; [|split; [|split; [|split; [|split; [|split; [|split; [|split]]]]]]]].
  - intros df. split; [apply (add_volume_ratio_bases id)|].
    intros c Hc. apply add_volume_ratio_elem. exact Hc.
  - exact volume_ratio_quotient.
  - exact binary64_close.
  - intros r Ha. unfold volume_ratio. rewrite Ha. simpl. destruct (volume r); reflexivity.
  - intros r a Ha H0. unfold volume_ratio. rewrite Ha. simpl.
    apply Qeq_bool_iff in H0. rewrite H0. destruct (volume r); reflexivity.
  - intros r Hv. unfold volume_ratio. rewrite Hv. reflexivity.
  - exact Hcand.
  - intros df c Hc. apply Hcand in Hc as [Hin Hex].
    apply add_volume_ratio_elem in Hin as [_ Hratio].
    destruct (volume_ratio_defined (base c)) as (v & a & Hv & Ha & Hn & Hq).
    { rewrite <- Hratio. intros H. rewrite H in Hex. exact Hex. }
    exists v, a. repeat split; try assumption; [congruence|].
    apply binary64_exceeds_5. apply exceeds_threshold. congruence.
  - intros df i r v a Hr Hv Ha Hn Hq. apply Hcand. split.
    + apply add_volume_ratio_elem. simpl. split; [exact Hr|].
      symmetry. apply volume_ratio_quotient; assumption.
    + simpl. apply exceeds_threshold. apply binary64_exceeds_5. exact Hq.
  - intros df c v a Hin Hv Ha Hle Hc.
    apply Hcand in Hc as [_ Hex].
    apply add_volume_ratio_elem in Hin as [_ Hratio].
    destruct (volume_ratio_defined (base c)) as (v' & a' & Hv' & Ha' & Hn & Hq).
    { rewrite <- Hratio. intros H. rewrite H in Hex. exact Hex. }
    assert (v' = v) as -> by congruence. assert (a' = a) as -> by congruence.
    rewrite Hratio, Hq in Hex.
    apply exceeds_threshold, binary64_exceeds_5 in Hex.
    apply (Qlt_not_le _ _ Hex). eapply Qle_trans; [exact Hle|]. discriminate.
Qed.

(** A mover at six times its prior average is a candidate with the ratio
    6.0; a row at exactly five times is not a candidate; and neither is the
    row whose exact quotient is a little above 5 and which binary64
    arithmetic rounds to 5.0. *)
Lemma C6_witness :
  {| idx := 0; base := mover "NASDAQ:AAA" 25; Volume_Ratio := binary64 (600000 / 100000) |}
    ∈ candidates two_movers
  /\ exceeds (binary64 (600000 / 100000)) MIN_RELATIVE_VOLUME_MULTIPLIER
  /\ ({| idx := 0; base := at_threshold; Volume_Ratio := volume_ratio at_threshold |}
      ∉ candidates [at_threshold])
  /\ (5 < 500001 / (6871961417495347 # 68719476736))%Q
  /\ ({| idx := 0; base := near_threshold; Volume_Ratio := volume_ratio near_threshold |}
      ∉ candidates [near_threshold]).
Proof.
  destruct C6_relative_volume as (_ & _ & _ & _ & _ & _ & Hiff & _ & Hin & Hout).
  split; [|split; [|split; [|split]]].
  - apply (Hin two_movers 0%nat (mover "NASDAQ:AAA" 25) 600000%Q 100000%Q);
      try reflexivity; vm_compute; congruence.
  - apply (Hiff two_movers
             {| idx := 0; base := mover "NASDAQ:AAA" 25;
                Volume_Ratio := binary64 (600000 / 100000) |}).
    apply (Hin two_movers 0%nat (mover "NASDAQ:AAA" 25) 600000%Q 100000%Q);
      try reflexivity; vm_compute; congruence.
  - apply (Hout [at_threshold] _ 500000%Q 100000%Q); try reflexivity.
    + apply list_elem_of_In. left. reflexivity.
    + vm_compute. discriminate.
  - reflexivity.
  - intros Hc. apply (Hiff [near_threshold] _) in Hc as [_ Hex].
    vm_compute in Hex. discriminate Hex.
Defined.

(** ** The static predicates of the request *)

Lemma satisfies_price (r : row) :
  satisfies r {| f_column := PRICE_COL; f_op := in_range MIN_CLOSE_PRICE MAX_CLOSE_PRICE |} = true
  <-> exists p, close r = Some p /\ (MIN_CLOSE_PRICE <= p)%Q /\ (p <= MAX_CLOSE_PRICE)%Q.
Proof.
  unfold satisfies. simpl f_column. change (column_value r PRICE_COL) with (close r). simpl f_op.
  destruct (close r) as [p|].
  - rewrite andb_true_iff, !Qle_bool_iff. split.
    + intros [? ?]. eauto.
    + intros (p' & [= <-] & ? & ?). auto.
  - split; [discriminate | intros (p & [=] & _)].
Qed.

Lemma satisfies_change (r : row) :
  satisfies r {| f_column := CHANGE_COL; f_op := greater MIN_PREMARKET_CHANGE |} = true
  <-> exists c, premarket_change r = Some c /\ (MIN_PREMARKET_CHANGE < c)%Q.
Proof.
  unfold satisfies. simpl f_column. change (column_value r CHANGE_COL) with (premarket_change r). simpl f_op.
  destruct (premarket_change r) as [c|].
  - rewrite Qgtb_lt. split.
    + eauto.
    + intros (c' & [= <-] & ?). auto.
  - split; [discriminate | intros (c & [=] & _)].
Qed.

Lemma satisfies_float (r : row) :
  satisfies r {| f_column := FLOAT_COL; f_op := less MAX_FLOAT_SHARES |} = true
  <-> exists f, float_shares_outstanding r = Some f /\ (f < MAX_FLOAT_SHARES)%Q.
Proof.
  unfold satisfies. simpl f_column.
  change (column_value r FLOAT_COL) with (float_shares_outstanding r). simpl f_op.
  destruct (float_shares_outstanding r) as [f|].
  - rewrite Qltb_lt. split.
    + eauto.
    + intros (f' & [= <-] & ?). auto.
  - split; [discriminate | intros (f & [=] & _)].
Qed.

Lemma snapshot_filter_main_query (snapshot : list row) (r : row) :
  r ∈ snapshot_filter main_query snapshot <-> r ∈ snapshot /\ static_predicates r.
Proof.
  unfold snapshot_filter. rewrite !list_elem_of_In, filter_In.
  apply and_iff_compat_l. simpl q_filters. simpl forallb.
  rewrite !andb_true_iff, satisfies_price, satisfies_change, satisfies_float.
  unfold static_predicates. split.
  - intros ((p & ? & ? & ?) & (c & ? & ?) & (f & ? & ?) & _). exists p, c, f. auto 8.
  - intros (p & c & f & ? & ? & ? & ? & ? & ? & ?).
    split; [exists p; auto | split; [exists c; auto | split; [exists f; auto | reflexivity]]].
Qed.

(** C8. The request built by [main] keeps exactly the rows that satisfy all
    three static predicates together; a price equal to either end of the
    price band is kept, a premarket change equal to its bound is dropped, and
    a float equal to its bound is dropped. *)
Theorem C8_snapshot_filter :
  (forall snapshot r,
      r ∈ snapshot_filter main_query snapshot <-> r ∈ snapshot /\ static_predicates r)
  /\ (forall snapshot r p c f,
        r ∈ snapshot ->
        close r = Some p -> premarket_change r = Some c ->
        float_shares_outstanding r = Some f ->
        (p == MIN_CLOSE_PRICE \/ p == MAX_CLOSE_PRICE)%Q ->
        (MIN_PREMARKET_CHANGE < c)%Q -> (f < MAX_FLOAT_SHARES)%Q ->
        r ∈ snapshot_filter main_query snapshot)
  /\ (forall snapshot r c,
        premarket_change r = Some c -> (c == MIN_PREMARKET_CHANGE)%Q ->
        r ∉ snapshot_filter main_query snapshot)
  /\ (forall snapshot r f,
        float_shares_outstanding r = Some f -> (f == MAX_FLOAT_SHARES)%Q ->
        r ∉ snapshot_filter main_query snapshot).
Proof.
  split; [exact snapshot_filter_main_query|]. repeat split.
  - intros snapshot r p c f Hin Hp Hc Hf Hb Hc' Hf'.
    apply snapshot_filter_main_query. split; [assumption|].
    exists p, c, f. repeat split; try assumption.
    + destruct Hb as [-> | ->]; [apply Qle_refl | discriminate].
    + destruct Hb as [-> | ->]; [discriminate | apply Qle_refl].
  - intros snapshot r c Hc Heq Hin.
    apply snapshot_filter_main_query in Hin as [_ (p & c' & f & _ & Hc' & _ & _ & _ & Hlt & _)].
    rewrite Hc in Hc'. injection Hc' as <-. rewrite Heq in Hlt.
    exact (Qlt_irrefl _ Hlt).
  - intros snapshot r f Hf Heq Hin.
    apply snapshot_filter_main_query in Hin as [_ (p & c & f' & _ & _ & Hf' & _ & _ & _ & Hlt)].
    rewrite Hf in Hf'. injection Hf' as <-. rewrite Heq in Hlt.
    exact (Qlt_irrefl _ Hlt).
Qed.

(** On the boundary snapshot the request keeps the two rows priced at the
    ends of the band and drops the two rows at the strict bounds. *)
Lemma C8_witness :
  at_min_price ∈ snapshot_filter main_query boundary_snapshot
  /\ at_max_price ∈ snapshot_filter main_query boundary_snapshot
  /\ (at_min_change ∉ snapshot_filter main_query boundary_snapshot)
  /\ at_max_float ∉ snapshot_filter main_query boundary_snapshot.
Proof.
  destruct C8_snapshot_filter as (_ & Hin & Hchange & Hfloat).
  split; [|split; [|split]].
  - apply (Hin boundary_snapshot at_min_price 2 15 1000000)%Q; try reflexivity.
    + apply list_elem_of_In. left. reflexivity.
    + left. reflexivity.
  - apply (Hin boundary_snapshot at_max_price 20 15 1000000)%Q; try reflexivity.
    + apply list_elem_of_In. right. left. reflexivity.
    + right. reflexivity.
  - apply (Hchange boundary_snapshot at_min_change 10%Q); reflexivity.
  - apply (Hfloat boundary_snapshot at_max_float 20000000%Q); reflexivity.
Defined.

(** ** Running the monad *)

Lemma with_logs_nil (w : world) : with_logs w [] = w.
Proof. destruct w. unfold with_logs. simpl. rewrite app_nil_r. reflexivity. Qed.

Lemma with_logs_app (w : world) (l1 l2 : list log_record) :
  with_logs (with_logs w l1) l2 = with_logs w (l1 ++ l2).
Proof. unfold with_logs. simpl. rewrite app_assoc. reflexivity. Qed.

Lemma log_info_run (m : message) (w : world) :
  log INFO m w = (Ok tt, with_logs w [info m]).
Proof. reflexivity. Qed.

Lemma log_debug_run (m : message) (w : world) : log DEBUG m w = (Ok tt, w).
Proof. reflexivity. Qed.

Lemma get_session_cookies_run (e : env) (w : world) :
  get_session_cookies e w = (Ok (cookie_jar e), w).
Proof.
  unfold get_session_cookies, cookie_jar, try_except, bind, lift, ret.
  destruct (firefox_cookies e); reflexivity.
Qed.

Lemma get_finnhub_client_run (e : env) (w : world) :
  get_finnhub_client e w = (Ok (client_of e), with_logs w (client_warnings e)).
Proof.
  unfold get_finnhub_client, client_of, client_warnings.
  destruct (FINNHUB_API_KEY e) as [[|c k]|]; try reflexivity.
  unfold try_except, bind, lift, ret.
  destruct (finnhub_Client e (String c k)); [|reflexivity].
  rewrite with_logs_nil. reflexivity.
Qed.

Lemma main_run (e : env) (w : world) :
  main e w =
  try_except (screen e (cookie_jar e) (run_cutoff e w) (client_of e))
             (fun exc => log ERROR (MsgQueryError exc))
             (prelude e w).
Proof.
  unfold main, bind at 1. unfold datetime_now at 1.
  fold (market_now e w). fold (tick w).
  unfold bind at 1. rewrite log_info_run.
  unfold bind at 1. rewrite log_info_run.
  unfold bind at 1. rewrite log_info_run.
  unfold bind at 1. rewrite get_session_cookies_run.
  unfold bind at 1. rewrite get_finnhub_client_run.
  rewrite !with_logs_app. reflexivity.
Qed.

Section Steps.
Variable R : world -> world -> Prop.
Hypothesis R_refl : forall w, R w w.
Hypothesis R_trans : forall a b c, R a b -> R b c -> R a c.

Lemma steps_ret {A} (a : A) : steps R (ret a).
Proof. intros w. apply R_refl. Qed.

Lemma steps_lift {A} (r : res A) : steps R (lift r).
Proof. intros w. apply R_refl. Qed.

Lemma steps_bind {A B} (m : M A) (k : A -> M B) :
  steps R m -> (forall a, steps R (k a)) -> steps R (bind m k).
Proof.
  intros Hm Hk w. unfold bind. specialize (Hm w).
  destruct (m w) as [[a|exc] w1]; simpl in *.
  - eapply R_trans; [exact Hm | apply Hk].
  - exact Hm.
Qed.

Lemma steps_try_except {A} (body : M A) (handler : exn -> M A) :
  steps R body -> (forall exc, steps R (handler exc)) -> steps R (try_except body handler).
Proof.
  intros Hb Hh w. unfold try_except. specialize (Hb w).
  destruct (body w) as [[a|exc] w1]; simpl in *.
  - exact Hb.
  - eapply R_trans; [exact Hb | apply Hh].
Qed.

Lemma steps_mapM {A B} (f : A -> M B) (l : list A) :
  (forall x, steps R (f x)) -> steps R (mapM f l).
Proof.
  intros Hf. induction l as [|x l IH]; simpl.
  - apply steps_ret.
  - apply steps_bind; [apply Hf|]. intros y.
    apply steps_bind; [exact IH|]. intros ys. apply steps_ret.
Qed.
End Steps.

(** ** Early termination *)

Lemma screen_early_exit (e : env) (cookies : gmap string (option string))
    (cutoff : datetime) (client : option finnhub_client) (w : world)
    (total : Z) (df : list row) :
  get_scanner_data e main_query cookies = Ok (total, df) ->
  candidates df = [] ->
  screen e cookies cutoff client w =
  (Ok tt,
   with_logs w
     (info (MsgInitialCount total)
      :: match df with
         | [] => [info MsgNoBasicMatch]
         | _ => [info (MsgRelVolCount MIN_RELATIVE_VOLUME_MULTIPLIER 0); info MsgNoRelVol]
         end)).
Proof.
  intros Hscan Hnone. unfold screen, bind at 1, lift. rewrite Hscan.
  unfold bind at 1. rewrite log_info_run.
  destruct df as [|r df].
  - rewrite log_info_run, with_logs_app. reflexivity.
  - rewrite Hnone. simpl length.
    unfold bind at 1. rewrite !log_info_run, !with_logs_app. reflexivity.
Qed.

(** C7. When the snapshot provider answers with no rows, or no row passes
    the relative-volume filter, the run ends normally: [main] returns without
    an exception, every record logged after the provider answered is at level
    INFO and the last one is the "no stocks" message, and nothing else
    happened: no news query, no further clock reading (so no lookup and no
    export), no file, nothing on the console. *)
Theorem C7_empty_result_terminates_early (e : env) (w : world) (total : Z) (df : list row) :
  get_scanner_data e main_query (cookie_jar e) = Ok (total, df) ->
  candidates df = [] ->
  exists records,
    main e w = (Ok tt, with_logs (prelude e w) records)
    /\ Forall (fun r => lvl r = INFO) records
    /\ last records = Some (info (match df with [] => MsgNoBasicMatch | _ => MsgNoRelVol end))
    /\ queries (snd (main e w)) = queries w
    /\ files (snd (main e w)) = files w
    /\ console (snd (main e w)) = console w
    /\ reads (snd (main e w)) = S (reads w).
Proof.
  intros Hscan Hnone.
  pose proof (screen_early_exit e (cookie_jar e) (run_cutoff e w) (client_of e)
                (prelude e w) total df Hscan Hnone) as Hrun.
  eexists. rewrite main_run. unfold try_except. rewrite Hrun.
  split; [reflexivity|].
  destruct df; (split; [repeat constructor | repeat split]).
Qed.

(** Neither the run on an empty snapshot nor the run whose only row is at
    the threshold writes a file or asks for news. *)
Lemma C7_witness :
  (fst (main empty_env world0) = Ok tt
   /\ files (snd (main empty_env world0)) = []
   /\ queries (snd (main empty_env world0)) = [])
  /\ (fst (main threshold_env world0) = Ok tt
      /\ files (snd (main threshold_env world0)) = []
      /\ queries (snd (main threshold_env world0)) = []).
Proof.
  split.
  - destruct (C7_empty_result_terminates_early empty_env world0 0 [] eq_refl eq_refl)
      as (records & Hmain & _ & _ & Hq & Hf & _).
    split; [rewrite Hmain; reflexivity | split; [exact Hf | exact Hq]].
  - destruct (C7_empty_result_terminates_early threshold_env world0 1 [at_threshold]
                eq_refl eq_refl)
      as (records & Hmain & _ & _ & Hq & Hf & _).
    split; [rewrite Hmain; reflexivity | split; [exact Hf | exact Hq]].
Defined.

(** ** The article scan *)

Lemma py_or_empty_idem (a b : jval) :
  py_or (py_or a (py_or b (JStr ""))) (JStr "") = py_or a (py_or b (JStr "")).
Proof.
  unfold py_or. destruct (truthy a) eqn:Ea.
  - rewrite Ea. reflexivity.
  - destruct (truthy b) eqn:Eb.
    + rewrite Eb. reflexivity.
    + reflexivity.
Qed.

Lemma scan_articles_cons_dict (c : Z) (d : gmap string jval) (rest : list article) :
  scan_articles c (ArtDict d :: rest) =
  match (if truthy (field d "datetime") then py_gt (field d "datetime") c else Ok false) with
  | Ok true => Ok (true, article_url d)
  | Ok false => scan_articles c rest
  | Raise exc => Raise exc
  end.
Proof.
  simpl. unfold res_bind. fold (field d "datetime") (field d "url") (field d "news_url").
  destruct (if truthy (field d "datetime") then py_gt (field d "datetime") c else Ok false)
    as [[|]|exc]; try reflexivity.
  rewrite py_or_empty_idem. reflexivity.
Qed.

Lemma scan_articles_undated (c : Z) (a : article) (rest : list article) :
  undated a -> scan_articles c (a :: rest) = scan_articles c rest.
Proof.
  intros (d & -> & H). rewrite scan_articles_cons_dict. unfold field.
  destruct H as [-> | [-> | ->]]; reflexivity.
Qed.

Lemma scan_articles_old (c t : Z) (d : gmap string jval) (rest : list article) :
  d !! "datetime" = Some (JNum t) -> t <= c ->
  scan_articles c (ArtDict d :: rest) = scan_articles c rest.
Proof.
  intros Hd Hle. rewrite scan_articles_cons_dict. unfold field. rewrite Hd. simpl.
  assert ((c <? t) = false) as -> by lia. destruct (t =? 0); reflexivity.
Qed.

Lemma scan_articles_hit (c t : Z) (d : gmap string jval) (rest : list article) :
  d !! "datetime" = Some (JNum t) -> c < t -> t <> 0 ->
  scan_articles c (ArtDict d :: rest) = Ok (true, article_url d).
Proof.
  intros Hd Hlt Hnz. rewrite scan_articles_cons_dict. unfold field. rewrite Hd. simpl.
  assert ((t =? 0) = false) as -> by lia. simpl.
  assert ((c <? t) = true) as -> by lia. reflexivity.
Qed.

(** A negative outcome of the scan never carries a URL. *)
Lemma scan_articles_negative (c : Z) (articles : list article) (u : jval) :
  scan_articles c articles = Ok (false, u) -> u = JStr "".
Proof.
  induction articles as [|a rest IH]; simpl.
  - intros [= <-]. reflexivity.
  - destruct a as [d|]; simpl; [|discriminate].
    destruct (if truthy (default JNull (d !! "datetime"))
              then py_gt (default JNull (d !! "datetime")) c else Ok false)
      as [[|]|exc]; simpl; [discriminate | exact IH | discriminate].
Qed.

Lemma news_of_negative (cutoff : datetime) (articles : list article) :
  fst (news_of cutoff articles) = false -> news_of cutoff articles = no_news.
Proof.
  unfold news_of.
  destruct (scan_articles (int_timestamp cutoff) articles) as [[b u]|exc] eqn:E;
    [|reflexivity].
  simpl. intros ->. apply scan_articles_negative in E. subst. reflexivity.
Qed.

(** Whole seconds against microseconds, for a cutoff not before the epoch. *)
Lemma int_timestamp_lt (cutoff : datetime) (t : Z) :
  0 <= instant cutoff ->
  (int_timestamp cutoff < t <-> instant cutoff < t * us_per_second).
Proof.
  intros H0. unfold int_timestamp, us_per_second in *.
  rewrite Z.quot_div_nonneg by lia.
  pose proof (Z.div_mod (instant cutoff) 1000000 ltac:(lia)) as Hdm.
  pose proof (Z.mod_pos_bound (instant cutoff) 1000000 ltac:(lia)) as Hb.
  lia.
Qed.

(** ** One news check *)

Lemma datetime_now_utc_run (e : env) (w : world) :
  datetime_now e utc w = (Ok (utc_now e w), tick w).
Proof. unfold datetime_now, utc_now, utc. rewrite Z.add_0_r. reflexivity. Qed.

Lemma check_no_client (e : env) (ticker : string) (cutoff : datetime) (w : world) :
  check_for_news_finnhub e ticker cutoff None w = (Ok no_news, w).
Proof. reflexivity. Qed.

Lemma check_empty_symbol (e : env) (ticker : string) (cutoff : datetime)
    (client : option finnhub_client) (w : world) :
  str_nonempty (_normalize_ticker_for_finnhub ticker) = false ->
  check_for_news_finnhub e ticker cutoff client w = (Ok no_news, w).
Proof.
  intros H. unfold check_for_news_finnhub. destruct client; [|reflexivity].
  rewrite H. reflexivity.
Qed.

(** With a client and a symbol, the check puts exactly one query to the
    provider and reduces the answer with [news_of]. *)
Lemma check_with_client (e : env) (ticker : string) (cutoff : datetime)
    (client : finnhub_client) (w : world) :
  str_nonempty (_normalize_ticker_for_finnhub ticker) = true ->
  check_for_news_finnhub e ticker cutoff (Some client) w =
  (Ok match company_news client (_normalize_ticker_for_finnhub ticker)
                         (date_isoformat cutoff) (date_isoformat (utc_now e w)) with
      | Ok articles => news_of cutoff articles
      | Raise _ => no_news
      end,
   asked (tick w) (_normalize_ticker_for_finnhub ticker,
                   date_isoformat cutoff, date_isoformat (utc_now e w))).
Proof.
  intros H. unfold check_for_news_finnhub. rewrite H.
  unfold try_except, bind at 1. rewrite datetime_now_utc_run.
  unfold bind, call_company_news. simpl.
  fold (asked (tick w) (_normalize_ticker_for_finnhub ticker, date_isoformat cutoff,
                        date_isoformat (utc_now e w))).
  destruct (company_news client _ _ _) as [articles|exc]; [|reflexivity].
  destruct articles as [|a rest]; [reflexivity|].
  unfold lift, news_of.
  destruct (scan_articles (int_timestamp cutoff) (a :: rest)) as [r|exc]; reflexivity.
Qed.

Lemma scan_articles_first_after (c : Z) (pre post : list article) (d : gmap string jval) (t : Z) :
  Forall (passed_over c) pre ->
  d !! "datetime" = Some (JNum t) -> c < t -> t <> 0 ->
  scan_articles c (pre ++ ArtDict d :: post)%list = Ok (true, article_url d).
Proof.
  intros Hpre Hd Hlt Hnz. induction Hpre as [|a pre Ha _ IH].
  - simpl app. eapply scan_articles_hit; eassumption.
  - rewrite <- app_comm_cons.
    destruct Ha as [Ha | (d' & t' & -> & Hd' & Hle)].
    + rewrite scan_articles_undated by exact Ha. exact IH.
    + rewrite (scan_articles_old c t' d') by assumption. exact IH.
Qed.

(** A well-formed article that is not after the cutoff is passed over. *)
Lemma not_after_passed_over (cutoff : datetime) (a : article) :
  0 <= instant cutoff -> well_formed a -> ~ is_after cutoff a ->
  passed_over (int_timestamp cutoff) a.
Proof.
  unfold passed_over.
  intros H0 (d & -> & Hd) Hn.
  destruct Hd as [Hd | [Hd | [t Hd]]].
  - left. exists d. auto.
  - left. exists d. auto.
  - right. exists d, t. repeat split; try assumption.
    destruct (Z_lt_le_dec (int_timestamp cutoff) t) as [Hlt|Hle]; [|exact Hle].
    exfalso. apply Hn. exists t. simpl. rewrite Hd.
    split; [reflexivity|]. apply int_timestamp_lt; assumption.
Qed.




(** ** Provider queries of a run *)

Lemma queries_extend_refl P (w : world) : queries_extend P w w.
Proof. exists []. split; [symmetry; apply app_nil_r | constructor]. Qed.

Lemma queries_extend_trans P (a b c : world) :
  queries_extend P a b -> queries_extend P b c -> queries_extend P a c.
Proof.
  intros (q1 & E1 & F1) (q2 & E2 & F2). exists (q1 ++ q2)%list. split.
  - rewrite E2, E1, app_assoc. reflexivity.
  - apply Forall_app. auto.
Qed.

Lemma queries_kept P {A} (m : M A) :
  (forall w, queries (snd (m w)) = queries w) -> steps (queries_extend P) m.
Proof.
  intros H w. exists []. split; [rewrite H, app_nil_r; reflexivity | constructor].
Qed.

Lemma steps_log P (l : level) (m : message) : steps (queries_extend P) (log l m).
Proof. apply queries_kept. intros w. unfold log. simpl. destruct (_ <=? _); reflexivity. Qed.

Lemma steps_check_no_client P (e : env) (ticker : string) (cutoff : datetime) :
  steps (queries_extend P) (check_for_news_finnhub e ticker cutoff None).
Proof. apply queries_kept. reflexivity. Qed.


Ltac steps_tac P :=
  repeat first
    [ apply (steps_bind _ (queries_extend_trans P)); [|intros ?]
    | apply (steps_try_except _ (queries_extend_trans P)); [|intros ?]
    | apply (steps_ret _ (queries_extend_refl P))
    | apply (steps_lift _ (queries_extend_refl P))
    | apply steps_log
    | apply queries_kept; reflexivity ].

Lemma steps_report P (e : env) (filtered_df : list frow) :
  steps (queries_extend P) (report e filtered_df).
Proof. unfold report, render_table. steps_tac P. Qed.

Lemma steps_screen P (e : env) (cookies : gmap string (option string))
    (cutoff : datetime) (client : option finnhub_client) :
  (forall ticker, steps (queries_extend P) (check_for_news_finnhub e ticker cutoff client)) ->
  steps (queries_extend P) (screen e cookies cutoff client).
Proof.
  intros Hcheck. unfold screen.
  apply (steps_bind _ (queries_extend_trans P));
    [steps_tac P|]. intros [total df].
  apply (steps_bind _ (queries_extend_trans P));
    [steps_tac P|]. intros _.
  destruct df as [|r df]; [steps_tac P|].
  apply (steps_bind _ (queries_extend_trans P));
    [steps_tac P|]. intros _.
  destruct (candidates _) as [|c l]; [steps_tac P|].
  apply (steps_bind _ (queries_extend_trans P));
    [steps_tac P|]. intros _.
  apply (steps_bind _ (queries_extend_trans P)).
  - unfold news_stage.
    apply (steps_mapM _ (queries_extend_refl P) (queries_extend_trans P)).
    intros x. apply Hcheck.
  - intros news_list.
    apply (steps_bind _ (queries_extend_trans P));
      [steps_tac P|]. intros rows. apply steps_report.
Qed.

Lemma main_queries P (e : env) (w : world) :
  (forall ticker,
      steps (queries_extend P)
            (check_for_news_finnhub e ticker (run_cutoff e w) (client_of e))) ->
  queries_extend P w (snd (main e w)).
Proof.
  intros Hcheck. rewrite main_run.
  pose proof (steps_try_except _ (queries_extend_trans P)
                (screen e (cookie_jar e) (run_cutoff e w) (client_of e))
                (fun exc => log ERROR (MsgQueryError exc))
                (steps_screen P e _ _ _ Hcheck)
                (fun exc => steps_log P ERROR (MsgQueryError exc))
                (prelude e w)) as (qs & E & F).
  exists qs. split; [exact E | exact F].
Qed.

(** ** The news stage *)

Lemma news_stage_no_client (e : env) (filtered_df : list cand) (cutoff : datetime) (w : world) :
  news_stage e filtered_df cutoff None w = (Ok (map (fun _ => no_news) filtered_df), w).
Proof.
  unfold news_stage. revert w. induction filtered_df as [|c l IH]; intros w; [reflexivity|].
  cbn [mapM map]. unfold bind at 1. rewrite check_no_client.
  unfold bind at 1. rewrite IH. reflexivity.
Qed.

Lemma check_total (e : env) (ticker : string) (cutoff : datetime)
    (client : option finnhub_client) (w : world) :
  exists r, fst (check_for_news_finnhub e ticker cutoff client w) = Ok r.
Proof.
  destruct client as [client|]; [|eexists; reflexivity].
  destruct (str_nonempty (_normalize_ticker_for_finnhub ticker)) eqn:E.
  - rewrite check_with_client by exact E. eexists. reflexivity.
  - rewrite check_empty_symbol by exact E. eexists. reflexivity.
Qed.

Lemma news_stage_total (e : env) (filtered_df : list cand) (cutoff : datetime)
    (client : option finnhub_client) (w : world) :
  exists news_list,
    fst (news_stage e filtered_df cutoff client w) = Ok news_list
    /\ length news_list = length filtered_df.
Proof.
  unfold news_stage. revert w. induction filtered_df as [|c l IH]; intros w.
  - exists []. split; reflexivity.
  - simpl. unfold bind at 1.
    destruct (check_total e (name (base c)) cutoff client w) as [r Hr].
    destruct (check_for_news_finnhub e (name (base c)) cutoff client w) as [r' w1].
    simpl in Hr. subst r'.
    unfold bind at 1. destruct (IH w1) as (ys & Hys & Hlen).
    destruct (mapM _ l w1) as [r' w2]. simpl in Hys. subst r'.
    exists (r :: ys). split; [reflexivity | simpl; congruence].
Qed.

Lemma scan_articles_none_after (c : Z) (articles : list article) :
  Forall (passed_over c) articles -> scan_articles c articles = Ok no_news.
Proof.
  induction 1 as [|a l Ha _ IH]; [reflexivity|].
  destruct Ha as [Ha | (d & t & -> & Hd & Hle)].
  - rewrite scan_articles_undated by exact Ha. exact IH.
  - rewrite (scan_articles_old c t d) by assumption. exact IH.
Qed.

Lemma client_unavailable_None (e : env) : client_unavailable e -> client_of e = None.
Proof.
  unfold client_of. intros [-> | [-> | (k & exc & -> & Hk)]]; try reflexivity.
  destruct k; [reflexivity|]. rewrite Hk. reflexivity.
Qed.

(** C4. A news check returns one pair and never an exception, and the pair
    is [(false, "")] unless the scan of the provider's answer found an
    article; in particular it is [(false, "")], with no query put to the
    provider, when there is no client or the normalized symbol is empty, and
    it is [(false, "")] when the provider raises, answers with nothing,
    answers with articles none of which is after the cutoff, or the scan of
    the answer raises.  The news stage gives every candidate one pair, and
    when the client is unavailable [main] runs the pipeline without a
    client, so every pair is [(false, "")], and the run puts no query to the
    provider. *)
Theorem C4_news_check_never_raises :
  (forall e ticker cutoff client w,
      exists r, fst (check_for_news_finnhub e ticker cutoff client w) = Ok r
        /\ (r = no_news
            \/ exists cl articles u,
                client = Some cl
                /\ company_news cl (_normalize_ticker_for_finnhub ticker)
                     (date_isoformat cutoff) (date_isoformat (utc_now e w)) = Ok articles
                /\ scan_articles (int_timestamp cutoff) articles = Ok (true, u)
                /\ r = (true, u)))
  /\ (forall e ticker cutoff w,
        check_for_news_finnhub e ticker cutoff None w = (Ok no_news, w))
  /\ (forall e ticker cutoff client w,
        str_nonempty (_normalize_ticker_for_finnhub ticker) = false ->
        check_for_news_finnhub e ticker cutoff client w = (Ok no_news, w))
  /\ (forall e ticker cutoff cl w,
        let answer := company_news cl (_normalize_ticker_for_finnhub ticker)
                        (date_isoformat cutoff) (date_isoformat (utc_now e w)) in
        answer = Ok []
        \/ (exists exc, answer = Raise exc)
        \/ (exists articles exc,
              answer = Ok articles
              /\ scan_articles (int_timestamp cutoff) articles = Raise exc)
        \/ (exists articles,
              answer = Ok articles /\ 0 <= instant cutoff
              /\ Forall (fun a => well_formed a /\ ~ is_after cutoff a) articles) ->
        fst (check_for_news_finnhub e ticker cutoff (Some cl) w) = Ok no_news)
  /\ (forall e filtered_df cutoff client w,
        exists news_list,
          fst (news_stage e filtered_df cutoff client w) = Ok news_list
          /\ length news_list = length filtered_df)
  /\ (forall e filtered_df cutoff w,
        news_stage e filtered_df cutoff None w
        = (Ok (map (fun _ => no_news) filtered_df), w))
  /\ (forall e w, client_unavailable e ->
        main e w
        = try_except (screen e (cookie_jar e) (run_cutoff e w) None)
                     (fun exc => log ERROR (MsgQueryError exc))
                     (prelude e w)
        /\ queries (snd (main e w)) = queries w).
Proof.
  split; [|split; [|split; [|split; [|split; [|split]]]]].
  - intros e ticker cutoff client w.
    destruct client as [cl|]; [|exists no_news; split; [reflexivity | left; reflexivity]].
    destruct (str_nonempty (_normalize_ticker_for_finnhub ticker)) eqn:E.
    + rewrite check_with_client by exact E. simpl.
      destruct (company_news cl _ _ _) as [articles|exc] eqn:Hans;
        [|exists no_news; split; [reflexivity | left; reflexivity]].
      exists (news_of cutoff articles). split; [reflexivity|].
      destruct (news_of cutoff articles) as [b u] eqn:Hn.
      destruct b.
      * right. exists cl, articles, u. repeat split; try reflexivity; [exact Hans|].
        unfold news_of in Hn.
        destruct (scan_articles (int_timestamp cutoff) articles) as [r|exc];
          [congruence | discriminate].
      * left. rewrite <- Hn. apply news_of_negative. rewrite Hn. reflexivity.
    + rewrite check_empty_symbol by exact E.
      exists no_news. split; [reflexivity | left; reflexivity].
  - intros. reflexivity.
  - intros e ticker cutoff client w H. apply check_empty_symbol. exact H.
  - intros e ticker cutoff cl w answer H.
    destruct (str_nonempty (_normalize_ticker_for_finnhub ticker)) eqn:E;
      [|rewrite check_empty_symbol by exact E; reflexivity].
    rewrite check_with_client by exact E. simpl. fold answer.
    destruct H as [-> | [(exc & ->) | [(articles & exc & -> & Hs) | (articles & -> & H0 & Hall)]]].
    + reflexivity.
    + reflexivity.
    + unfold news_of. rewrite Hs. reflexivity.
    + unfold news_of. rewrite scan_articles_none_after; [reflexivity|].
      eapply Forall_impl; [exact Hall|]. intros a [Hwf Hna].
      apply not_after_passed_over; assumption.
  - intros. apply news_stage_total.
  - intros. apply news_stage_no_client.
  - intros e w Hun. pose proof (client_unavailable_None e Hun) as Hnone.
    split; [rewrite main_run, Hnone; reflexivity|].
    destruct (main_queries (fun _ => False) e w) as (qs & E & F).
    + intros ticker. rewrite Hnone. apply steps_check_no_client.
    + destruct F as [|q qs' []]. rewrite E. apply app_nil_r.
Qed.

(** The run without an API key puts no query to the news provider, and each
    of its two candidates is reported without news. *)
Lemma C4_witness :
  queries (snd (main no_key_env world0)) = []
  /\ fst (check_for_news_finnhub no_key_env "NASDAQ:AAA" cutoff_0900 None world0) = Ok no_news.
Proof.
  destruct C4_news_check_never_raises as (_ & Hnone & _ & _ & _ & _ & Hmain).
  split.
  - apply (Hmain no_key_env world0). left. reflexivity.
  - rewrite (Hnone no_key_env "NASDAQ:AAA" cutoff_0900 world0). reflexivity.
Defined.

(** ** The cutoff of a run *)


(** ** Articles without a URL *)

Lemma string_app_cons (x : ascii) (a b : string) : String x a ++ b = String x (a ++ b).
Proof. reflexivity. Qed.

Lemma string_app_assoc (a b c : string) : (a ++ b) ++ c = a ++ (b ++ c).
Proof.
  induction a as [|x a IH]; [reflexivity|].
  rewrite !string_app_cons, IH. reflexivity.
Qed.

Lemma string_app_nil_r (a : string) : a ++ "" = a.
Proof.
  induction a as [|x a IH]; [reflexivity|].
  rewrite string_app_cons, IH. reflexivity.
Qed.

Lemma links_fold (acc : string) (l : list frow) :
  foldl (fun acc r => if truthy (News_URL r) then acc ++ article_link r else acc) acc l
  = acc ++ join (map article_link (List.filter has_url l)).
Proof.
  revert acc. induction l as [|r l IH]; intros acc; simpl.
  - symmetry. apply string_app_nil_r.
  - rewrite IH. unfold has_url. destruct (truthy (News_URL r)); [|reflexivity].
    simpl. apply string_app_assoc.
Qed.

(** The link export: the rows of the first ten of [filtered_df] that have a
    URL, in the order of [filtered_df]. *)
Lemma links_md_spec (filtered_df : list frow) :
  links_md filtered_df
  = links_header ++ join (map article_link (List.filter has_url (take 10 filtered_df))).
Proof. apply links_fold. Qed.

(** C10. When the first article after the cutoff has no ["url"] and no
    ["news_url"], the scan answers [true] with the empty URL; an article
    without a timestamp, or with timestamp zero, is passed over whatever the
    cutoff.  The link export has a line exactly for the rows with a URL
    among the first ten of [filtered_df], so a row whose URL is empty has
    none, while its news flag goes to the table unchanged: the run on
    [bare_env] reports its one candidate with the flag [True] and writes no
    link. *)
Theorem C10_news_flag_without_url :
  (forall c pre post d t,
      Forall (passed_over c) pre ->
      d !! "datetime" = Some (JNum t) -> c < t -> t <> 0 ->
      d !! "url" = None -> d !! "news_url" = None ->
      scan_articles c (pre ++ ArtDict d :: post)%list = Ok (true, JStr ""))
  /\ (forall c a rest, undated a -> scan_articles c (a :: rest) = scan_articles c rest)
  /\ (forall filtered_df,
        links_md filtered_df
        = links_header
            ++ join (map article_link (List.filter has_url (take 10 filtered_df)))
        /\ forall r, News_URL r = JStr "" ->
                     (r ∉ List.filter has_url (take 10 filtered_df))
                     /\ d_Makes_News (select_final_columns r) = Makes_News r)
  /\ (exists frows table md,
        fst (check_for_news_finnhub bare_env "NASDAQ:AAA" (run_cutoff bare_env world0)
                                    (client_of bare_env) world0) = Ok (true, JStr "")
        /\ result_rows (candidates [mover "NASDAQ:AAA" 25]) [(true, JStr "")] = Ok frows
        /\ display_table frows = Ok table
        /\ map (fun d => (d_Ticker d, d_Makes_News d)) table = [("NASDAQ:AAA", true)]
        /\ links_md frows = links_header
        /\ to_markdown bare_env (take 10 table) = Ok md
        /\ files (snd (main bare_env world0))
           = [("2024-01-11 screener wt.md",
               "# Screener Results" ++ nl ++ nl ++ md ++ nl ++ nl ++ links_header)]).
Proof.
  split; [|split; [|split]].
  - intros c pre post d t Hpre Hd Hlt Hnz Hu Hn.
    rewrite (scan_articles_first_after c pre post d t) by assumption.
    unfold article_url, field. rewrite Hu, Hn. reflexivity.
  - intros c a rest Ha. apply scan_articles_undated. exact Ha.
  - intros filtered_df. split; [apply links_md_spec|].
    intros r Hr. split; [|reflexivity].
    rewrite list_elem_of_In, filter_In. unfold has_url. rewrite Hr.
    intros [_ H]. discriminate.
  - eexists _, _, _.
    split; [vm_compute; reflexivity|].
    split; [vm_compute; reflexivity|].
    split; [vm_compute; reflexivity|].
    split; [vm_compute; reflexivity|].
    split; [vm_compute; reflexivity|].
    split; [vm_compute; reflexivity|].
    vm_compute. reflexivity.
Qed.

(** The last article of this answer is recent and bare; the two before it
    are passed over. *)
Lemma C10_witness :
  scan_articles 1704877200
    [ArtDict ∅; dated_article (utc_datetime 2024 1 10 8 0 0) "A"; bare_article]
  = Ok (true, JStr "")
  /\ scan_articles 1704877200 [ArtDict (<["datetime" := JNum 0]> ∅); ArtDict dict_B]
     = scan_articles 1704877200 [ArtDict dict_B].
Proof.
  destruct C10_news_flag_without_url as (Hbare & Hskip & _).
  split.
  - apply (Hbare 1704877200
             [ArtDict ∅; dated_article (utc_datetime 2024 1 10 8 0 0) "A"] []
             (<["datetime" := JNum (int_timestamp (utc_datetime 2024 1 11 8 0 0))]> ∅)
             1704960000).
    + constructor; [|constructor; [|constructor]].
      * left. exists ∅. split; [reflexivity | left; reflexivity].
      * right. eexists _, 1704873600. split; [reflexivity|].
        split; [reflexivity | vm_compute; discriminate].
    + reflexivity.
    + reflexivity.
    + discriminate.
    + reflexivity.
    + reflexivity.
  - apply Hskip. eexists. split; [reflexivity|]. right. right. reflexivity.
Defined.

(** ** Decimal digits *)

Lemma is_digit_digit_char (d : Z) : d <= 9 -> is_digit (digit_char d) = true.
Proof.
  intros H. unfold is_digit, digit_value, digit_char.
  rewrite N_ascii_embedding by lia.
  assert (Z.of_N (48 + Z.to_N d) = 48 + Z.of_N (Z.to_N d)) as -> by lia.
  destruct ((48 <=? 48 + Z.of_N (Z.to_N d)) && (48 + Z.of_N (Z.to_N d) <=? 57)) eqn:E;
    [reflexivity|].
  apply andb_false_iff in E. destruct E as [E|E]; apply Z.leb_gt in E; lia.
Qed.

Lemma digit_value_digit_char (d : Z) : 0 <= d <= 9 -> digit_value (digit_char d) = Some d.
Proof.
  intros H. unfold digit_value, digit_char.
  rewrite N_ascii_embedding by lia.
  assert (Z.of_N (48 + Z.to_N d) = 48 + d) as -> by lia.
  destruct ((48 <=? 48 + d) && (48 + d <=? 57)) eqn:E.
  - f_equal. lia.
  - apply andb_false_iff in E. destruct E as [E|E]; apply Z.leb_gt in E; lia.
Qed.

Lemma dec_digits_all_digits (fuel : nat) (n : Z) :
  forallb is_digit (dec_digits fuel n) = true.
Proof.
  revert n. induction fuel as [|fuel IH]; intros n; [reflexivity|].
  simpl. destruct (n <? 10) eqn:E.
  - simpl. rewrite is_digit_digit_char by lia. reflexivity.
  - rewrite forallb_app, IH. simpl.
    pose proof (Z.mod_pos_bound n 10 ltac:(lia)).
    rewrite is_digit_digit_char by lia. reflexivity.
Qed.

Lemma dec_digits_length_pos (fuel : nat) (n : Z) :
  (1 <= length (dec_digits (S fuel) n))%nat.
Proof.
  simpl. destruct (n <? 10); [simpl; lia|].
  rewrite length_app. simpl. lia.
Qed.

(** A number below [10 ^ k] has at most [k] digits. *)
Lemma dec_digits_length_le (fuel : nat) (n : Z) (k : nat) :
  (1 <= k)%nat -> n < 10 ^ Z.of_nat k -> (length (dec_digits fuel n) <= k)%nat.
Proof.
  revert n k. induction fuel as [|fuel IH]; intros n k Hk Hn; [simpl; lia|].
  simpl. destruct (n <? 10) eqn:E; [simpl; lia|].
  rewrite length_app. simpl.
  destruct k as [|[|k]]; [lia | simpl in Hn; lia |].
  assert (length (dec_digits fuel (n / 10)) <= S k)%nat; [|lia].
  apply IH; [lia|].
  apply Z.div_lt_upper_bound; [lia|].
  replace (Z.of_nat (S (S k))) with (Z.succ (Z.of_nat (S k))) in Hn by lia.
  rewrite Z.pow_succ_r in Hn by lia. exact Hn.
Qed.

Lemma digits_value_app (acc : Z) (l1 l2 : list ascii) :
  digits_value acc (l1 ++ l2)
  = match digits_value acc l1 with
    | Some a => digits_value a l2
    | None => None
    end.
Proof.
  revert acc. induction l1 as [|c l1 IH]; intros acc; simpl; [reflexivity|].
  destruct (digit_value c); [apply IH | reflexivity].
Qed.

(** With enough fuel the digits of [n] denote [n]. *)
Lemma digits_value_dec_digits (fuel : nat) (n acc : Z) :
  0 <= n -> Z.log2 n < Z.of_nat fuel ->
  digits_value acc (dec_digits fuel n)
  = Some (acc * 10 ^ Z.of_nat (length (dec_digits fuel n)) + n).
Proof.
  revert n acc. induction fuel as [|fuel IH]; intros n acc Hn Hf.
  - pose proof (Z.log2_nonneg n). lia.
  - simpl dec_digits. destruct (n <? 10) eqn:E.
    + simpl. rewrite digit_value_digit_char by lia. f_equal. lia.
    + assert (0 <= n / 10) by (apply Z.div_pos; lia).
      assert (Z.log2 (n / 10) < Z.of_nat fuel).
      { assert (n / 10 <= n / 2) by (apply Z.div_le_compat_l; lia).
        pose proof (Z.log2_le_mono _ _ H0).
        assert (Z.log2 (n / 2) = Z.log2 n - 1).
        { rewrite <- Z.div2_div, Z.div2_spec, Z.log2_shiftr by lia.
          pose proof (Z.log2_pos n ltac:(lia)). lia. }
        lia. }
      rewrite digits_value_app, IH by assumption. simpl.
      pose proof (Z.mod_pos_bound n 10 ltac:(lia)).
      rewrite digit_value_digit_char by lia. f_equal.
      rewrite length_app. simpl length.
      replace (Z.of_nat (length (dec_digits fuel (n / 10)) + 1))
        with (Z.succ (Z.of_nat (length (dec_digits fuel (n / 10))))) by lia.
      rewrite Z.pow_succ_r by lia.
      pose proof (Z.div_mod n 10 ltac:(lia)). lia.
Qed.

Lemma digits_value_zeros (k : nat) (acc : Z) (l : list ascii) :
  digits_value acc (repeat "0"%char k ++ l) = digits_value (acc * 10 ^ Z.of_nat k) l.
Proof.
  revert acc. induction k as [|k IH]; intros acc.
  - simpl. f_equal. lia.
  - cbn [repeat app digits_value].
    change (digit_value "0") with (Some 0). cbv beta iota. rewrite IH. f_equal.
    replace (Z.of_nat (S k)) with (Z.succ (Z.of_nat k)) by lia.
    rewrite Z.pow_succ_r by lia. lia.
Qed.

(** ** Strings as lists of characters *)

Lemma chars_app (a b : string) :
  list_ascii_of_string (a ++ b) = (list_ascii_of_string a ++ list_ascii_of_string b)%list.
Proof.
  induction a as [|x a IH]; [reflexivity|].
  rewrite string_app_cons. simpl. rewrite IH. reflexivity.
Qed.

Lemma string_of_chars_app (l1 l2 : list ascii) :
  string_of_list_ascii (l1 ++ l2) = string_of_list_ascii l1 ++ string_of_list_ascii l2.
Proof.
  induction l1 as [|x l1 IH]; [reflexivity|].
  simpl. rewrite string_app_cons, IH. reflexivity.
Qed.

Lemma string_length_chars (s : string) : String.length s = length (list_ascii_of_string s).
Proof. induction s as [|x s IH]; simpl; [reflexivity | rewrite IH; reflexivity]. Qed.

Lemma chars_of_string_of_chars (l : list ascii) :
  list_ascii_of_string (string_of_list_ascii l) = l.
Proof. apply list_ascii_of_string_of_list_ascii. Qed.

Lemma is_digit_not_dot (c : ascii) : is_digit c = true -> Ascii.eqb c "." = false.
Proof.
  intros H. destruct (Ascii.eqb_spec c "."%char) as [->|]; [discriminate | reflexivity].
Qed.

Lemma is_digit_not_comma (c : ascii) : is_digit c = true -> Ascii.eqb c "," = false.
Proof.
  intros H. destruct (Ascii.eqb_spec c ","%char) as [->|]; [discriminate | reflexivity].
Qed.

Lemma is_digit_not_minus (c : ascii) : is_digit c = true -> Ascii.eqb c "-" = false.
Proof.
  intros H. destruct (Ascii.eqb_spec c "-"%char) as [->|]; [discriminate | reflexivity].
Qed.

Lemma is_digit_not_plus (c : ascii) : is_digit c = true -> Ascii.eqb c "+" = false.
Proof.
  intros H. destruct (Ascii.eqb_spec c "+"%char) as [->|]; [discriminate | reflexivity].
Qed.

(** ** Splitting at the decimal point *)

Lemma break_at_app (a b : string) :
  forallb (fun c => negb (Ascii.eqb c ".")) (list_ascii_of_string a) = true ->
  break_at "." (a ++ String "." b) = (a, Some b).
Proof.
  induction a as [|x a IH]; intros H.
  - reflexivity.
  - simpl in H. apply andb_true_iff in H as [Hx Ha].
    rewrite string_app_cons. simpl.
    apply negb_true_iff in Hx. rewrite Hx, (IH Ha). reflexivity.
Qed.

Lemma break_at_none (a : string) :
  forallb (fun c => negb (Ascii.eqb c ".")) (list_ascii_of_string a) = true ->
  break_at "." a = (a, None).
Proof.
  induction a as [|x a IH]; intros H.
  - reflexivity.
  - simpl in H. apply andb_true_iff in H as [Hx Ha]. simpl.
    apply negb_true_iff in Hx. rewrite Hx, (IH Ha). reflexivity.
Qed.

Lemma digits_dotless (l : list ascii) :
  forallb is_digit l = true -> forallb (fun c => negb (Ascii.eqb c ".")) l = true.
Proof.
  induction l as [|c l IH]; simpl; [reflexivity|].
  intros H. apply andb_true_iff in H as [Hc Hl].
  rewrite (is_digit_not_dot c Hc), (IH Hl). reflexivity.
Qed.

(** ** Thousands grouping *)

Lemma mod3_succ (n : nat) :
  (S n mod 3 = match n mod 3 with 0 => 1 | 1 => 2 | _ => 0 end)%nat.
Proof.
  pose proof (Nat.div_mod_eq n 3) as E.
  pose proof (Nat.mod_upper_bound n 3 ltac:(lia)) as B.
  destruct (n mod 3)%nat as [|[|[|r]]] eqn:R; try lia; symmetry.
  - apply (Nat.mod_unique (S n) 3 (n / 3)); lia.
  - apply (Nat.mod_unique (S n) 3 (n / 3)); lia.
  - apply (Nat.mod_unique (S n) 3 (S (n / 3))); lia.
Qed.

Lemma group_digits_dotless (l : list ascii) :
  forallb is_digit l = true ->
  forallb (fun c => negb (Ascii.eqb c ".")) (group_digits l) = true.
Proof.
  induction l as [|c l IH]; simpl; [reflexivity|].
  intros H. apply andb_true_iff in H as [Hc Hl].
  destruct (_ && _); simpl; rewrite (is_digit_not_dot c Hc), (IH Hl); reflexivity.
Qed.


Lemma leading_succ (n : nat) :
  leading (S n)
  = if Nat.eqb (n mod 3) 0 && negb (Nat.eqb n 0) then 1%nat else S (leading n).
Proof.
  unfold leading. rewrite mod3_succ.
  pose proof (Nat.mod_upper_bound n 3 ltac:(lia)) as B.
  destruct n as [|n]; [reflexivity|].
  destruct (S n mod 3)%nat as [|[|[|r]]]; simpl; try reflexivity. lia.
Qed.

Lemma leading_bounds (n : nat) : (1 <= n -> 1 <= leading n <= 3)%nat.
Proof.
  intros H. unfold leading. destruct n as [|n]; [lia|].
  pose proof (Nat.mod_upper_bound (S n) 3 ltac:(lia)) as B.
  destruct (S n mod 3)%nat; lia.
Qed.

Lemma leading_three (n : nat) : (n mod 3 = 0 -> n <> 0 -> leading n = 3)%nat.
Proof. intros H H0. unfold leading. destruct n; [lia|]. rewrite H. reflexivity. Qed.

Lemma py_split_group_digits (l : list ascii) :
  forallb is_digit l = true ->
  exists first groups,
    py_split "," (string_of_list_ascii (group_digits l)) = first :: groups
    /\ all_digits first = true
    /\ String.length first = leading (length l)
    /\ forallb (fun g => all_digits g && Nat.eqb (String.length g) 3) groups = true.
Proof.
  induction l as [|c l IH]; intros H.
  - exists "", []. repeat split.
  - simpl in H. apply andb_true_iff in H as [Hc Hl].
    destruct (IH Hl) as (first & groups & Hsplit & Hd & Hlen & Hgroups).
    cbn [length]. rewrite leading_succ. cbn [group_digits].
    destruct (Nat.eqb (length l mod 3) 0 && negb (Nat.eqb (length l) 0)) eqn:E.
    + apply andb_true_iff in E as [E1 E2].
      apply Nat.eqb_eq in E1. apply negb_true_iff, Nat.eqb_neq in E2.
      exists (String c ""), (first :: groups).
      cbn [string_of_list_ascii py_split].
      rewrite (is_digit_not_comma c Hc). change (Ascii.eqb "," ",") with true.
      cbv iota. rewrite Hsplit. repeat split.
      * unfold all_digits. simpl. rewrite Hc. reflexivity.
      * cbn [forallb]. rewrite Hd, Hgroups, Hlen, (leading_three _ E1 E2). reflexivity.
    + exists (String c first), groups.
      cbn [string_of_list_ascii py_split].
      rewrite (is_digit_not_comma c Hc), Hsplit. repeat split.
      * unfold all_digits in *. simpl. rewrite Hc, Hd. reflexivity.
      * simpl. rewrite Hlen. reflexivity.
      * exact Hgroups.
Qed.

Lemma thousands_separated_group3 (l : list ascii) :
  forallb is_digit l = true -> (1 <= length l)%nat ->
  thousands_separated (string_of_list_ascii (group_digits l)) = true.
Proof.
  intros Hd Hlen. unfold thousands_separated.
  destruct (py_split_group_digits l Hd) as (first & groups & -> & Hf & Hl & Hg).
  pose proof (leading_bounds (length l) Hlen) as [B1 B2].
  rewrite Hf, Hg, Hl.
  rewrite (proj2 (Nat.leb_le _ _) B1), (proj2 (Nat.leb_le _ _) B2). reflexivity.
Qed.

(** ** The shape of a formatted number *)

Lemma dec_chars (z : Z) :
  exists c l,
    list_ascii_of_string (dec z) = c :: l
    /\ forallb is_digit (c :: l) = true.
Proof.
  unfold dec. rewrite chars_of_string_of_chars.
  pose proof (dec_digits_all_digits (S (Z.to_nat (Z.log2 z))) z) as Hd.
  pose proof (dec_digits_length_pos (Z.to_nat (Z.log2 z)) z) as Hl.
  destruct (dec_digits (S (Z.to_nat (Z.log2 z))) z) as [|c l]; [simpl in Hl; lia|].
  exists c, l. split; [reflexivity | exact Hd].
Qed.

Lemma string_of_chars_of_string (s : string) :
  string_of_list_ascii (list_ascii_of_string s) = s.
Proof. apply string_of_list_ascii_of_string. Qed.

(** The integer part of a formatted number starts with a digit, holds no
    point, and is grouped when grouping is asked for. *)
Lemma int_part_shape (grouping : bool) (z : Z) :
  let ip := if grouping then group3 (dec z) else dec z in
  exists c rest,
    ip = String c rest
    /\ is_digit c = true
    /\ forallb (fun c => negb (Ascii.eqb c ".")) (list_ascii_of_string ip) = true
    /\ (if grouping then thousands_separated ip else plain_integer ip) = true.
Proof.
  destruct (dec_chars z) as (c & l & Hchars & Hd).
  pose proof Hd as Hd'. simpl in Hd'. apply andb_true_iff in Hd' as [Hc Hl].
  destruct grouping; cbv zeta.
  - unfold group3. rewrite Hchars.
    assert (exists rest, string_of_list_ascii (group_digits (c :: l)) = String c rest)
      as [rest Hrest].
    { cbn [group_digits]. destruct (_ && _); eexists; reflexivity. }
    exists c, rest. split; [exact Hrest|]. split; [exact Hc|]. split.
    + rewrite chars_of_string_of_chars. apply group_digits_dotless. exact Hd.
    + apply thousands_separated_group3; [exact Hd | simpl; lia].
  - exists c, (string_of_list_ascii l).
    assert (dec z = String c (string_of_list_ascii l)) as E.
    { rewrite <- (string_of_chars_of_string (dec z)), Hchars. reflexivity. }
    split; [exact E|]. split; [exact Hc|]. split.
    + rewrite Hchars. apply digits_dotless. exact Hd.
    + unfold plain_integer, all_digits. rewrite string_length_chars, Hchars, Hd.
      reflexivity.
Qed.

Lemma repeat_zero_digits (k : nat) : forallb is_digit (repeat "0"%char k) = true.
Proof. induction k as [|k IH]; [reflexivity|]. simpl. exact IH. Qed.

Lemma pad_zeros_chars (n : nat) (s : string) :
  list_ascii_of_string (pad_zeros n s)
  = (repeat "0"%char (n - String.length s) ++ list_ascii_of_string s)%list.
Proof. unfold pad_zeros. rewrite chars_app, chars_of_string_of_chars. reflexivity. Qed.

Lemma dec_length_le (z : Z) (k : nat) :
  (1 <= k)%nat -> z < 10 ^ Z.of_nat k -> (String.length (dec z) <= k)%nat.
Proof.
  intros Hk Hz. unfold dec. rewrite string_length_chars, chars_of_string_of_chars.
  apply dec_digits_length_le; assumption.
Qed.

(** The fraction digits of a formatted number: all digits, and as many as
    there are decimal places. *)
Lemma frac_shape (dp : nat) (z : Z) :
  (1 <= dp)%nat -> z < 10 ^ Z.of_nat dp ->
  all_digits (pad_zeros dp (dec z)) = true
  /\ String.length (pad_zeros dp (dec z)) = dp.
Proof.
  intros Hdp Hz. pose proof (dec_length_le z dp Hdp Hz) as Hlen.
  destruct (dec_chars z) as (c & l & Hchars & Hd).
  split.
  - unfold all_digits. rewrite pad_zeros_chars, forallb_app, repeat_zero_digits, Hchars, Hd.
    reflexivity.
  - rewrite string_length_chars, pad_zeros_chars, length_app, repeat_length.
    rewrite <- string_length_chars. lia.
Qed.

Lemma pow10_pos (k : nat) : 0 < 10 ^ Z.of_nat k.
Proof. apply Z.pow_pos_nonneg; lia. Qed.


(** ** The value of a formatted number *)

Lemma round_half_even_nonneg (q : Q) : (0 <= q)%Q -> 0 <= round_half_even q.
Proof.
  intros H. unfold Qle in H. simpl in H. unfold round_half_even.
  assert (0 <= Qnum q / Z.pos (Qden q)) by (apply Z.div_pos; lia).
  destruct (_ ?= _); [destruct (Z.even _)| |]; lia.
Qed.

Lemma displayed_units_nonneg (dp : nat) (mag : Q) :
  (0 <= mag)%Q -> 0 <= displayed_units dp mag.
Proof.
  intros H. apply round_half_even_nonneg. apply Qmult_le_0_compat; [exact H|].
  unfold Qle. simpl. pose proof (pow10_pos dp). lia.
Qed.

(** A whole number of units is displayed as itself. *)
Lemma round_half_even_units (n : Z) (p : positive) :
  round_half_even (inject_Z n / inject_Z (Z.pos p) * inject_Z (Z.pos p)) = n.
Proof.
  unfold round_half_even. simpl Qnum. simpl Qden.
  rewrite Pos.mul_1_r, Z.mul_1_r.
  rewrite Z.div_mul, Z.mod_mul by lia. simpl. reflexivity.
Qed.

Lemma digits_value_dec (z : Z) :
  0 <= z -> digits_value 0 (list_ascii_of_string (dec z)) = Some z.
Proof.
  intros H. unfold dec. rewrite chars_of_string_of_chars.
  rewrite digits_value_dec_digits; [f_equal; lia | exact H | lia].
Qed.

Lemma digits_value_pad_zeros (n : nat) (z : Z) :
  0 <= z -> digits_value 0 (list_ascii_of_string (pad_zeros n (dec z))) = Some z.
Proof.
  intros H. rewrite pad_zeros_chars, digits_value_zeros.
  unfold dec. rewrite chars_of_string_of_chars.
  rewrite digits_value_dec_digits; [f_equal; lia | exact H | lia].
Qed.

Lemma split_sign_format (neg : bool) (c : ascii) (rest : string) :
  is_digit c = true ->
  split_sign ((if neg then "-" else "") ++ String c rest) = (neg, String c rest).
Proof.
  intros Hc. destruct neg; [reflexivity|].
  change ("" ++ ?x) with x. unfold split_sign.
  rewrite (is_digit_not_minus c Hc), (is_digit_not_plus c Hc). reflexivity.
Qed.

(** Read back as a float, a number formatted without grouping is the sign
    and the displayed units over the scale. *)
Theorem py_float_format_fixed (dp : nat) (neg : bool) (mag : Q) :
  (0 <= mag)%Q ->
  py_float (format_fixed false dp neg mag)
  = Ok (neg, (inject_Z (displayed_units dp mag) / inject_Z (10 ^ Z.of_nat dp))%Q).
Proof.
  intros Hmag. pose proof (displayed_units_nonneg dp mag Hmag) as Hn.
  unfold displayed_units in *. unfold format_fixed. cbv zeta.
  set (scale := 10 ^ Z.of_nat dp) in *.
  set (n := round_half_even (mag * inject_Z scale)) in *.
  pose proof (pow10_pos dp) as Hs. fold scale in Hs.
  destruct (int_part_shape false (n / scale)) as (c & rest & Hip & Hc & Hdot & _).
  cbv zeta in Hip, Hdot.
  assert (0 <= n / scale) as Hq by (apply Z.div_pos; lia).
  pose proof (Z.mod_pos_bound n scale Hs) as Hr.
  pose proof (Z.div_mod n scale ltac:(lia)) as Hdm.
  pose proof (digits_value_dec _ Hq) as Hval.
  rewrite Hip in Hdot, Hval |- *.
  unfold py_float. rewrite string_app_cons, split_sign_format by exact Hc.
  rewrite <- string_app_cons.
  destruct dp as [|dp].
  - rewrite string_app_nil_r, (break_at_none _ Hdot). cbn [default from_option id].
    rewrite Hval. cbn [list_ascii_of_string digits_value str_nonempty orb String.length].
    do 4 f_equal. unfold scale in *. change (10 ^ Z.of_nat 0) with 1 in *. lia.
  - change ("." ++ ?x) with (String "." x).
    rewrite (break_at_app _ _ Hdot). cbn [default from_option id].
    rewrite Hval, (digits_value_pad_zeros _ _ (proj1 Hr)).
    cbn [str_nonempty orb].
    destruct (frac_shape (S dp) (n mod scale) ltac:(lia) ltac:(apply Hr)) as [_ ->].
    fold scale. do 4 f_equal. lia.
Qed.



(** The second pass over the ["Price"] column leaves a price of the first
    pass as it is. *)
Lemma price_refmt_format_fixed (neg : bool) (mag : Q) :
  (0 <= mag)%Q ->
  price_refmt (format_fixed false 2 neg mag) = Ok (format_fixed false 2 neg mag).
Proof.
  intros Hmag. pose proof (py_float_format_fixed 2 neg mag Hmag) as Hf.
  unfold price_refmt.
  destruct (format_fixed false 2 neg mag) as [|c s] eqn:E; [discriminate Hf|].
  cbn [str_nonempty]. rewrite Hf. cbn [res_bind]. rewrite <- E. f_equal.
  unfold format_fixed, displayed_units. cbv zeta.
  change (10 ^ Z.of_nat 2) with (Z.pos 100).
  rewrite round_half_even_units. reflexivity.
Qed.

Lemma price_fmt_refmt (x : option Q) (p : string) :
  price_fmt (to_cell x) = Ok p -> price_refmt p = Ok p.
Proof.
  destruct x as [q|]; simpl; intros [= <-]; [|reflexivity].
  apply price_refmt_format_fixed. apply Qabs_nonneg.
Qed.

(** ** The formatters *)





(** ** Sorting the table *)

Lemma ltb_le (a b : string) : String.ltb a b = true -> (a ≤ b)%string.
Proof.
  unfold String.ltb, String.le, String.leb. intros H.
  destruct (String.compare a b); try discriminate. exact I.
Qed.

Lemma not_ltb_le (a b : string) : String.ltb a b = false -> (b ≤ a)%string.
Proof.
  unfold String.ltb, String.le, String.leb. rewrite (String.compare_antisym a b).
  intros H. destruct (String.compare b a); simpl in *; try discriminate; exact I.
Qed.

Lemma ltb_irrefl (a : string) : String.ltb a a = false.
Proof.
  unfold String.ltb. pose proof (String.compare_antisym a a) as H.
  destruct (String.compare a a); try reflexivity. discriminate.
Qed.

Section Sorting.
Context {A : Type} (key : A -> string).

Lemma insert_desc_perm (x : A) (l : list A) : insert_desc key x l ≡ₚ x :: l.
Proof.
  induction l as [|y l IH]; simpl; [reflexivity|].
  destruct (String.ltb (key x) (key y)); [|reflexivity].
  rewrite IH. apply Permutation_swap.
Qed.

Lemma sort_values_desc_perm (l : list A) : sort_values_desc key l ≡ₚ l.
Proof.
  unfold sort_values_desc. induction l as [|x l IH]; simpl; [reflexivity|].
  rewrite insert_desc_perm, IH. reflexivity.
Qed.

Lemma insert_desc_sorted (x : A) (l : list A) :
  StronglySorted (text_descending key) l ->
  StronglySorted (text_descending key) (insert_desc key x l).
Proof.
  induction 1 as [|y l Hs IH Hy]; simpl.
  - repeat constructor.
  - destruct (String.ltb (key x) (key y)) eqn:E.
    + constructor; [exact IH|].
      rewrite insert_desc_perm. constructor; [|exact Hy].
      apply ltb_le. exact E.
    + apply not_ltb_le in E. constructor; [constructor; assumption|].
      constructor; [exact E|].
      eapply Forall_impl; [exact Hy|]. intros z Hz.
      unfold text_descending in *. etransitivity; eassumption.
Qed.

(** The sort is a stable descending sort on the text of the key: its
    result is a rearrangement of its argument, in descending order of the
    key as text, with the rows of equal key in their original order. *)
Lemma sort_values_desc_sorted (l : list A) :
  StronglySorted (text_descending key) (sort_values_desc key l).
Proof.
  unfold sort_values_desc. induction l as [|x l IH]; simpl; [constructor|].
  apply insert_desc_sorted. exact IH.
Qed.

Lemma insert_desc_filter (k : string) (x : A) (l : list A) :
  List.filter (fun y => String.eqb (key y) k) (insert_desc key x l)
  = List.filter (fun y => String.eqb (key y) k) (x :: l).
Proof.
  induction l as [|y l IH]; [reflexivity|].
  cbn [insert_desc]. destruct (String.ltb (key x) (key y)) eqn:E; [|reflexivity].
  cbn [List.filter] in *. rewrite IH.
  destruct (String.eqb_spec (key x) k) as [Hx|Hx]; [|reflexivity].
  destruct (String.eqb_spec (key y) k) as [Hy|Hy]; [|reflexivity].
  rewrite Hx, Hy, ltb_irrefl in E. discriminate.
Qed.

Lemma sort_values_desc_stable (k : string) (l : list A) :
  List.filter (fun y => String.eqb (key y) k) (sort_values_desc key l)
  = List.filter (fun y => String.eqb (key y) k) l.
Proof.
  unfold sort_values_desc. induction l as [|x l IH]; [reflexivity|].
  cbn [foldr]. rewrite insert_desc_filter. cbn [List.filter]. rewrite IH. reflexivity.
Qed.
End Sorting.

(** ** The report of a run *)

Lemma res_mapM_id {A} (f : A -> res A) (l : list A) :
  Forall (fun x => f x = Ok x) l -> res_mapM f l = Ok l.
Proof.
  induction 1 as [|x l Hx _ IH]; [reflexivity|].
  cbn [res_mapM]. rewrite Hx. cbn [res_bind]. rewrite IH. reflexivity.
Qed.

(** When the second pass leaves every price as it is, the table is the
    sorted selection of the final columns. *)
Lemma display_table_sorted (filtered_df : list frow) :
  Forall (fun r => price_refmt (Price r) = Ok (Price r)) filtered_df ->
  display_table filtered_df = Ok (sorted_display filtered_df).
Proof.
  intros H. unfold display_table. apply res_mapM_id.
  unfold sorted_display. rewrite sort_values_desc_perm.
  apply Forall_fmap. eapply Forall_impl; [exact H|].
  intros r Hr. simpl. rewrite Hr. reflexivity.
Qed.

Lemma format_row_price (x : cand * (bool * jval)) :
  exists r, format_row x = Ok r
            /\ f_cand r = fst x
            /\ Makes_News r = fst (snd x)
            /\ News_URL r = fillna (snd (snd x))
            /\ Change_from_Close r = _fmt 2 (to_cell (premarket_change (base (fst x))))
            /\ price_refmt (Price r) = Ok (Price r).
Proof.
  destruct x as [c [b u]]. unfold format_row.
  destruct (price_fmt (to_cell (close (base c)))) as [p|exc] eqn:E.
  - eexists. split; [reflexivity|]. repeat split. apply (price_fmt_refmt _ _ E).
  - destruct (close (base c)); discriminate.
Qed.

(** The rows of the result are built without an exception, one for each
    candidate and news pair, and their prices survive the second pass. *)
Lemma result_rows_total (filtered_df : list cand) (news_list : list (bool * jval)) :
  exists rows,
    result_rows filtered_df news_list = Ok rows
    /\ length rows = length (add_news filtered_df news_list)
    /\ Forall (fun r => price_refmt (Price r) = Ok (Price r)) rows.
Proof.
  unfold result_rows. induction (add_news filtered_df news_list) as [|x l IH].
  - exists []. repeat split. constructor.
  - destruct IH as (rows & Hrows & Hlen & Hall).
    destruct (format_row_price x) as (r & Hr & _ & _ & _ & _ & Hp).
    exists (r :: rows). cbn [res_mapM]. rewrite Hr. cbn [res_bind].
    rewrite Hrows. repeat split; [simpl; congruence | constructor; assumption].
Qed.

(** What [report] does: it renders the first ten rows of the sorted table,
    falling back to the plain renderer, and writes and prints the rendering
    followed by the links. *)
Lemma report_run (e : env) (filtered_df : list frow) (w : world) :
  Forall (fun r => price_refmt (Price r) = Ok (Price r)) filtered_df ->
  report e filtered_df w =
  match rendered e (sorted_display filtered_df) with
  | Ok table_md =>
      (Ok tt,
       published w
         (date_isoformat (utc_now e (with_logs w [info MsgFinalResults])) ++ " screener wt.md")
         ("# Screener Results" ++ nl ++ nl ++ table_md ++ nl ++ nl ++ links_md filtered_df)
         table_md (links_md filtered_df))
  | Raise exc => (Raise exc, with_logs w [info MsgFinalResults])
  end.
Proof.
  intros H. unfold report. unfold bind at 1. rewrite log_info_run.
  unfold bind at 1, lift at 1. rewrite (display_table_sorted _ H).
  unfold bind at 1, render_table, try_except, lift, rendered.
  destruct (to_markdown e (take 10 (sorted_display filtered_df))) as [md|exc1].
  - unfold bind at 1. rewrite datetime_now_utc_run. reflexivity.
  - destruct (to_string e (take 10 (sorted_display filtered_df))) as [md|exc2];
      [|reflexivity].
    unfold bind at 1. rewrite datetime_now_utc_run. reflexivity.
Qed.

(** The table of a run is a rearrangement of the selected columns of the
    result rows, in descending order of the displayed change read as text. *)
Lemma table_text_descending (filtered_df : list cand) (news_list : list (bool * jval))
    (rows : list frow) :
  result_rows filtered_df news_list = Ok rows ->
  exists table,
    display_table rows = Ok table
    /\ table ≡ₚ map select_final_columns rows
    /\ StronglySorted (text_descending d_Change_from_Close) table.
Proof.
  intros Hrows.
  destruct (result_rows_total filtered_df news_list) as (rows' & Hrows' & _ & Hprice).
  rewrite Hrows in Hrows'. injection Hrows' as <-.
  exists (sorted_display rows). split; [apply display_table_sorted; exact Hprice|].
  split; [apply sort_values_desc_perm | apply sort_values_desc_sorted].
Qed.

(** A run with candidates: after the news stage, the rows are built and
    reported. *)
Lemma screen_run (e : env) (cookies : gmap string (option string)) (cutoff : datetime)
    (client : option finnhub_client) (w w1 : world) (total : Z) (df : list row)
    (news_list : list (bool * jval)) (rows : list frow) :
  get_scanner_data e main_query cookies = Ok (total, df) ->
  candidates df <> [] ->
  news_stage e (candidates df) cutoff client
    (with_logs w [info (MsgInitialCount total);
                  info (MsgRelVolCount MIN_RELATIVE_VOLUME_MULTIPLIER
                                       (length (candidates df)));
                  info (MsgRunningNews NEWS_CHECK_HOURS)])
  = (Ok news_list, w1) ->
  result_rows (candidates df) news_list = Ok rows ->
  screen e cookies cutoff client w = report e rows w1.
Proof.
  intros Hscan Hne Hnews Hrows. unfold screen, bind at 1, lift. rewrite Hscan.
  unfold bind at 1. rewrite log_info_run.
  destruct df as [|r df]; [contradiction Hne; reflexivity|].
  unfold bind at 1. rewrite log_info_run, with_logs_app.
  destruct (candidates (r :: df)) as [|c l] eqn:Hc; [contradiction Hne; reflexivity|].
  unfold bind at 1. rewrite log_info_run, with_logs_app. cbn [app].
  unfold bind at 1. rewrite Hnews.
  unfold bind at 1, lift. rewrite Hrows. reflexivity.
Qed.

(** ** The ranking of the table and the order of the links *)

(** C1, on a snapshot of two movers gaining 25% and 100%.  The table is
    sorted on its display column, whose cells are the strings ["25.00"] and
    ["100.00"]; as text the first is the larger, so the 25% row is shown
    above the 100% row and the table is not in descending order of the
    premarket change. *)
Theorem C1_table_sorted_as_text :
  exists frows table md,
    result_rows (candidates two_movers) [no_news; no_news] = Ok frows
    /\ display_table frows = Ok table
    /\ map (fun d => (d_Ticker d, d_Change_from_Close d)) table
       = [("NASDAQ:AAA", "25.00"); ("NASDAQ:BBB", "100.00")]
    /\ map (change_of two_movers) table = [Some 25%Q; Some 100%Q]
    /\ ~ descending_by_change two_movers table
    /\ to_markdown no_key_env (take 10 table) = Ok md
    /\ files (snd (main no_key_env world0))
       = [("2024-01-11 screener wt.md",
           "# Screener Results" ++ nl ++ nl ++ md ++ nl ++ nl ++ links_header)].
Proof.
  eexists _, _, _.
  split; [vm_compute; reflexivity|].
  split; [vm_compute; reflexivity|].
  split; [vm_compute; reflexivity|].
  split; [vm_compute; reflexivity|].
  split.
  - intros H.
    specialize (H 0%nat _ _ 25%Q 100%Q eq_refl eq_refl eq_refl eq_refl).
    vm_compute in H. apply H. reflexivity.
  - split; [vm_compute; reflexivity|]. vm_compute. reflexivity.
Qed.

(** C2, on two movers gaining 11% and 50%, each with a recent article, and on
    eleven movers of increasing gain, each with a recent article.  The links
    are taken from the first ten rows of [filtered_df], which is in the order
    of the snapshot, not of the table: with two movers the table shows BBB
    above AAA and the links list AAA before BBB; with eleven the table opens
    with T11 and leaves T01 out, and the links open with T01 and leave T11
    out. *)
Theorem C2_links_in_snapshot_order :
  (exists frows table,
      result_rows (candidates two_risers) (map recent_pair ["AAA"; "BBB"]) = Ok frows
      /\ display_table frows = Ok table
      /\ map d_Ticker (take 10 table) = ["NASDAQ:BBB"; "NASDAQ:AAA"]
      /\ links_md frows
         = links_header ++ "- [NASDAQ:AAA](http://news/AAA)" ++ nl
                        ++ "- [NASDAQ:BBB](http://news/BBB)" ++ nl
      /\ links_in_table_order frows table
         = links_header ++ "- [NASDAQ:BBB](http://news/BBB)" ++ nl
                        ++ "- [NASDAQ:AAA](http://news/AAA)" ++ nl
      /\ links_md frows <> links_in_table_order frows table
      /\ exists md,
          to_markdown (demo_env (Some "key") two_risers news_by_symbol) (take 10 table) = Ok md
          /\ files (snd (main (demo_env (Some "key") two_risers news_by_symbol) world0))
             = [("2024-01-11 screener wt.md",
                 "# Screener Results" ++ nl ++ nl ++ md ++ nl ++ nl ++ links_md frows)])
  /\ (exists frows table,
        result_rows (candidates eleven_risers)
          (map recent_pair ["T01"; "T02"; "T03"; "T04"; "T05"; "T06";
                            "T07"; "T08"; "T09"; "T10"; "T11"]) = Ok frows
        /\ display_table frows = Ok table
        /\ map d_Ticker (take 10 table)
           = ["NASDAQ:T11"; "NASDAQ:T10"; "NASDAQ:T09"; "NASDAQ:T08"; "NASDAQ:T07";
              "NASDAQ:T06"; "NASDAQ:T05"; "NASDAQ:T04"; "NASDAQ:T03"; "NASDAQ:T02"]
        /\ map (fun r => name (base (f_cand r))) (List.filter has_url (take 10 frows))
           = ["NASDAQ:T01"; "NASDAQ:T02"; "NASDAQ:T03"; "NASDAQ:T04"; "NASDAQ:T05";
              "NASDAQ:T06"; "NASDAQ:T07"; "NASDAQ:T08"; "NASDAQ:T09"; "NASDAQ:T10"]
        /\ links_md frows <> links_in_table_order frows table).
Proof.
  split.
  - eexists _, _.
    split; [vm_compute; reflexivity|].
    split; [vm_compute; reflexivity|].
    split; [vm_compute; reflexivity|].
    split; [vm_compute; reflexivity|].
    split; [vm_compute; reflexivity|].
    split; [vm_compute; discriminate|].
    eexists. split; [vm_compute; reflexivity|]. vm_compute. reflexivity.
  - eexists _, _.
    split; [vm_compute; reflexivity|].
    split; [vm_compute; reflexivity|].
    split; [vm_compute; reflexivity|].
    split; [vm_compute; reflexivity|].
    vm_compute. discriminate.
Qed.


(** * Further properties of the helpers and of [main] *)

(** ** Ticker normalization *)

Lemma py_split_nonempty (sep : ascii) (s : string) : py_split sep s <> [].
Proof.
  destruct s as [|c s]; simpl; [discriminate|].
  destruct (Ascii.eqb c sep); [discriminate|].
  destruct (py_split sep s); discriminate.
Qed.

Lemma last_cons_nonempty {A} (x : A) (l : list A) (d : A) :
  l <> [] -> List.last (x :: l) d = List.last l d.
Proof. destruct l; [contradiction | reflexivity]. Qed.

Lemma py_split_last_cons (sep c : ascii) (s : string) :
  List.last (py_split sep (String c s)) ""
  = if Ascii.eqb c sep then List.last (py_split sep s) ""
    else match py_split sep s with
         | [h] => String c h
         | _ => List.last (py_split sep s) ""
         end.
Proof.
  pose proof (py_split_nonempty sep s) as Hne. cbn [py_split].
  destruct (Ascii.eqb c sep).
  - apply last_cons_nonempty. exact Hne.
  - destruct (py_split sep s) as [|h [|h' t]]; [contradiction | reflexivity | reflexivity].
Qed.

Lemma py_split_sep_free (s : string) :
  colon_free s = true -> py_split ":" s = [s].
Proof.
  unfold colon_free. induction s as [|c s IH]; [reflexivity|].
  simpl. intros H. apply andb_true_iff in H as [Hc Hs].
  apply negb_true_iff in Hc. rewrite Hc, (IH Hs). reflexivity.
Qed.

Lemma py_split_last_colon_free (s : string) :
  colon_free (List.last (py_split ":" s) "") = true.
Proof.
  induction s as [|c s IH]; [reflexivity|].
  rewrite py_split_last_cons. destruct (Ascii.eqb c ":") eqn:E; [exact IH|].
  destruct (py_split ":" s) as [|h [|h' t]]; try exact IH.
  unfold colon_free in *. simpl in *. rewrite E, IH. reflexivity.
Qed.

Lemma py_split_app_two (a b : string) :
  exists h h' t, py_split ":" (a ++ String ":" b) = h :: h' :: t.
Proof.
  induction a as [|c a (h & h' & t & IH)].
  - change ("" ++ ?x) with x. cbn [py_split]. change (Ascii.eqb ":" ":") with true.
    cbv iota. pose proof (py_split_nonempty ":" b) as Hne.
    destruct (py_split ":" b) as [|h' t]; [contradiction|]. eauto.
  - rewrite string_app_cons. cbn [py_split]. rewrite IH.
    destruct (Ascii.eqb c ":"); eauto.
Qed.

Lemma py_split_last_app (a b : string) :
  List.last (py_split ":" (a ++ String ":" b)) "" = List.last (py_split ":" b) "".
Proof.
  induction a as [|c a IH].
  - change ("" ++ ?x) with x. rewrite py_split_last_cons. reflexivity.
  - rewrite string_app_cons, py_split_last_cons, IH.
    destruct (Ascii.eqb c ":"); [reflexivity|].
    destruct (py_split_app_two a b) as (h & h' & t & ->). reflexivity.
Qed.

Lemma chars_string_rev (s : string) :
  list_ascii_of_string (string_rev s) = rev (list_ascii_of_string s).
Proof. unfold string_rev. apply chars_of_string_of_chars. Qed.

Lemma string_rev_involutive (s : string) : string_rev (string_rev s) = s.
Proof.
  unfold string_rev at 1. rewrite chars_string_rev, rev_involutive.
  apply string_of_chars_of_string.
Qed.

Lemma starts_with_space_chars (s : string) :
  starts_with_space s
  = match list_ascii_of_string s with c :: _ => is_space c | [] => false end.
Proof. destruct s; reflexivity. Qed.

Lemma lstrip_fixed (s : string) : starts_with_space s = false -> lstrip s = s.
Proof. destruct s as [|c s]; simpl; [reflexivity|]. intros ->. reflexivity. Qed.

Lemma lstrip_starts (s : string) : starts_with_space (lstrip s) = false.
Proof.
  induction s as [|c s IH]; [reflexivity|].
  simpl. destruct (is_space c) eqn:E; [exact IH|]. simpl. exact E.
Qed.

(** [lstrip] removes a run of white space from the front, and nothing else. *)
Lemma lstrip_chars (s : string) :
  exists pre,
    list_ascii_of_string s = (pre ++ list_ascii_of_string (lstrip s))%list
    /\ forallb is_space pre = true.
Proof.
  induction s as [|c s (pre & E & Hpre)].
  - exists []. split; reflexivity.
  - simpl. destruct (is_space c) eqn:Hc.
    + exists (c :: pre). simpl. rewrite E at 1. rewrite Hc, Hpre. split; reflexivity.
    + exists []. split; reflexivity.
Qed.

(** [py_strip] removes white space from both ends, and nothing else. *)
Lemma py_strip_chars (s : string) :
  exists pre post,
    list_ascii_of_string s
    = (pre ++ list_ascii_of_string (py_strip s) ++ post)%list
    /\ forallb is_space pre = true /\ forallb is_space post = true.
Proof.
  destruct (lstrip_chars s) as (pre & E1 & Hpre).
  destruct (lstrip_chars (string_rev (lstrip s))) as (post & E2 & Hpost).
  exists pre, (rev post). repeat split; [|exact Hpre|].
  - unfold py_strip. rewrite chars_string_rev, E1. f_equal.
    rewrite chars_string_rev in E2.
    rewrite <- (rev_involutive (list_ascii_of_string (lstrip s))), E2, rev_app_distr.
    reflexivity.
  - rewrite forallb_forall in *. intros c Hc. apply Hpost. apply in_rev. exact Hc.
Qed.

Lemma py_strip_trimmed (s : string) : trimmed (py_strip s) = true.
Proof.
  unfold trimmed. apply andb_true_iff. split; apply negb_true_iff.
  - destruct (lstrip_chars (string_rev (lstrip s))) as (post & E2 & _).
    pose proof (lstrip_starts s) as Ha. rewrite starts_with_space_chars in Ha.
    rewrite starts_with_space_chars. unfold py_strip. rewrite chars_string_rev.
    rewrite chars_string_rev in E2.
    assert (list_ascii_of_string (lstrip s)
            = (rev (list_ascii_of_string (lstrip (string_rev (lstrip s)))) ++ rev post)%list)
      as E by (rewrite <- rev_app_distr, <- E2, rev_involutive; reflexivity).
    rewrite E in Ha.
    destruct (rev (list_ascii_of_string (lstrip (string_rev (lstrip s))))); [reflexivity|].
    exact Ha.
  - unfold py_strip. rewrite string_rev_involutive. apply lstrip_starts.
Qed.

Lemma py_strip_fixed (s : string) : trimmed s = true -> py_strip s = s.
Proof.
  unfold trimmed. intros H. apply andb_true_iff in H as [H1 H2].
  apply negb_true_iff in H1, H2. unfold py_strip.
  rewrite (lstrip_fixed s H1), (lstrip_fixed _ H2). apply string_rev_involutive.
Qed.

Lemma colon_free_sublist (s t : string) :
  (forall c, In c (list_ascii_of_string t) -> In c (list_ascii_of_string s)) ->
  colon_free s = true -> colon_free t = true.
Proof.
  unfold colon_free. rewrite !forallb_forall. intros Hsub H c Hc. apply H, Hsub, Hc.
Qed.

Lemma py_strip_colon_free (s : string) : colon_free s = true -> colon_free (py_strip s) = true.
Proof.
  apply colon_free_sublist. intros c Hc.
  destruct (py_strip_chars s) as (pre & post & -> & _).
  apply in_or_app. right. apply in_or_app. left. exact Hc.
Qed.

Lemma normalize_shape (symbol : string) :
  colon_free (_normalize_ticker_for_finnhub symbol) = true
  /\ trimmed (_normalize_ticker_for_finnhub symbol) = true.
Proof.
  unfold _normalize_ticker_for_finnhub. destruct symbol as [|c s]; [split; reflexivity|].
  cbn [str_nonempty]. split.
  - apply py_strip_colon_free, py_split_last_colon_free.
  - apply py_strip_trimmed.
Qed.

Lemma normalize_fixed (symbol : string) :
  colon_free symbol = true -> trimmed symbol = true ->
  _normalize_ticker_for_finnhub symbol = symbol.
Proof.
  intros Hc Ht. unfold _normalize_ticker_for_finnhub.
  destruct (str_nonempty symbol); [|reflexivity].
  rewrite (py_split_sep_free symbol Hc). apply py_strip_fixed. exact Ht.
Qed.

(** X1. A normalized ticker holds no colon and neither starts nor ends with
    white space. *)
Theorem normalized_ticker_shape (symbol : string) :
  colon_free (_normalize_ticker_for_finnhub symbol) = true
  /\ trimmed (_normalize_ticker_for_finnhub symbol) = true.
Proof. apply normalize_shape. Qed.

(** X2. Normalizing a normalized ticker changes nothing. *)
Theorem normalize_ticker_idempotent (symbol : string) :
  _normalize_ticker_for_finnhub (_normalize_ticker_for_finnhub symbol)
  = _normalize_ticker_for_finnhub symbol.
Proof.
  destruct (normalize_shape symbol) as [Hc Ht]. apply normalize_fixed; assumption.
Qed.

(** X3. Normalization keeps what follows the last colon, without the white
    space around it, whatever stands before that colon. *)
Theorem normalize_ticker_drops_exchange (exchange body : string) :
  colon_free body = true ->
  _normalize_ticker_for_finnhub (exchange ++ String ":" body) = py_strip body.
Proof.
  intros Hb. unfold _normalize_ticker_for_finnhub.
  assert (str_nonempty (exchange ++ String ":" body) = true) as ->
    by (destruct exchange; reflexivity).
  rewrite py_split_last_app, (py_split_sep_free body Hb). reflexivity.
Qed.

Lemma normalize_ticker_drops_exchange_witness :
  _normalize_ticker_for_finnhub ("BATS:NASDAQ" ++ String ":" " AAPL ") = "AAPL".
Proof. apply (normalize_ticker_drops_exchange "BATS:NASDAQ" " AAPL "). reflexivity. Defined.

(** ** Session cookies *)

Lemma session_dict_snoc (l : list (gmap string string)) (c : gmap string string) :
  session_dict (l ++ [c])
  = match c !! "name" with
    | Some n =>
        if String.eqb n "sessionid" || String.eqb n "tv_auth"
        then <[n := c !! "value"]> (session_dict l)
        else session_dict l
    | None => session_dict l
    end.
Proof.
  unfold session_dict. rewrite foldl_snoc.
  destruct (c !! "name") as [n|] eqn:E; [|reflexivity].
  assert (bool_decide (c = ∅) = false) as ->; [|reflexivity].
  apply bool_decide_eq_false. intros ->. rewrite lookup_empty in E. discriminate.
Qed.

Lemma session_dict_keys (l : list (gmap string string)) (n : string) :
  is_Some (session_dict l !! n) -> n = "sessionid" \/ n = "tv_auth".
Proof.
  induction l as [|c l IH] using rev_ind.
  - unfold session_dict. simpl. rewrite lookup_empty. intros [x Hx]. discriminate.
  - rewrite session_dict_snoc.
    destruct (c !! "name") as [m|]; [|exact IH].
    destruct (String.eqb m "sessionid") eqn:E1; simpl.
    + apply String.eqb_eq in E1. subst m.
      destruct (decide ("sessionid" = n)) as [<-|Hne]; [auto|].
      rewrite lookup_insert_ne by exact Hne. exact IH.
    + destruct (String.eqb m "tv_auth") eqn:E2; [|exact IH].
      apply String.eqb_eq in E2. subst m.
      destruct (decide ("tv_auth" = n)) as [<-|Hne]; [auto|].
      rewrite lookup_insert_ne by exact Hne. exact IH.
Qed.

(** X4. Loading the session cookies never raises and leaves no trace: the
    answer is a dictionary whose only keys are ["sessionid"] and
    ["tv_auth"], and it is empty when the cookie store cannot be read. *)
Theorem session_cookies_are_safe (e : env) (w : world) :
  exists jar,
    get_session_cookies e w = (Ok jar, w)
    /\ (forall n, is_Some (jar !! n) -> n = "sessionid" \/ n = "tv_auth")
    /\ (forall exc, firefox_cookies e = Raise exc -> jar = ∅).
Proof.
  exists (cookie_jar e). split; [apply get_session_cookies_run|].
  unfold cookie_jar. split.
  - intros n. destruct (firefox_cookies e); [apply session_dict_keys|].
    rewrite lookup_empty. intros [x Hx]. discriminate.
  - intros exc ->. reflexivity.
Qed.

(** X5. Among several cookies of the same kept name the last one of the
    list gives the value, and a cookie of another name, or without a name,
    changes nothing. *)
Theorem session_cookies_last_wins (l : list (gmap string string)) (c : gmap string string)
    (n : string) :
  n = "sessionid" \/ n = "tv_auth" ->
  session_dict (l ++ [c]) !! n
  = if bool_decide (c !! "name" = Some n) then Some (c !! "value")
    else session_dict l !! n.
Proof.
  intros Hn. rewrite session_dict_snoc.
  destruct (c !! "name") as [m|] eqn:E.
  - destruct (decide (m = n)) as [->|Hne].
    + rewrite bool_decide_eq_true_2 by reflexivity.
      assert (String.eqb n "sessionid" || String.eqb n "tv_auth" = true) as ->
        by (destruct Hn as [-> | ->]; reflexivity).
      apply lookup_insert_eq.
    + rewrite bool_decide_eq_false_2 by congruence.
      destruct (String.eqb m "sessionid" || String.eqb m "tv_auth"); [|reflexivity].
      apply lookup_insert_ne. exact Hne.
  - rewrite bool_decide_eq_false_2 by discriminate. reflexivity.
Qed.

Lemma session_cookies_last_wins_witness :
  session_dict ([old_session; tracking_cookie] ++ [new_session]) !! "sessionid"
  = Some (Some "new").
Proof.
  rewrite (session_cookies_last_wins [old_session; tracking_cookie] new_session "sessionid").
  - reflexivity.
  - left. reflexivity.
Defined.

(** ** The news client *)

Lemma client_of_Some (e : env) (client : finnhub_client) :
  client_of e = Some client
  <-> exists api_key,
        FINNHUB_API_KEY e = Some api_key /\ api_key <> ""
        /\ finnhub_Client e api_key = Ok client.
Proof.
  unfold client_of. split.
  - destruct (FINNHUB_API_KEY e) as [[|c k]|]; try discriminate.
    destruct (finnhub_Client e (String c k)) as [cl|exc] eqn:E; [|discriminate].
    intros [= ->]. exists (String c k). repeat split; [discriminate | exact E].
  - intros (k & -> & Hk & Hc). destruct k as [|c k]; [contradiction|].
    rewrite Hc. reflexivity.
Qed.

(** X6. Creating the news client never raises.  A client is answered
    exactly when the API key is set, is not empty and the constructor
    succeeds, and then nothing is logged; otherwise the answer is [None] and
    exactly one record is logged, a warning. *)
Theorem finnhub_client_or_one_warning (e : env) (w : world) :
  exists answer records,
    get_finnhub_client e w = (Ok answer, with_logs w records)
    /\ (forall client,
          answer = Some client
          <-> exists api_key,
                FINNHUB_API_KEY e = Some api_key /\ api_key <> ""
                /\ finnhub_Client e api_key = Ok client)
    /\ match answer with
       | Some _ => records = []
       | None => exists m, records = [{| lvl := WARNING; msg := m |}]
       end.
Proof.
  exists (client_of e), (client_warnings e).
  split; [apply get_finnhub_client_run|]. split; [apply client_of_Some|].
  unfold client_of, client_warnings.
  destruct (FINNHUB_API_KEY e) as [[|c k]|]; try (eexists; reflexivity).
  destruct (finnhub_Client e (String c k)); [reflexivity | eexists; reflexivity].
Qed.

(** ** More on the formatters *)

Lemma format_fixed_nonempty (grouping : bool) (dp : nat) (neg : bool) (mag : Q) :
  format_fixed grouping dp neg mag <> "".
Proof.
  unfold format_fixed. cbv zeta.
  destruct (int_part_shape grouping
              (round_half_even (mag * inject_Z (10 ^ Z.of_nat dp)) / 10 ^ Z.of_nat dp))
    as (c & rest & Hip & _).
  cbv zeta in Hip. rewrite Hip.
  destruct neg; [discriminate|]. change ("" ++ ?x) with x.
  rewrite string_app_cons. discriminate.
Qed.

(** X7. In a column made by [format_number] the empty string stands for
    what is not a float, and for nothing else: a cell is displayed as the
    empty string exactly when it is a missing value or an object the format
    rejects, and never when it is a number or an infinity. *)
Theorem format_number_empty_iff_not_a_number (decimal_places : nat) (x : cell) :
  _fmt decimal_places x = ""
  <-> (forall q, x <> CNum q) /\ (forall negative, x <> CInf negative).
Proof.
  destruct x as [|q|negative|s]; unfold _fmt, py_format, format_float; cbn [isna].
  - split; [intros _; split; intros ?; discriminate | reflexivity].
  - split.
    + intros H. exfalso. exact (format_fixed_nonempty _ _ _ _ H).
    + intros [H _]. exfalso. exact (H q eq_refl).
  - split.
    + destruct negative; discriminate.
    + intros [_ H]. exfalso. exact (H negative eq_refl).
  - split; [intros _; split; intros ?; discriminate | reflexivity].
Qed.



(** ** The table *)

(** X9. The rows of a run can always be formatted, whatever the candidates
    and their news, each price cell being the two-decimal display of the
    close or the empty string for a missing close; and the second pass over
    the ["Price"] column reads every such cell back and rewrites it as it
    was, so it never raises and the table is the sorted selection of the
    final columns. *)
Theorem price_second_pass_changes_nothing
    (filtered_df : list cand) (news_list : list (bool * jval)) :
  exists rows,
    result_rows filtered_df news_list = Ok rows
    /\ map Price rows
       = map (fun x => price_display (close (base (fst x)))) (add_news filtered_df news_list)
    /\ Forall (fun r => price_refmt (Price r) = Ok (Price r)) rows
    /\ display_table rows = Ok (sorted_display rows).
Proof.
  assert (exists rows,
             result_rows filtered_df news_list = Ok rows
             /\ map Price rows
                = map (fun x => price_display (close (base (fst x))))
                      (add_news filtered_df news_list)
             /\ Forall (fun r => price_refmt (Price r) = Ok (Price r)) rows)
    as (rows & Hrows & Hprice & Hfix).
  { unfold result_rows. induction (add_news filtered_df news_list) as [|x l IH].
    - exists []. repeat split. constructor.
    - destruct IH as (rows & Hrows & Hprice & Hfix).
      destruct x as [c [b u]]. cbn [res_mapM]. unfold format_row at 1.
      destruct (close (base c)) as [q|] eqn:Hq; cbn [to_cell price_fmt isna py_format res_bind];
        rewrite Hrows; cbn [res_bind]; eexists; (split; [reflexivity|]);
        cbn [map Price fst]; rewrite Hprice, Hq; (split; [reflexivity|]);
        constructor; try exact Hfix; cbn [Price].
      + apply price_refmt_format_fixed. apply Qabs_nonneg.
      + reflexivity. }
  exists rows. repeat split; try assumption.
  apply display_table_sorted. exact Hfix.
Qed.

(** X10. The table of a run is its rows sorted on the text of the change
    column: it holds the same rows, and each cell of the change column is at
    least, as a string, the cells below it. *)
Theorem table_is_sorted_on_text
    (filtered_df : list cand) (news_list : list (bool * jval)) (rows : list frow) :
  result_rows filtered_df news_list = Ok rows ->
  exists table,
    display_table rows = Ok table
    /\ table ≡ₚ map select_final_columns rows
    /\ StronglySorted (text_descending d_Change_from_Close) table.
Proof.
  intros Hrows.
  destruct (result_rows_total filtered_df news_list) as (rows' & Hrows' & _ & Hprice).
  rewrite Hrows in Hrows'. injection Hrows' as <-.
  exists (sorted_display rows). split; [apply display_table_sorted; exact Hprice|].
  split; [apply sort_values_desc_perm | apply sort_values_desc_sorted].
Qed.

Lemma table_is_sorted_on_text_witness :
  exists rows table,
    result_rows (candidates two_risers) [no_news; no_news] = Ok rows
    /\ display_table rows = Ok table
    /\ length table = 2%nat.
Proof.
  pose proof (table_is_sorted_on_text (candidates two_risers) [no_news; no_news] _ eq_refl)
    as (table & Htable & Hperm & _).
  eexists _, table. split; [reflexivity|]. split; [exact Htable|].
  rewrite Hperm. reflexivity.
Defined.

(** ** Changes of equal width

    Strings of digits of the same length compare as the numbers they
    denote. *)

Lemma two_digits_whole (z : Z) : 10 <= z <= 99 -> group3 (dec z) = two_digits z.
Proof.
  intros Hz.
  assert (forallb (fun k => String.eqb (group3 (dec (10 + Z.of_nat k)))
                                       (two_digits (10 + Z.of_nat k)))
                  (seq 0 90) = true) as Hall by (vm_compute; reflexivity).
  rewrite forallb_forall in Hall.
  specialize (Hall (Z.to_nat (z - 10))).
  rewrite Z2Nat.id in Hall by lia. replace (10 + (z - 10)) with z in Hall by lia.
  apply String.eqb_eq. apply Hall. apply in_seq. lia.
Qed.

Lemma two_digits_frac (z : Z) : 0 <= z <= 99 -> pad_zeros 2 (dec z) = two_digits z.
Proof.
  intros Hz.
  assert (forallb (fun k => String.eqb (pad_zeros 2 (dec (Z.of_nat k)))
                                       (two_digits (Z.of_nat k)))
                  (seq 0 100) = true) as Hall by (vm_compute; reflexivity).
  rewrite forallb_forall in Hall.
  specialize (Hall (Z.to_nat z)).
  rewrite Z2Nat.id in Hall by lia.
  apply String.eqb_eq. apply Hall. apply in_seq. lia.
Qed.

Lemma digit_char_compare (a b : Z) :
  0 <= a <= 9 -> 0 <= b <= 9 ->
  Ascii.compare (digit_char a) (digit_char b) = (a ?= b).
Proof.
  intros Ha Hb. unfold Ascii.compare, digit_char.
  rewrite !N_ascii_embedding by lia.
  rewrite <- N2Z.inj_compare, !N2Z.inj_add, !Z2N.id by lia.
  apply Z.add_compare_mono_l.
Qed.

Lemma two_digits_compare (a b : Z) (s t : string) :
  0 <= a <= 99 -> 0 <= b <= 99 ->
  String.compare (two_digits a ++ s) (two_digits b ++ t)
  = match a ?= b with Eq => String.compare s t | c => c end.
Proof.
  intros Ha Hb. unfold two_digits. rewrite !string_app_cons.
  change ("" ++ s) with s. change ("" ++ t) with t.
  cbn [String.compare].
  pose proof (Z.div_mod a 10 ltac:(lia)) as Hda.
  pose proof (Z.div_mod b 10 ltac:(lia)) as Hdb.
  pose proof (Z.mod_pos_bound a 10 ltac:(lia)) as Hma.
  pose proof (Z.mod_pos_bound b 10 ltac:(lia)) as Hmb.
  assert (0 <= a / 10 <= 9) as Hqa by lia.
  assert (0 <= b / 10 <= 9) as Hqb by lia.
  rewrite !digit_char_compare by lia.
  destruct (Z.compare_spec (a / 10) (b / 10)) as [E1|E1|E1];
    destruct (Z.compare_spec (a mod 10) (b mod 10)) as [E2|E2|E2];
    destruct (Z.compare_spec a b) as [E|E|E]; try reflexivity; exfalso; lia.
Qed.

(** The text of a change shown with two digits before the point. *)
Lemma change_text (x : Q) :
  1000 <= displayed_units 2 x <= 9999 ->
  format_fixed true 2 false x
  = two_digits (displayed_units 2 x / 100) ++ "." ++ two_digits (displayed_units 2 x mod 100).
Proof.
  intros Hu. unfold format_fixed, displayed_units in *. cbv zeta.
  change (10 ^ Z.of_nat 2) with 100 in *.
  set (u := round_half_even (x * inject_Z 100)) in *.
  change ("" ++ ?s) with s.
  rewrite two_digits_whole, two_digits_frac; [reflexivity| |].
  - pose proof (Z.mod_pos_bound u 100 ltac:(lia)). lia.
  - pose proof (Z.div_mod u 100 ltac:(lia)).
    pose proof (Z.mod_pos_bound u 100 ltac:(lia)). lia.
Qed.

Lemma change_text_order (x y : Q) :
  1000 <= displayed_units 2 x <= 9999 ->
  1000 <= displayed_units 2 y <= 9999 ->
  (format_fixed true 2 false y ≤ format_fixed true 2 false x)%string ->
  displayed_units 2 y <= displayed_units 2 x.
Proof.
  intros Hx Hy. rewrite !change_text by assumption.
  set (a := displayed_units 2 x) in *. set (b := displayed_units 2 y) in *.
  unfold String.le, String.leb.
  pose proof (Z.mod_pos_bound a 100 ltac:(lia)) as Hma.
  pose proof (Z.mod_pos_bound b 100 ltac:(lia)) as Hmb.
  pose proof (Z.div_mod a 100 ltac:(lia)) as Hda.
  pose proof (Z.div_mod b 100 ltac:(lia)) as Hdb.
  assert (0 <= a / 100 <= 99 /\ 0 <= b / 100 <= 99) as [Ha Hb] by lia.
  rewrite two_digits_compare by lia.
  rewrite string_app_cons. change ("" ++ ?s) with s.
  rewrite string_app_cons. change ("" ++ ?s) with s.
  cbn [String.compare]. change (Ascii.compare "." ".") with Eq. cbv iota.
  rewrite <- (string_app_nil_r (two_digits (b mod 100))),
          <- (string_app_nil_r (two_digits (a mod 100))).
  rewrite two_digits_compare by lia. cbn [String.compare].
  destruct (Z.compare_spec (b / 100) (a / 100)) as [E1|E1|E1];
    destruct (Z.compare_spec (b mod 100) (a mod 100)) as [E2|E2|E2];
    intros H; try contradiction; lia.
Qed.

Lemma units_two_digits (x : Q) :
  (10 <= x)%Q -> (x < 99995 # 1000)%Q -> 1000 <= displayed_units 2 x <= 9999.
Proof.
  destruct x as [n d]. unfold Qle, Qlt, displayed_units, round_half_even.
  change (10 ^ Z.of_nat 2) with 100. simpl Qnum. simpl Qden.
  rewrite Pos.mul_1_r. intros Hlo Hhi.
  pose proof (Z.div_mod (n * 100) (Z.pos d) ltac:(lia)) as Hdm.
  pose proof (Z.mod_pos_bound (n * 100) (Z.pos d) ltac:(lia)) as Hb.
  set (fl := n * 100 / Z.pos d) in *. set (r := (n * 100) mod Z.pos d) in *.
  destruct (2 * r ?= Z.pos d) eqn:C.
  - apply Z.compare_eq in C. destruct (Z.even fl); nia.
  - rewrite Z.compare_lt_iff in C. nia.
  - rewrite Z.compare_gt_iff in C. nia.
Qed.

Lemma res_mapM_Forall2 {A B} (f : A -> res B) (l : list A) (rows : list B) :
  res_mapM f l = Ok rows -> Forall2 (fun x r => f x = Ok r) l rows.
Proof.
  revert rows. induction l as [|x l IH]; intros rows; cbn [res_mapM].
  - intros [= <-]. constructor.
  - destruct (f x) as [y|] eqn:Hy; [|discriminate]. cbn [res_bind].
    destruct (res_mapM f l) as [ys|]; [|discriminate]. cbn [res_bind].
    intros [= <-]. constructor; [exact Hy | apply IH; reflexivity].
Qed.

Lemma add_news_fst (filtered_df : list cand) (news_list : list (bool * jval))
    (x : cand * (bool * jval)) :
  x ∈ add_news filtered_df news_list -> fst x ∈ filtered_df.
Proof.
  unfold add_news. destruct news_list as [|p news_list].
  - intros H. apply list_elem_of_fmap in H as (c & -> & Hc). exact Hc.
  - destruct x as [c p']. intros H. simpl. eapply elem_of_zip_l. exact H.
Qed.

(** Every row of [filtered_df] belongs to a candidate and shows the
    formatted change of that candidate. *)
Lemma result_rows_elem (filtered_df : list cand) (news_list : list (bool * jval))
    (rows : list frow) (r : frow) :
  result_rows filtered_df news_list = Ok rows -> r ∈ rows ->
  f_cand r ∈ filtered_df
  /\ Change_from_Close r = _fmt 2 (to_cell (premarket_change (base (f_cand r)))).
Proof.
  intros Hrows Hr. apply res_mapM_Forall2 in Hrows.
  apply list_elem_of_lookup in Hr as [i Hi].
  destruct (Forall2_lookup_r _ _ _ _ _ Hrows Hi) as (x & Hx & Hfx).
  destruct (format_row_price x) as (r' & Hr' & Hc & _ & _ & Hchg & _).
  rewrite Hfx in Hr'. injection Hr' as <-.
  rewrite Hc. split; [|exact Hchg].
  apply (add_news_fst _ news_list). eapply list_elem_of_lookup_2. exact Hx.
Qed.

(** A candidate keeps the index label of its snapshot row. *)
Lemma candidates_lookup (df : list row) (c : cand) :
  c ∈ candidates df -> df !! idx c = Some (base c).
Proof.
  unfold candidates. intros H. apply relative_volume_filter_elem in H as [H _].
  unfold add_volume_ratio in H.
  apply elem_of_lookup_imap in H as (i & r & -> & Hr). exact Hr.
Qed.

Lemma StronglySorted_impl_elem {A} (R R' : A -> A -> Prop) (l : list A) :
  (forall a b, a ∈ l -> b ∈ l -> R a b -> R' a b) ->
  StronglySorted R l -> StronglySorted R' l.
Proof.
  intros Himpl Hs. induction Hs as [|x l Hs IH Hx]; constructor.
  - apply IH. intros a b Ha Hb. apply Himpl; apply elem_of_cons; right; assumption.
  - apply Forall_forall. intros y Hy. rewrite Forall_forall in Hx.
    apply Himpl; [apply elem_of_cons; left; reflexivity
                 | apply elem_of_cons; right; exact Hy | apply Hx; exact Hy].
Qed.

(** X11. When every candidate gains at least 10 and less than 99.995
    percent, so that every change is shown with two digits before the point,
    the text order of the change column is the numeric order: the table is
    in descending order of the premarket change rounded to two decimals. *)
Theorem table_descending_when_changes_have_two_digits
    (df : list row) (news_list : list (bool * jval)) (rows : list frow) :
  result_rows (candidates df) news_list = Ok rows ->
  Forall (fun c => exists x, premarket_change (base c) = Some x
                             /\ (10 <= x)%Q /\ (x < 99995 # 1000)%Q) (candidates df) ->
  exists table,
    display_table rows = Ok table
    /\ StronglySorted
         (fun a b => exists x y,
              change_of df a = Some x /\ change_of df b = Some y
              /\ displayed_units 2 y <= displayed_units 2 x)
         table.
Proof.
  intros Hrows Hrange.
  destruct (result_rows_total (candidates df) news_list) as (rows' & Hrows' & _ & Hprice).
  rewrite Hrows in Hrows'. injection Hrows' as <-.
  exists (sorted_display rows). split; [apply display_table_sorted; exact Hprice|].
  assert (forall d, d ∈ sorted_display rows ->
            exists x, change_of df d = Some x
                      /\ 1000 <= displayed_units 2 x <= 9999
                      /\ d_Change_from_Close d = format_fixed true 2 false x) as Hshown.
  { intros d Hd. unfold sorted_display in Hd. rewrite sort_values_desc_perm in Hd.
    apply list_elem_of_fmap in Hd as (r & -> & Hr).
    destruct (result_rows_elem _ _ _ _ Hrows Hr) as [Hc Hchg].
    rewrite Forall_forall in Hrange. destruct (Hrange _ Hc) as (x & Hx & Hlo & Hhi).
    exists x. unfold change_of. cbn [select_final_columns d_idx d_Change_from_Close].
    rewrite (candidates_lookup _ _ Hc). split; [exact Hx|].
    split; [apply units_two_digits; assumption|].
    rewrite Hchg, Hx. unfold _fmt, py_format, format_float. cbn [to_cell isna].
    assert (0 <= x)%Q as Hpos by (eapply Qle_trans; [|exact Hlo]; discriminate).
    rewrite (Qabs_of_nonneg _ Hpos). unfold Qnegative.
    rewrite (proj2 (Qle_bool_iff 0 x) Hpos). reflexivity. }
  eapply StronglySorted_impl_elem; [|apply sort_values_desc_sorted].
  intros a b Ha Hb Hab. fold (sorted_display rows) in Ha, Hb.
  destruct (Hshown a Ha) as (x & Hx & Hux & Htx).
  destruct (Hshown b Hb) as (y & Hy & Huy & Hty).
  exists x, y. split; [exact Hx|]. split; [exact Hy|].
  unfold text_descending in Hab. rewrite Htx, Hty in Hab.
  apply change_text_order; assumption.
Qed.

Lemma table_descending_when_changes_have_two_digits_witness :
  exists rows table,
    result_rows (candidates two_risers) [no_news; no_news] = Ok rows
    /\ display_table rows = Ok table
    /\ map (change_of two_risers) table = [Some 50%Q; Some 11%Q].
Proof.
  assert (Forall (fun c => exists x, premarket_change (base c) = Some x
                                     /\ (10 <= x)%Q /\ (x < 99995 # 1000)%Q)
                 (candidates two_risers)) as Hrange.
  { repeat constructor; eexists; (split; [reflexivity|]); split; vm_compute; congruence. }
  pose proof (table_descending_when_changes_have_two_digits
                two_risers [no_news; no_news] _ eq_refl Hrange)
    as (table & Htable & _).
  eexists _, table. split; [reflexivity|]. split; [exact Htable|].
  vm_compute in Htable. injection Htable as <-. reflexivity.
Defined.

(** ** The candidates and the news stage *)

Lemma candidates_bases (g : nat -> nat) (df : list row) :
  map base (relative_volume_filter
              (imap (fun i r => {| idx := g i; base := r; Volume_Ratio := volume_ratio r |}) df))
  = List.filter heavy_volume df.
Proof.
  revert g. induction df as [|r df IH]; intros g; [reflexivity|].
  cbn [imap]. unfold relative_volume_filter in *. cbn [List.filter].
  unfold relative_volume_mask at 1, heavy_volume at 1. cbn [Volume_Ratio].
  specialize (IH (g ∘ S)). unfold compose in IH.
  destruct (volume_ratio r) as [|q|negative|s];
    [|destruct (Qgtb q _)|destruct negative|]; cbn [negb map base];
    rewrite <- IH; reflexivity.
Qed.

(** X13. The candidates are the rows of the snapshot whose binary64 ratio
    is above the multiplier, in the order of the snapshot, and each keeps the
    index label and the ratio of its row. *)
Theorem candidates_in_snapshot_order (df : list row) :
  map base (candidates df) = List.filter heavy_volume df
  /\ Forall (fun c => df !! idx c = Some (base c)
                      /\ Volume_Ratio c = volume_ratio (base c)) (candidates df).
Proof.
  split.
  - unfold candidates, add_volume_ratio. apply (candidates_bases id).
  - apply Forall_forall. intros c Hc. unfold candidates in Hc.
    apply relative_volume_filter_elem in Hc as [Hc _].
    unfold add_volume_ratio in Hc.
    apply elem_of_lookup_imap in Hc as (i & r & -> & Hr). split; [exact Hr | reflexivity].
Qed.

(** A news check answers, and leaves the log, the files and the console as
    they were. *)
Lemma check_quiet (e : env) (ticker : string) (cutoff : datetime)
    (client : option finnhub_client) (w : world) :
  exists r w1,
    check_for_news_finnhub e ticker cutoff client w = (Ok r, w1)
    /\ logged w1 = logged w /\ files w1 = files w /\ console w1 = console w.
Proof.
  destruct client as [client|]; [|eexists _, _; rewrite check_no_client; repeat split].
  destruct (str_nonempty (_normalize_ticker_for_finnhub ticker)) eqn:E.
  - rewrite check_with_client by exact E. eexists _, _. repeat split.
  - rewrite check_empty_symbol by exact E. eexists _, _. repeat split.
Qed.

Lemma news_stage_quiet (e : env) (filtered_df : list cand) (cutoff : datetime)
    (client : option finnhub_client) (w : world) :
  exists news_list w1,
    news_stage e filtered_df cutoff client w = (Ok news_list, w1)
    /\ length news_list = length filtered_df
    /\ logged w1 = logged w /\ files w1 = files w /\ console w1 = console w.
Proof.
  unfold news_stage. revert w. induction filtered_df as [|c l IH]; intros w.
  - exists [], w. repeat split.
  - cbn [mapM]. unfold bind at 1.
    destruct (check_quiet e (name (base c)) cutoff client w)
      as (r & w1 & -> & Hl1 & Hf1 & Hc1).
    unfold bind at 1.
    destruct (IH w1) as (rs & w2 & -> & Hlen & Hl2 & Hf2 & Hc2).
    exists (r :: rs), w2. unfold ret. simpl. repeat split; congruence.
Qed.

Lemma news_stage_asks (e : env) (filtered_df : list cand)
    (cutoff : datetime) (client : finnhub_client) (w : world) :
  exists news_list asked_for w1,
    news_stage e filtered_df cutoff (Some client) w = (Ok news_list, w1)
    /\ length news_list = length filtered_df
    /\ queries w1 = (queries w ++ asked_for)%list
    /\ map (fun q => fst (fst q)) asked_for = news_symbols filtered_df
    /\ Forall (fun q => snd (fst q) = date_isoformat cutoff) asked_for
    /\ reads w1 = (reads w + length asked_for)%nat
    /\ logged w1 = logged w /\ files w1 = files w /\ console w1 = console w.
Proof.
  unfold news_stage, news_symbols. revert w.
  induction filtered_df as [|c l IH]; intros w.
  - exists [], [], w. simpl. rewrite app_nil_r, Nat.add_0_r. repeat split. constructor.
  - cbn [mapM map List.filter]. unfold bind at 1.
    destruct (str_nonempty (_normalize_ticker_for_finnhub (name (base c)))) eqn:E.
    + rewrite check_with_client by exact E. unfold bind at 1.
      destruct (IH (asked (tick w)
                      (_normalize_ticker_for_finnhub (name (base c)),
                       date_isoformat cutoff, date_isoformat (utc_now e w))))
        as (rs & qs & w2 & -> & Hlen & Hq & Hsym & Hfrom & Hreads & Hlog & Hfiles & Hcons).
      eexists (_ :: rs), (_ :: qs), w2. unfold ret.
      split; [reflexivity|]. split; [simpl; congruence|].
      split; [rewrite Hq; simpl; rewrite <- app_assoc; reflexivity|].
      split; [cbn [map fst]; rewrite Hsym; reflexivity|].
      split; [constructor; [reflexivity | exact Hfrom]|].
      split; [rewrite Hreads; simpl; lia|].
      split; [exact Hlog|]. split; [exact Hfiles | exact Hcons].
    + rewrite check_empty_symbol by exact E. unfold bind at 1.
      destruct (IH w)
        as (rs & qs & w2 & -> & Hlen & Hq & Hsym & Hfrom & Hreads & Hlog & Hfiles & Hcons).
      exists (no_news :: rs), qs, w2. unfold ret.
      split; [reflexivity|]. split; [simpl; congruence|].
      repeat split; assumption.
Qed.

(** X12. With a client, the news stage puts one query to the provider for
    each candidate whose normalized symbol is not empty, in the order of the
    candidates and whatever the provider answered to the earlier ones; each
    query asks for the news since the date of the cutoff and takes one
    reading of the clock.  The stage answers one pair for each candidate and
    neither logs a record nor touches the files or the console. *)
Theorem news_stage_asks_once_per_symbol (e : env) (filtered_df : list cand)
    (cutoff : datetime) (client : finnhub_client) (w : world) :
  exists news_list asked_for,
    fst (news_stage e filtered_df cutoff (Some client) w) = Ok news_list
    /\ length news_list = length filtered_df
    /\ queries (snd (news_stage e filtered_df cutoff (Some client) w))
       = (queries w ++ asked_for)%list
    /\ map (fun q => fst (fst q)) asked_for = news_symbols filtered_df
    /\ Forall (fun q => snd (fst q) = date_isoformat cutoff) asked_for
    /\ reads (snd (news_stage e filtered_df cutoff (Some client) w))
       = (reads w + length asked_for)%nat
    /\ logged (snd (news_stage e filtered_df cutoff (Some client) w)) = logged w
    /\ files (snd (news_stage e filtered_df cutoff (Some client) w)) = files w
    /\ console (snd (news_stage e filtered_df cutoff (Some client) w)) = console w.
Proof.
  destruct (news_stage_asks e filtered_df cutoff client w)
    as (rs & qs & w1 & Hrun & H).
  exists rs, qs. rewrite Hrun. split; [reflexivity | exact H].
Qed.

(** ** A run of [main], case by case *)

Lemma log_error_run (m : message) (w : world) :
  log ERROR m w = (Ok tt, with_logs w [{| lvl := ERROR; msg := m |}]).
Proof. reflexivity. Qed.

(** What [main] does: the provider fails and the failure is logged; or no
    candidate is left and the run ends; or the news stage and the formatting
    go through and the run is the report, which fails only if both renderers
    do. *)
Lemma main_outcome (e : env) (w : world) :
  (exists exc,
      get_scanner_data e main_query (cookie_jar e) = Raise exc
      /\ main e w = (Ok tt, with_logs (prelude e w) [error exc]))
  \/ (exists total df records,
        get_scanner_data e main_query (cookie_jar e) = Ok (total, df)
        /\ candidates df = []
        /\ main e w = (Ok tt, with_logs (prelude e w) records)
        /\ Forall (fun r => lvl r = INFO) records)
  \/ (exists total df news_list w1 rows,
        get_scanner_data e main_query (cookie_jar e) = Ok (total, df)
        /\ candidates df <> []
        /\ news_stage e (candidates df) (run_cutoff e w) (client_of e)
             (with_logs (prelude e w) (stage_records total (length (candidates df))))
           = (Ok news_list, w1)
        /\ length news_list = length (candidates df)
        /\ logged w1
           = (logged (prelude e w) ++ stage_records total (length (candidates df)))%list
        /\ files w1 = files w /\ console w1 = console w
        /\ result_rows (candidates df) news_list = Ok rows
        /\ display_table rows = Ok (sorted_display rows)
        /\ main e w
           = match rendered e (sorted_display rows) with
             | Ok table_md =>
                 (Ok tt,
                  published w1
                    (fst (export e (reads w1) table_md (links_md rows)))
                    (snd (export e (reads w1) table_md (links_md rows)))
                    table_md (links_md rows))
             | Raise exc => (Ok tt, with_logs w1 [info MsgFinalResults; error exc])
             end).
Proof.
  rewrite main_run. unfold try_except.
  destruct (get_scanner_data e main_query (cookie_jar e)) as [[total df]|exc] eqn:Hscan.
  - destruct (candidates df) as [|c0 cs] eqn:Hcands.
    + right. left. eexists total, df, _. split; [reflexivity|]. split; [exact Hcands|].
      rewrite (screen_early_exit e _ _ _ _ total df Hscan Hcands).
      split; [reflexivity|]. destruct df; repeat constructor.
    + right. right.
      destruct (news_stage_quiet e (candidates df) (run_cutoff e w) (client_of e)
                  (with_logs (prelude e w) (stage_records total (length (candidates df)))))
        as (news_list & w1 & Hnews & Hlen & Hlog & Hfiles & Hcons).
      destruct (result_rows_total (candidates df) news_list) as (rows & Hrows & _ & Hprice).
      exists total, df, news_list, w1, rows.
      split; [reflexivity|]. split; [rewrite Hcands; discriminate|].
      split; [exact Hnews|]. split; [exact Hlen|]. split; [exact Hlog|].
      split; [exact Hfiles|]. split; [exact Hcons|]. split; [exact Hrows|].
      split; [apply display_table_sorted; exact Hprice|].
      rewrite (screen_run e _ _ _ _ w1 total df news_list rows Hscan
                 ltac:(rewrite Hcands; discriminate) Hnews Hrows).
      rewrite (report_run e rows w1 Hprice).
      destruct (rendered e (sorted_display rows)) as [table_md|exc].
      * reflexivity.
      * rewrite log_error_run, with_logs_app. reflexivity.
  - left. exists exc. split; [reflexivity|].
    unfold screen, bind, lift. rewrite Hscan. apply log_error_run.
Qed.

(** X14. [main] never raises: whatever the browser, the environment, the
    snapshot provider, the news provider and the renderers do, the run
    returns normally. *)
Theorem main_never_raises (e : env) (w : world) : fst (main e w) = Ok tt.
Proof.
  destruct (main_outcome e w)
    as [(exc & _ & ->) | [(total & df & records & _ & _ & -> & _)
       | (total & df & news_list & w1 & rows & _ & _ & _ & _ & _ & _ & _ & _ & _ & ->)]];
    try reflexivity.
  destruct (rendered e (sorted_display rows)); reflexivity.
Qed.

(** X15. A run publishes all of its report or nothing.  Either it leaves
    the files and the console as they were; or the provider answered, every
    candidate got its news pair, the rows were formatted and the table
    rendered, by [to_markdown] or, when that raised, by [to_string], and then
    the run wrote exactly one file, named after the UTC date of its last
    reading of the clock and holding the heading, the table and the links,
    and printed that table and those links, and nothing else. *)
Theorem main_publishes_all_or_nothing (e : env) (w : world) :
  (files (snd (main e w)) = files w /\ console (snd (main e w)) = console w)
  \/ exists total df news_list rows table table_md k,
       get_scanner_data e main_query (cookie_jar e) = Ok (total, df)
       /\ fst (news_stage e (candidates df) (run_cutoff e w) (client_of e)
                 (with_logs (prelude e w) (stage_records total (length (candidates df)))))
          = Ok news_list
       /\ length news_list = length (candidates df)
       /\ result_rows (candidates df) news_list = Ok rows
       /\ display_table rows = Ok table
       /\ (to_markdown e (take 10 table) = Ok table_md
           \/ (exists exc, to_markdown e (take 10 table) = Raise exc)
              /\ to_string e (take 10 table) = Ok table_md)
       /\ reads (snd (main e w)) = S k
       /\ files (snd (main e w)) = (files w ++ [export e k table_md (links_md rows)])%list
       /\ console (snd (main e w)) = (console w ++ [table_md; links_md rows])%list.
Proof.
  destruct (main_outcome e w)
    as [(exc & _ & ->) | [(total & df & records & _ & _ & -> & _)
       | (total & df & news_list & w1 & rows & Hscan & _ & Hnews & Hlen & _ & Hfiles
          & Hcons & Hrows & Htable & ->)]];
    [left; split; reflexivity | left; split; reflexivity |].
  unfold rendered.
  destruct (to_markdown e (take 10 (sorted_display rows))) as [md|exc1] eqn:Hmd.
  - right. exists total, df, news_list, rows, (sorted_display rows), md, (reads w1).
    rewrite Hnews. repeat split; try assumption.
    + left. exact Hmd.
    + simpl. rewrite Hfiles. reflexivity.
    + simpl. rewrite Hcons, <- app_assoc. reflexivity.
  - destruct (to_string e (take 10 (sorted_display rows))) as [md|exc2] eqn:Hstr.
    + right. exists total, df, news_list, rows, (sorted_display rows), md, (reads w1).
      rewrite Hnews. repeat split; try assumption.
      * right. split; [exists exc1; exact Hmd | exact Hstr].
      * simpl. rewrite Hfiles. reflexivity.
      * simpl. rewrite Hcons, <- app_assoc. reflexivity.
    + left. simpl. split; assumption.
Qed.

(** X16. After the records of its start a run logs records at level INFO
    and at most one error, which is then its last record.  The error is the
    exception of the snapshot provider, or the exception of [to_string]
    when both renderers raised, and a run that logs it leaves the files and
    the console as they were. *)
Theorem main_logs_a_failure_once (e : env) (w : world) :
  exists records,
    logged (snd (main e w)) = (logged (prelude e w) ++ records)%list
    /\ (Forall (fun r => lvl r = INFO) records
        \/ exists infos exc,
             records = (infos ++ [error exc])%list
             /\ Forall (fun r => lvl r = INFO) infos
             /\ (get_scanner_data e main_query (cookie_jar e) = Raise exc
                 \/ exists table exc1,
                      to_markdown e (take 10 table) = Raise exc1
                      /\ to_string e (take 10 table) = Raise exc)
             /\ files (snd (main e w)) = files w
             /\ console (snd (main e w)) = console w).
Proof.
  destruct (main_outcome e w)
    as [(exc & Hscan & ->) | [(total & df & records & _ & _ & -> & Hinfo)
       | (total & df & news_list & w1 & rows & _ & _ & _ & _ & Hlog & Hfiles
          & Hcons & _ & _ & ->)]].
  - exists [error exc]. split; [reflexivity|]. right. exists [], exc.
    repeat split; [constructor | left; exact Hscan].
  - exists records. split; [reflexivity|]. left. exact Hinfo.
  - unfold rendered.
    destruct (to_markdown e (take 10 (sorted_display rows))) as [md|exc1] eqn:Hmd;
      [|destruct (to_string e (take 10 (sorted_display rows))) as [md|exc2] eqn:Hstr].
    + exists (stage_records total (length (candidates df)) ++ [info MsgFinalResults])%list.
      split; [simpl; rewrite Hlog, <- app_assoc; reflexivity|].
      left. repeat constructor.
    + exists (stage_records total (length (candidates df)) ++ [info MsgFinalResults])%list.
      split; [simpl; rewrite Hlog, <- app_assoc; reflexivity|].
      left. repeat constructor.
    + exists (stage_records total (length (candidates df))
              ++ [info MsgFinalResults; error exc2])%list.
      split; [cbn [snd with_logs logged]; rewrite Hlog, <- app_assoc; reflexivity|].
      right. exists (stage_records total (length (candidates df)) ++ [info MsgFinalResults])%list,
                    exc2.
      split; [rewrite <- app_assoc; reflexivity|].
      split; [repeat constructor|].
      split; [right; exists (sorted_display rows), exc1; split; assumption|].
      split; assumption.
Qed.

(** X17. When the snapshot provider raises, the run logs that exception as
    an error and ends there: after the records of its start it logs this one
    record, and it reads the clock no further, asks the news provider
    nothing, writes no file and prints nothing. *)
Theorem scanner_failure_is_logged (e : env) (w : world) (exc : exn) :
  get_scanner_data e main_query (cookie_jar e) = Raise exc ->
  main e w = (Ok tt, with_logs (prelude e w) [error exc])
  /\ reads (snd (main e w)) = S (reads w)
  /\ queries (snd (main e w)) = queries w
  /\ files (snd (main e w)) = files w
  /\ console (snd (main e w)) = console w.
Proof.
  intros Hscan.
  destruct (main_outcome e w)
    as [(exc' & Hscan' & Hmain) | [(total & df & records & Hscan' & _)
       | (total & df & news_list & w1 & rows & Hscan' & _)]];
    rewrite Hscan in Hscan'; try discriminate.
  injection Hscan' as <-. rewrite Hmain. repeat split.
Qed.

Lemma scanner_failure_is_logged_witness :
  logged (snd (main offline_env world0))
  = [info (MsgTimezone MARKET_TIMEZONE);
     info (MsgCutoff (news_cutoff_local (market_now offline_env world0)) TIME_BUFFER_MINUTES);
     info MsgLoadingCookies;
     error (ExternalError "connection refused")].
Proof.
  destruct (scanner_failure_is_logged offline_env world0
              (ExternalError "connection refused") eq_refl) as [Hmain _].
  rewrite Hmain. reflexivity.
Defined.

(** X18. When the provider answers with rows of which some are candidates,
    and one of the two renderers works on every table, the run publishes:
    it logs no error, writes one file and prints its table and its links. *)
Theorem main_publishes_when_rendering_works (e : env) (w : world) (total : Z) (df : list row) :
  get_scanner_data e main_query (cookie_jar e) = Ok (total, df) ->
  candidates df <> [] ->
  (forall table, (exists md, to_markdown e table = Ok md)
                 \/ (exists md, to_string e table = Ok md)) ->
  exists k table_md links,
    reads (snd (main e w)) = S k
    /\ files (snd (main e w)) = (files w ++ [export e k table_md links])%list
    /\ console (snd (main e w)) = (console w ++ [table_md; links])%list
    /\ logged (snd (main e w))
       = (logged (prelude e w) ++ stage_records total (length (candidates df))
            ++ [info MsgFinalResults])%list.
Proof.
  intros Hscan Hcands Hrender.
  destruct (main_outcome e w)
    as [(exc' & Hscan' & _) | [(total' & df' & records & Hscan' & Hnone & _)
       | (total' & df' & news_list & w1 & rows & Hscan' & _ & _ & _ & Hlog & Hfiles
          & Hcons & _ & _ & ->)]];
    rewrite Hscan in Hscan'; try discriminate;
    injection Hscan' as <- <-; [contradiction|].
  assert (exists md, rendered e (sorted_display rows) = Ok md) as [md ->].
  { unfold rendered.
    destruct (to_markdown e (take 10 (sorted_display rows))) as [md|exc1] eqn:Hmd;
      [exists md; reflexivity|].
    destruct (Hrender (take 10 (sorted_display rows))) as [[md H]|[md H]];
      [congruence | exists md; exact H]. }
  exists (reads w1), md, (links_md rows).
  cbn [snd published reads files console logged].
  rewrite Hfiles, Hcons, Hlog, <- !app_assoc. repeat split.
Qed.

Lemma main_publishes_when_rendering_works_witness :
  exists k table_md links,
    reads (snd (main no_key_env world0)) = S k
    /\ files (snd (main no_key_env world0)) = [export no_key_env k table_md links].
Proof.
  assert (forall table, (exists md, to_markdown no_key_env table = Ok md)
                        \/ (exists md, to_string no_key_env table = Ok md)) as Hrender
    by (intros table; left; eexists; reflexivity).
  destruct (main_publishes_when_rendering_works no_key_env world0 2 two_movers
              eq_refl ltac:(vm_compute; discriminate) Hrender)
    as (k & table_md & links & Hreads & Hfiles & _).
  exists k, table_md, links. split; [exact Hreads | exact Hfiles].
Defined.

(** ** Malformed articles *)

Lemma scan_articles_malformed (c : Z) (pre post : list article) (a : article) :
  Forall (passed_over c) pre -> malformed a ->
  exists exc, scan_articles c (pre ++ a :: post)%list = Raise exc.
Proof.
  intros Hpre Ha. induction Hpre as [|b pre Hb _ IH].
  - simpl app. destruct Ha as [-> | (d & s & -> & Hd & Hs)].
    + exists AttributeError. reflexivity.
    + exists TypeError. rewrite scan_articles_cons_dict. unfold field. rewrite Hd.
      destruct s; [contradiction | reflexivity].
  - rewrite <- app_comm_cons.
    destruct Hb as [Hb | (d' & t' & -> & Hd' & Hle)].
    + rewrite scan_articles_undated by exact Hb. exact IH.
    + rewrite (scan_articles_old c t' d') by assumption. exact IH.
Qed.

(** X19. An element the scan cannot read, met before any article after the
    cutoff, ends the check with "no news": the check answers [(false, "")]
    whatever follows that element, also when a later article is after the
    cutoff. *)
Theorem malformed_article_hides_later_news
    (e : env) (ticker : string) (cutoff : datetime) (client : finnhub_client) (w : world)
    (pre post : list article) (a : article) :
  str_nonempty (_normalize_ticker_for_finnhub ticker) = true ->
  company_news client (_normalize_ticker_for_finnhub ticker)
               (date_isoformat cutoff) (date_isoformat (utc_now e w))
  = Ok (pre ++ a :: post)%list ->
  Forall (passed_over (int_timestamp cutoff)) pre ->
  malformed a ->
  fst (check_for_news_finnhub e ticker cutoff (Some client) w) = Ok no_news.
Proof.
  intros Hsym Hanswer Hpre Ha.
  rewrite check_with_client by exact Hsym. rewrite Hanswer. cbn [fst].
  destruct (scan_articles_malformed (int_timestamp cutoff) pre post a Hpre Ha) as [exc Hexc].
  unfold news_of. rewrite Hexc. reflexivity.
Qed.

Lemma malformed_article_hides_later_news_witness :
  fst (check_for_news_finnhub scenario_env "NASDAQ:AAA" cutoff_0900 (Some garbled_client) world0)
  = Ok no_news
  /\ scan_articles (int_timestamp cutoff_0900) [article_A; ArtDict dict_B] = Ok (true, JStr "B").
Proof.
  split; [|reflexivity].
  apply (malformed_article_hides_later_news scenario_env "NASDAQ:AAA" cutoff_0900
           garbled_client world0 [article_A] [ArtDict dict_B] ArtOther).
  - reflexivity.
  - reflexivity.
  - constructor; [|constructor]. right.
    eexists _, (int_timestamp (utc_datetime 2024 1 10 8 0 0)).
    split; [reflexivity|]. split; [reflexivity | vm_compute; discriminate].
  - left. reflexivity.
Defined.

(** ** The news columns *)

Lemma format_rows_aligned (l : list (cand * (bool * jval))) (rows : list frow) :
  res_mapM format_row l = Ok rows ->
  map f_cand rows = map fst l
  /\ map (fun r => (Makes_News r, News_URL r)) rows
     = map (fun x => (fst (snd x), fillna (snd (snd x)))) l.
Proof.
  intros H. apply res_mapM_Forall2 in H.
  induction H as [|x r l rows Hr _ IH]; [split; reflexivity|].
  destruct (format_row_price x) as (r' & Hr' & Hc & Hn & Hu & _).
  rewrite Hr in Hr'. injection Hr' as <-.
  destruct IH as [IH1 IH2]. cbn [map]. rewrite IH1, IH2, Hc, Hn, Hu. split; reflexivity.
Qed.

(** X20. When the news stage has answered one pair for each candidate, the
    rows of [filtered_df] are the candidates in their order, each with the
    flag and the URL of its own pair, a null URL being replaced by the empty
    string: no row shows the news of another ticker and no URL is null. *)
Theorem rows_carry_their_own_news
    (filtered_df : list cand) (news_list : list (bool * jval)) (rows : list frow) :
  length news_list = length filtered_df ->
  result_rows filtered_df news_list = Ok rows ->
  map f_cand rows = filtered_df
  /\ map (fun r => (Makes_News r, News_URL r)) rows
     = map (fun p => (fst p, fillna (snd p))) news_list
  /\ Forall (fun r => News_URL r <> JNull) rows.
Proof.
  intros Hlen Hrows. unfold result_rows in Hrows.
  destruct (format_rows_aligned _ _ Hrows) as [Hc Hn].
  assert (add_news filtered_df news_list = zip filtered_df news_list) as Hzip.
  { unfold add_news. destruct news_list; [|reflexivity].
    destruct filtered_df; [reflexivity | discriminate]. }
  rewrite Hzip in Hc, Hn.
  assert (map (fun r => (Makes_News r, News_URL r)) rows
          = map (fun p => (fst p, fillna (snd p))) news_list) as Hpairs.
  { rewrite Hn. rewrite <- (snd_zip filtered_df news_list) at 2 by lia.
    rewrite <- list_fmap_compose. reflexivity. }
  split; [rewrite Hc; apply fst_zip; lia|]. split; [exact Hpairs|].
  apply Forall_forall. intros r Hr Hnull.
  assert ((Makes_News r, News_URL r) ∈ map (fun p => (fst p, fillna (snd p))) news_list) as Hin.
  { rewrite <- Hpairs. apply (list_elem_of_fmap_2 (fun r => (Makes_News r, News_URL r))).
    exact Hr. }
  apply list_elem_of_fmap in Hin as (p & Hp & _). injection Hp as _ Hu.
  rewrite Hnull in Hu. destruct (snd p); discriminate.
Qed.

Lemma rows_carry_their_own_news_witness :
  exists rows,
    result_rows (candidates two_risers) (map recent_pair ["AAA"; "BBB"]) = Ok rows
    /\ map f_cand rows = candidates two_risers
    /\ map (fun r => (Makes_News r, News_URL r)) rows
       = [(true, JStr "http://news/AAA"); (true, JStr "http://news/BBB")].
Proof.
  destruct (rows_carry_their_own_news
              (candidates two_risers) (map recent_pair ["AAA"; "BBB"]) _ eq_refl eq_refl)
    as (Hc & Hn & _).
  eexists. split; [reflexivity|]. split; [exact Hc | exact Hn].
Defined.
